(** * CG-DETR start/end dataset: label constructors, collation, batch preparation

    A shallow embedding of [training/cg_detr_dataset.py].

    Conventions of the embedding.
    - Python [int] is [Z]; Python [float] and tensor entries are exact
      rationals [Q] (rounding is not represented, and a tensor divided by
      zero, which torch turns into inf/nan, is outside the model).
    - A raised exception is [Raise e]; a returned value is [Ok v].
    - [random] is an explicit tape of draws threaded through the code.
    - Tensors and numpy arrays are nested lists ([ndarray]); a torch tensor
      also carries the device it lives on. *)

From Stdlib Require Import ZArith QArith Qround List Sorted Lia.
From stdpp Require Import base option list gmap strings pretty.

Local Open Scope Z_scope.
#[local] Set Warnings "-register-all".

(** ** Exceptions and the result monad *)

Inductive exn : Set :=
| KeyError | IndexError | ValueError | AxisError | TypeError
| ZeroDivisionError | NotImplementedError | AssertionError
| NameError | RuntimeError | AttributeError.

Inductive result (A : Type) : Type :=
| Ok (a : A)
| Raise (e : exn).
Arguments Ok {A} a.
Arguments Raise {A} e.

#[global] Instance result_ret : MRet result := fun A a => Ok a.
#[global] Instance result_bind : MBind result := fun A B f m =>
  match m with Ok a => f a | Raise e => Raise e end.
#[global] Instance result_fmap : FMap result := fun A B f m =>
  match m with Ok a => Ok (f a) | Raise e => Raise e end.

(** [try: m except: h] with a bare [except]. *)
Definition try_except {A} (m : result A) (h : A) : result A :=
  match m with Ok a => Ok a | Raise _ => Ok h end.

(** [[f x for x in l]] where [f] may raise. *)
Fixpoint mapR {A B} (f : A -> result B) (l : list A) : result (list B) :=
  match l with
  | [] => Ok []
  | x :: l' => y ← f x; ys ← mapR f l'; Ok (y :: ys)
  end.

Definition of_option {A} (e : exn) (o : option A) : result A :=
  match o with Some a => Ok a | None => Raise e end.

Definition is_Ok {A} (m : result A) : bool :=
  match m with Ok _ => true | Raise _ => false end.

(** ** Python sequences *)

Module Py.

(** [range(a, b)] *)
Definition range (a b : Z) : list Z :=
  map (fun i => a + Z.of_nat i) (seq 0 (Z.to_nat (b - a))).

(** Normalisation of one slice bound against a sequence of length [n]. *)
Definition slice_bound (n : nat) (i : Z) : nat :=
  if i <? 0 then Z.to_nat (Z.max (i + Z.of_nat n) 0)
  else Nat.min (Z.to_nat i) n.

(** [l[:stop]] *)
Definition slice_to {A} (l : list A) (stop : Z) : list A :=
  take (slice_bound (length l) stop) l.

(** [l[start:]] *)
Definition slice_from {A} (l : list A) (start : Z) : list A :=
  drop (slice_bound (length l) start) l.

(** [l[i]] for an integer [i], negative indices counting from the end. *)
Definition norm_index (len : nat) (i : Z) : result nat :=
  let n := Z.of_nat len in
  if (i <? - n) || (n <=? i) then Raise IndexError
  else Ok (Z.to_nat (if i <? 0 then i + n else i)).

Definition getitem {A} (l : list A) (i : Z) : result A :=
  k ← norm_index (length l) i; of_option IndexError (l !! k).

(** [sub in s] on strings. *)
Definition contains (sub s : string) : bool :=
  match String.index 0 sub s with Some _ => true | None => false end.

(** [int(x)]: truncation towards zero. *)
Definition int (x : Q) : Z := Z.quot (Qnum x) (Z.pos (Qden x)).

(** [a / b] on Python numbers. *)
Definition div (a b : Q) : result Q :=
  if Qeq_bool b 0 then Raise ZeroDivisionError else Ok (a / b)%Q.


End Py.

(** ** The random module *)

Module Random.

(** The generator is a tape of draws; an exhausted tape yields 0. *)
Definition rng := list nat.

Definition randbelow (n : nat) (g : rng) : nat * rng :=
  match g with
  | [] => (0%nat, [])
  | r :: g' => ((r mod n)%nat, g')
  end.

Definition swap {A} (l : list A) (i j : nat) : list A :=
  match l !! i, l !! j with
  | Some x, Some y => <[j := x]> (<[i := y]> l)
  | _, _ => l
  end.

(** [random.shuffle(x)]: for i in reversed(range(1, len(x))):
    j = randbelow(i + 1); x[i], x[j] = x[j], x[i].
    [shuffle_from i] runs the iterations i, i-1, ..., 1. *)
Fixpoint shuffle_from {A} (i : nat) (l : list A) (g : rng) : list A * rng :=
  match i with
  | O => (l, g)
  | S i' =>
      let '(j, g1) := randbelow (S i) g in
      shuffle_from i' (swap l i j) g1
  end.

Definition shuffle {A} (l : list A) (g : rng) : list A * rng :=
  shuffle_from (pred (length l)) l g.

(** [random.sample(population, k)] as the library draws from a copy of
    the population: for i in range(k): j = randbelow(n - i);
    result[i] = pool[j]; pool[j] = pool[n - i - 1]. (For populations of
    more than 21 entries the library tracks the chosen positions in a set
    instead; the picks are at distinct positions either way.) ValueError
    when the sample is larger than the population, raised before anything
    is drawn. *)
Fixpoint sample_pool {A} (k : nat) (pool : list A) (g : rng) : list A * rng :=
  match k with
  | O => ([], g)
  | S k' =>
      let n := length pool in
      let '(j, g1) := randbelow n g in
      match pool !! j, last pool with
      | Some x, Some y =>
          let '(rest, g2) :=
            sample_pool k' (take (pred n) (<[j := y]> pool)) g1 in
          (x :: rest, g2)
      | _, _ => ([], g1)
      end
  end.

Definition sample {A} (population : list A) (k : Z) (g : rng)
  : result (list A * rng) :=
  if (k <? 0) || (Z.of_nat (length population) <? k) then Raise ValueError
  else Ok (sample_pool (Z.to_nat k) population g).

End Random.

(** ** numpy on one-dimensional integer arrays *)

Module Np.

(** [np.zeros(n)] *)
Definition zeros (n : Z) : result (list Z) :=
  if n <? 0 then Raise ValueError else Ok (replicate (Z.to_nat n) 0).

Definition sumZ (l : list Z) : Z := foldr Z.add 0 l.

Definition rectangular {A} (rows : list (list A)) : bool :=
  match rows with
  | [] => true
  | r :: rs => forallb (fun r' => Nat.eqb (length r') (length r)) rs
  end.

(** [np.sum(np.array(rows), 1)]. An empty list is a one-dimensional array
    and has no axis 1; rows of different lengths do not make an array. *)
Definition sum_axis1 (rows : list (list Z)) : result (list Z) :=
  match rows with
  | [] => Raise AxisError
  | _ => if rectangular rows then Ok (map sumZ rows) else Raise ValueError
  end.

(** [np.argsort(a)], increasing: insertion of each index into the sorted
    indices of the ones after it, before the first key that is not smaller.
    (numpy does not fix the order of the indices of equal keys; the model
    keeps them in index order.) *)
Fixpoint insert_index (key : nat -> Z) (i : nat) (sorted : list nat) : list nat :=
  match sorted with
  | [] => [i]
  | j :: rest =>
      if key i <=? key j then i :: sorted else j :: insert_index key i rest
  end.

Definition argsort (a : list Z) : list nat :=
  foldr (insert_index (fun i => default 0 (a !! i))) [] (seq 0 (length a)).

(** [a[i] = v] for an integer index. *)
Definition setitem {A} (a : list A) (i : Z) (v : A) : result (list A) :=
  k ← Py.norm_index (length a) i; Ok (<[k := v]> a).

(** [dst[:stop] = src] for arrays: the shapes must agree, up to the
    broadcast of a one-element source. *)
Definition assign_prefix {A} (dst : list A) (stop : Z) (src : list A)
  : result (list A) :=
  let k := Py.slice_bound (length dst) stop in
  if Nat.eqb (length src) k then Ok (src ++ drop k dst)
  else match src with
       | [x] => Ok (replicate k x ++ drop k dst)
       | _ => Raise ValueError
       end.

(** [a[start:stop] = v] for a scalar [v]. *)
Definition fill_slice {A} (a : list A) (start stop : Z) (v : A) : list A :=
  let lo := Py.slice_bound (length a) start in
  let hi := Py.slice_bound (length a) stop in
  imap (fun i x => if (lo <=? i)%nat && (i <? hi)%nat then v else x) a.

End Np.

(** ** Tensors *)

Inductive device : Set := Cpu | Cuda (i : nat).

#[global] Instance device_eq_dec : EqDecision device.
Proof. solve_decision. Defined.

Inductive ndarray : Type :=
| Num (q : Q)
| Arr (xs : list ndarray).

(** A torch tensor: its entries and the device holding them. *)
Record Tensor : Type := mkTensor { t_data : ndarray; t_device : device }.

(** [t.to(device)] *)
Definition to (t : Tensor) (d : device) : Tensor :=
  {| t_data := t_data t; t_device := d |}.

(** [len(a)] *)
Definition nd_len (a : ndarray) : result nat :=
  match a with
  | Arr xs => Ok (length xs)
  | Num _ => Raise TypeError
  end.

(** [a[:n]] *)
Definition nd_slice_to (a : ndarray) (n : Z) : result ndarray :=
  match a with
  | Arr xs => Ok (Arr (Py.slice_to xs n))
  | Num _ => Raise IndexError
  end.

Definition nd_of_Zs (l : list Z) : ndarray := Arr (map (fun z => Num (inject_Z z)) l).
Definition nd_of_Qs (l : list Q) : ndarray := Arr (map Num l).
Definition nd_of_rows (l : list (Q * Q)) : ndarray :=
  Arr (map (fun r => Arr [Num (fst r); Num (snd r)]) l).

(** ** Annotation records and per-example values *)

Module Meta.
(** One line of the annotation file; keys that a line may lack are options. *)
Record annotation : Type := mk {
  qid : Z;
  query : string;
  duration : Q;
  vid : string;
  relevant_clip_ids : option (list Z);
  relevant_windows : option (list (Q * Q));
  saliency_scores : option (list (list Z));
  label : option (list (list Z));
  domain : option string
}.

Definition set_relevant_windows (m : annotation) (w : option (list (Q * Q)))
  : annotation :=
  mk (qid m) (query m) (duration m) (vid m) (relevant_clip_ids m) w
     (saliency_scores m) (label m) (domain m).
End Meta.

Inductive value : Type :=
| VTensor (t : Tensor)
| VArray (a : ndarray)
| VList (l : list Z)
| VStr (s : string)
| VInt (z : Z).

Record item : Type := mkItem {
  meta : Meta.annotation;
  model_inputs : gmap string value
}.

Record CGDETR_StartEndDataset : Type := mkDataset {
  dset_name : string;
  data_path : string;
  domain : string;
  data_ratio : Q;
  v_feat_dirs : list string;
  q_feat_dir : string;
  q_feat_type : string;
  max_q_l : Z;
  max_v_l : Z;
  ctx_mode : string;
  use_tef : bool;
  use_video : bool;
  normalize_t : bool;
  normalize_v : bool;
  load_labels : bool;
  clip_len : Q;
  max_windows : Z;
  span_loss_type : string;
  data : list Meta.annotation;
  use_glove : bool
}.

Definition set_data (self : CGDETR_StartEndDataset) (d : list Meta.annotation)
  : CGDETR_StartEndDataset :=
  mkDataset (dset_name self) (data_path self) (domain self) (data_ratio self)
    (v_feat_dirs self) (q_feat_dir self) (q_feat_type self) (max_q_l self)
    (max_v_l self) (ctx_mode self) (use_tef self) (use_video self)
    (normalize_t self) (normalize_v self) (load_labels self) (clip_len self)
    (max_windows self) (span_loss_type self) d (use_glove self).

(** What the code reads from outside the process. [load_jsonl] belongs to
    [lighthouse.common.utils.basic_utils]; the other three are the methods
    of the class that read feature files and the pretrained embedding, and
    the model takes their results as given. *)
Record Disk : Type := {
  load_jsonl : string -> result (list Meta.annotation);
  _get_query_feat_by_qid : CGDETR_StartEndDataset -> Z -> result Tensor;
  _get_video_feat_by_vid : CGDETR_StartEndDataset -> string -> result Tensor;
  get_query : CGDETR_StartEndDataset -> string -> result Tensor
}.

(** ** Span utilities *)

(** Modelled from the spec: [span_xx_to_cxw] of
    [lighthouse.common.utils.span_utils], which is not among the sources.
    The spec calls a span "a (start, end) or (center, width) encoding of a
    temporal window"; the conversion takes each (start, end) row to its
    centre and its width. *)
Definition span_xx_to_cxw (spans : list (Q * Q)) : list (Q * Q) :=
  map (fun r => ((fst r + snd r) / 2, snd r - fst r)%Q) spans.

(** ** Label constructors *)

(** The score-array loop of [get_saliency_labels_all]:
    for idx in range(len(rel_clip_ids)), starting at [idx]. *)
Fixpoint score_array_loop (ctx_l : Z) (rel_clip_ids : list Z)
    (agg_scores : list Z) (idx : nat) (score_array : list Z)
  : result (list Z) :=
  match rel_clip_ids with
  | [] => Ok score_array
  | cid :: rest =>
      score_array ←
        (if ctx_l <=? cid then
           score_array_new ← Np.zeros (ctx_l + 1);
           Np.assign_prefix score_array_new ctx_l score_array
         else Ok score_array);
      v ← of_option IndexError (agg_scores !! idx);
      score_array ← Np.setitem score_array cid v;
      score_array_loop ctx_l rest agg_scores (S idx) score_array
  end.

(** [[min(rel_clip_ids[idx], ctx_l-1) for idx in indices]] *)
Definition clip_indices (rel_clip_ids : list Z) (ctx_l : Z) (indices : list nat)
  : result (list Z) :=
  mapR (fun idx => cid ← of_option IndexError (rel_clip_ids !! idx);
                   Ok (Z.min cid (ctx_l - 1))) indices.

(** [list(set(range(ctx_l)) - set(rel_clip_ids))]; the iteration order of a
    set is unspecified, the model lists it increasingly. *)
Definition easy_neg_pool (rel_clip_ids : list Z) (ctx_l : Z) : list Z :=
  filter (fun i => i ∉ rel_clip_ids) (Py.range 0 ctx_l).

Definition get_saliency_labels_all (rel_clip_ids : list Z)
    (scores : list (list Z)) (ctx_l : Z) (max_n : Z)
    (add_easy_negative : bool) (g : Random.rng)
  : result (list Z * list Z * list Z * Random.rng) :=
  agg_scores ← Np.sum_axis1 scores;
  let sort_indices := Np.argsort agg_scores in
  score_array ← Np.zeros ctx_l;
  score_array ← score_array_loop ctx_l rel_clip_ids agg_scores 0 score_array;
  hard_pos_clip_indices ←
    clip_indices rel_clip_ids ctx_l (Py.slice_from sort_indices (- max_n));
  hard_neg_clip_indices ←
    clip_indices rel_clip_ids ctx_l (Py.slice_to sort_indices max_n);
  '(easy_pos_clip_indices, easy_neg_clip_indices, g) ←
    (if add_easy_negative then
       let pool := easy_neg_pool rel_clip_ids ctx_l in
       if max_n <=? Z.of_nat (length pool) then
         '(easy_pos, g) ← Random.sample rel_clip_ids max_n g;
         '(easy_neg, g) ← Random.sample pool max_n g;
         Ok (easy_pos, easy_neg, g)
       else Ok (hard_pos_clip_indices, hard_neg_clip_indices, g)
     else Ok ([], [], g));
  Ok (hard_pos_clip_indices ++ easy_pos_clip_indices,
      hard_neg_clip_indices ++ easy_neg_clip_indices,
      score_array, g).

Definition get_saliency_labels_sub_as_query (self : CGDETR_StartEndDataset)
    (gt_window : Q * Q) (duration : Q) (ctx_l : Z) (max_n : Z)
    (g : Random.rng)
  : result (list Z * list Z * list Z * Random.rng) :=
  clip_len ← Py.div duration (inject_Z ctx_l);
  st ← Py.div (fst gt_window) clip_len;
  let gt_st := Py.int st in
  ed ← Py.div (snd gt_window) clip_len;
  let gt_ed := Z.max 0 (Z.min (Py.int ed) ctx_l - 1) in
  let gt_st := if gt_ed <? gt_st then gt_ed else gt_st in
  '(pos_clip_indices, g) ←
    (if negb (gt_st =? gt_ed) then
       Random.sample (Py.range gt_st (gt_ed + 1)) max_n g
     else if String.eqb (dset_name self) "nlq" then Ok (replicate 2 gt_st, g)
     else Ok ([gt_st; gt_st], g));
  let neg_pool := Py.range 0 gt_st ++ Py.range (gt_ed + 1) ctx_l in
  '(neg_clip_indices, g) ←
    try_except (Random.sample neg_pool max_n g) (pos_clip_indices, g);
  score_array ← Np.zeros ctx_l;
  let score_array := Np.fill_slice score_array gt_st (gt_ed + 1) 1 in
  Ok (pos_clip_indices, neg_clip_indices, score_array, g).

(** [np.sum(labels - np.ones_like(labels), axis=-1)]: a number when
    [labels] is one-dimensional (here: empty), one sum per row otherwise. *)
Definition sum_minus_ones (labels : list (list Z)) : result (list Z) :=
  match labels with
  | [] => Raise IndexError
  | _ => if Np.rectangular labels
         then Ok (map (fun row => Np.sumZ (map (fun x => x - 1) row)) labels)
         else Raise ValueError
  end.

(** [[min(idx, ctx_l-1) for idx in indices]] *)
Definition clamp_indices (ctx_l : Z) (indices : list nat) : list Z :=
  map (fun idx => Z.min (Z.of_nat idx) (ctx_l - 1)) indices.

(** The easy-negative branch of the tvsum and youtube constructors reads
    [rel_clip_ids], a name that is not bound there. *)
Definition easy_unbound (ctx_l max_n : Z) (hard_pos hard_neg : list Z)
  : result (list Z * list Z) :=
  if max_n <=? Z.of_nat (length (Py.range 0 ctx_l)) then Raise NameError
  else Ok (hard_pos, hard_neg).

Definition get_saliency_labels_all_tvsum (labels : list (list Z)) (ctx_l : Z)
    (max_n : Z) (add_easy_negative : bool)
  : result (list Z * list Z * list Q) :=
  sums ← sum_minus_ones labels;
  let agg_scores := Py.slice_to sums ctx_l in
  let score_array := map (fun a => (inject_Z a / 80 * 12)%Q) agg_scores in
  let sort_indices := Np.argsort agg_scores in
  let hard_pos_clip_indices := clamp_indices ctx_l (Py.slice_from sort_indices (- max_n)) in
  let hard_neg_clip_indices := clamp_indices ctx_l (Py.slice_to sort_indices max_n) in
  '(easy_pos_clip_indices, easy_neg_clip_indices) ←
    (if add_easy_negative
     then easy_unbound ctx_l max_n hard_pos_clip_indices hard_neg_clip_indices
     else Ok ([], []));
  Ok (hard_pos_clip_indices ++ easy_pos_clip_indices,
      hard_neg_clip_indices ++ easy_neg_clip_indices,
      score_array).

(** [np.array(labels)[:, 0]] *)
Definition first_column (labels : list (list Z)) : result (list Z) :=
  match labels with
  | [] => Raise IndexError
  | _ => if Np.rectangular labels
         then mapR (fun row => of_option IndexError (head row)) labels
         else Raise ValueError
  end.

Definition get_saliency_labels_all_youtube (labels : list (list Z)) (ctx_l : Z)
    (max_n : Z) (add_easy_negative : bool)
  : result (list Z * list Z * list Q) :=
  agg_scores ← first_column labels;
  let score_array := map (fun a => (inject_Z a * 1)%Q) agg_scores in
  let sort_indices := Np.argsort agg_scores in
  let hard_pos_clip_indices := clamp_indices ctx_l (Py.slice_from sort_indices (- max_n)) in
  let hard_neg_clip_indices := clamp_indices ctx_l (Py.slice_to sort_indices max_n) in
  '(easy_pos_clip_indices, easy_neg_clip_indices) ←
    (if add_easy_negative
     then easy_unbound ctx_l max_n hard_pos_clip_indices hard_neg_clip_indices
     else Ok ([], []));
  Ok (hard_pos_clip_indices ++ easy_pos_clip_indices,
      hard_neg_clip_indices ++ easy_neg_clip_indices,
      score_array).

(** [get_span_labels] returns the span rows and, next to them, the list
    object it was handed as [random.shuffle] left it: the shuffle is in
    place, the slice that follows makes a new list. *)
Definition get_span_labels (self : CGDETR_StartEndDataset)
    (windows : list (Q * Q)) (ctx_l : Z) (g : Random.rng)
  : result (list (Q * Q) * list (Q * Q) * Random.rng) :=
  let '(passed, windows, g) :=
    if max_windows self <? Z.of_nat (length windows) then
      let '(shuffled, g) := Random.shuffle windows g in
      (shuffled, Py.slice_to shuffled (max_windows self), g)
    else (windows, windows, g) in
  if String.eqb (span_loss_type self) "l1" then
    let video_len := (inject_Z ctx_l * clip_len self)%Q in
    let windows := map (fun w => (fst w / video_len, snd w / video_len)%Q) windows in
    Ok (span_xx_to_cxw windows, passed, g)
  else if String.eqb (span_loss_type self) "ce" then
    windows ← mapR (fun w =>
      a ← Py.div (fst w) (clip_len self);
      b ← Py.div (snd w) (clip_len self);
      Ok (inject_Z (Py.int a), inject_Z (Z.min (Py.int b) ctx_l - 1))) windows;
    Ok (windows, passed, g)
  else Raise NotImplementedError.

(** ** The dataset class *)

(** The arguments of [__init__]. [v_feat_dirs] is one directory or a list. *)
Record init_args : Type := mkArgs {
  a_dset_name : string;
  a_domain : string;
  a_data_path : string;
  a_v_feat_dirs : string + list string;
  a_q_feat_dir : string;
  a_q_feat_type : string;
  a_max_q_l : Z;
  a_max_v_l : Z;
  a_data_ratio : Q;
  a_ctx_mode : string;
  a_normalize_v : bool;
  a_normalize_t : bool;
  a_clip_len : Q;
  a_max_windows : Z;
  a_span_loss_type : string;
  a_load_labels : bool
}.

Definition with_data_ratio (a : init_args) (r : Q) : init_args :=
  mkArgs (a_dset_name a) (a_domain a) (a_data_path a) (a_v_feat_dirs a)
    (a_q_feat_dir a) (a_q_feat_type a) (a_max_q_l a) (a_max_v_l a) r
    (a_ctx_mode a) (a_normalize_v a) (a_normalize_t a) (a_clip_len a)
    (a_max_windows a) (a_span_loss_type a) (a_load_labels a).

Definition Q_FEAT_TYPES : list string := ["pooler_output"; "last_hidden_state"].

Definition load_data (disk : Disk) (data_path : string)
  : result (list Meta.annotation) :=
  load_jsonl disk data_path.

(** The loop of [__init__] that keeps the records of the dataset's domain. *)
Definition filter_domain (dom : string) (l : list Meta.annotation)
  : result (list Meta.annotation) :=
  foldr (fun d acc =>
           new_data ← acc;
           dd ← of_option KeyError (Meta.domain d);
           Ok (if String.eqb dd dom then d :: new_data else new_data))
        (Ok []) l.

Definition is_highlight_set (name : string) : bool :=
  String.eqb name "tvsum" || String.eqb name "youtube_highlight".

(** [__init__]; the set-up of the glove vocabulary is not represented. *)
Definition init (disk : Disk) (a : init_args) : result CGDETR_StartEndDataset :=
  let v_feat_dirs := match a_v_feat_dirs a with inl d => [d] | inr l => l end in
  let max_v_l := if a_max_v_l a =? -1 then 100000000 else a_max_v_l a in
  let max_q_l := if a_max_q_l a =? -1 then 100 else a_max_q_l a in
  if negb (bool_decide (a_q_feat_type a ∈ Q_FEAT_TYPES)) then Raise AssertionError
  else
    data ← load_data disk (a_data_path a);
    data ← (if is_highlight_set (a_dset_name a)
            then filter_domain (a_domain a) data else Ok data);
    Ok (mkDataset (a_dset_name a) (a_data_path a) (a_domain a) (a_data_ratio a)
          v_feat_dirs (a_q_feat_dir a) (a_q_feat_type a) max_q_l max_v_l
          (a_ctx_mode a) (Py.contains "tef" (a_ctx_mode a))
          (Py.contains "video" (a_ctx_mode a))
          (a_normalize_t a) (a_normalize_v a) (a_load_labels a) (a_clip_len a)
          (a_max_windows a) (a_span_loss_type a) data
          (Py.contains "glove" (a_q_feat_dir a))).

(** The relevant windows of the [k]-th stored record. *)
Definition stored_windows (self : CGDETR_StartEndDataset) (k : nat)
  : option (option (list (Q * Q))) :=
  Meta.relevant_windows <$> data self !! k.

(** [__len__] *)
Definition len (self : CGDETR_StartEndDataset) : nat := length (data self).

(** The temporal-endpoint feature: row i is (i / ctx_l, i / ctx_l + 1 / ctx_l). *)
Definition tef (ctx_l : Z) : result (list (Q * Q)) :=
  if ctx_l <? 0 then Raise RuntimeError
  else if ctx_l =? 0 then Raise ZeroDivisionError
  else Ok (map (fun i => (inject_Z i / inject_Z ctx_l,
                          inject_Z i / inject_Z ctx_l + 1 / inject_Z ctx_l)%Q)
               (Py.range 0 ctx_l)).

(** [torch.cat([a, b], dim=1)] on the entries of two matrices. *)
Definition cat_dim1 (a b : ndarray) : result ndarray :=
  match a, b with
  | Arr xs, Arr ys =>
      if Nat.eqb (length xs) (length ys) then
        rows ← mapR (fun p => match p with
                              | (Arr r1, Arr r2) => Ok (Arr (r1 ++ r2))
                              | _ => Raise RuntimeError
                              end) (zip xs ys);
        Ok (Arr rows)
      else Raise RuntimeError
  | _, _ => Raise RuntimeError
  end.

Definition cpu (a : ndarray) : Tensor := mkTensor a Cpu.

(** [model_inputs[k]] read as a tensor. *)
Definition tensor_at (m : gmap string value) (k : string) : result Tensor :=
  v ← of_option KeyError (m !! k);
  match v with VTensor t => Ok t | _ => Raise TypeError end.

(** The three saliency entries of [model_inputs]. *)
Definition set_saliency (m : gmap string value) (pos neg : list Z)
    (all : ndarray) : gmap string value :=
  <["saliency_all_labels" := VArray all]>
    (<["saliency_neg_labels" := VList neg]>
       (<["saliency_pos_labels" := VList pos]> m)).

(** The labels of one example, for the datasets with relevant windows.
    Returns the inputs, the record as the call leaves it, and the tape. *)
Definition window_labels (self : CGDETR_StartEndDataset)
    (meta : Meta.annotation) (model_inputs : gmap string value) (ctx_l : Z)
    (g : Random.rng)
  : result (gmap string value * Meta.annotation * Random.rng) :=
  '(model_inputs, meta, g) ←
    match Meta.relevant_windows meta with
    | Some windows =>
        '(spans, windows, g) ← get_span_labels self windows ctx_l g;
        let meta := Meta.set_relevant_windows meta (Some windows) in
        let model_inputs :=
          <["span_labels" := VTensor (cpu (nd_of_rows spans))]> model_inputs in
        if String.eqb (dset_name self) "qvhighlight" then
          ids ← of_option KeyError (Meta.relevant_clip_ids meta);
          scores ← of_option KeyError (Meta.saliency_scores meta);
          '(pos, neg, all, g) ← get_saliency_labels_all ids scores ctx_l 1 true g;
          Ok (set_saliency model_inputs pos neg (nd_of_Zs all), meta, g)
        else if bool_decide (dset_name self ∈ ["charades"; "tacos"; "activitynet"]) then
          w0 ← Py.getitem windows 0;
          '(pos, neg, all, g) ←
            get_saliency_labels_sub_as_query self w0 (Meta.duration meta) ctx_l 2 g;
          Ok (set_saliency model_inputs pos neg (nd_of_Zs all), meta, g)
        else Raise NotImplementedError
    | None => Ok (model_inputs, meta, g)
    end;
  if String.eqb (dset_name self) "qvhighlight" then
    ids ← of_option KeyError (Meta.relevant_clip_ids meta);
    Ok (<["relevant_clip_ids" := VList ids]> model_inputs, meta, g)
  else Ok (model_inputs, meta, g).

(** The labels of one tvsum example, with the cut of the video feature to
    the length of the saliency labels. *)
Definition tvsum_labels (meta : Meta.annotation)
    (model_inputs : gmap string value) (ctx_l : Z)
  : result (gmap string value) :=
  let model_inputs :=
    <["span_labels" := VTensor (cpu (nd_of_rows [(0, 0)%Q]))]> model_inputs in
  meta_label ← of_option KeyError (Meta.label meta);
  '(pos, neg, all) ← get_saliency_labels_all_tvsum meta_label ctx_l 1 false;
  let model_inputs := set_saliency model_inputs pos neg (nd_of_Qs all) in
  video_feat ← tensor_at model_inputs "video_feat";
  n_feat ← nd_len (t_data video_feat);
  if negb (Nat.eqb (length all) n_feat) then
    cut ← nd_slice_to (t_data video_feat) (Z.of_nat (length all));
    Ok (<["video_feat" := VTensor (mkTensor cut (t_device video_feat))]> model_inputs)
  else Ok model_inputs.

Definition youtube_labels (meta : Meta.annotation)
    (model_inputs : gmap string value) (ctx_l : Z)
  : result (gmap string value) :=
  let model_inputs :=
    <["span_labels" := VTensor (cpu (nd_of_rows [(0, 0)%Q]))]> model_inputs in
  meta_label ← of_option KeyError (Meta.label meta);
  '(pos, neg, all) ← get_saliency_labels_all_youtube meta_label ctx_l 1 false;
  Ok (set_saliency model_inputs pos neg (nd_of_Qs all)).

(** [__getitem__]. [meta] is the record stored in [self.data], not a copy:
    the call returns the example, the dataset as the call leaves it, and
    the tape. The temporal-endpoint feature is made on the cpu, and
    [torch.cat] joins tensors of one device only. *)
Definition getitem (disk : Disk) (self : CGDETR_StartEndDataset) (index : Z)
    (g : Random.rng)
  : result (item * CGDETR_StartEndDataset * Random.rng) :=
  k ← Py.norm_index (length (data self)) index;
  meta ← of_option IndexError (data self !! k);
  query_feat ← (if use_glove self then get_query disk self (Meta.query meta)
                else _get_query_feat_by_qid disk self (Meta.qid meta));
  let model_inputs : gmap string value := {["query_feat" := VTensor query_feat]} in
  '(model_inputs, ctx_l) ←
    (if use_video self then
       video_feat ← _get_video_feat_by_vid disk self (Meta.vid meta);
       n ← nd_len (t_data video_feat);
       Ok (<["video_feat" := VTensor video_feat]> model_inputs, Z.of_nat n)
     else Ok (model_inputs, max_v_l self));
  model_inputs ←
    (if use_tef self then
       rows ← tef ctx_l;
       if use_video self then
         video_feat ← tensor_at model_inputs "video_feat";
         if negb (bool_decide (t_device video_feat = Cpu)) then Raise RuntimeError
         else
           joined ← cat_dim1 (t_data video_feat) (nd_of_rows rows);
           Ok (<["video_feat" := VTensor (cpu joined)]> model_inputs)
       else Ok (<["video_feat" := VTensor (cpu (nd_of_rows rows))]> model_inputs)
     else Ok model_inputs);
  '(model_inputs, meta, g) ←
    (if load_labels self then
       if String.eqb (dset_name self) "tvsum" then
         model_inputs ← tvsum_labels meta model_inputs ctx_l;
         Ok (model_inputs, meta, g)
       else if String.eqb (dset_name self) "youtube_highlight" then
         model_inputs ← youtube_labels meta model_inputs ctx_l;
         Ok (model_inputs, meta, g)
       else window_labels self meta model_inputs ctx_l g
     else Ok (model_inputs, meta, g));
  let model_inputs := <["vid" := VStr (Meta.vid meta)]> model_inputs in
  let model_inputs := <["qid" := VInt (Meta.qid meta)]> model_inputs in
  Ok (mkItem meta model_inputs, set_data self (<[k := meta]> (data self)), g).

(** ** Collation *)

Fixpoint zeros_like (a : ndarray) : ndarray :=
  match a with
  | Num _ => Num 0
  | Arr xs => Arr (map zeros_like xs)
  end.

(** The entries of a sequence, and the padded row and the mask row made of
    them for a batch whose longest sequence has [max_length] entries. *)
Definition entries (a : ndarray) : result (list ndarray) :=
  match a with
  | Arr xs => Ok xs
  | Num _ => Raise TypeError
  end.

Definition pad_row (max_length : nat) (fill : ndarray) (seq : list ndarray)
  : ndarray :=
  Arr (seq ++ replicate (max_length - length seq) fill).

Definition mask_row (max_length : nat) (seq : list ndarray) : ndarray :=
  Arr (replicate (length seq) (Num 1)
       ++ replicate (max_length - length seq) (Num 0)).

(** Modelled from the spec: [pad_sequences_1d] of
    [lighthouse.common.utils.tensor_utils], which is not among the sources.
    The spec has variable-length sequences "padded with a mask" into
    "rectangular batches with masks": every sequence is extended to the
    length of the longest one of the batch, and the mask is 1 on the
    entries that come from the sequence and 0 on the padding. The padding
    entry is a zero of the shape of the entries. *)
Definition pad_sequences_1d (sequences : list ndarray)
  : result (ndarray * ndarray) :=
  seqs ← mapR entries sequences;
  match seqs with
  | [] => Raise ValueError
  | _ =>
      let max_length := max_list (map length seqs) in
      let fill := match concat seqs with
                  | x :: _ => zeros_like x
                  | [] => Num 0
                  end in
      Ok (Arr (map (pad_row max_length fill) seqs),
          Arr (map (mask_row max_length) seqs))
  end.

(** A value of a collated batch. *)
Inductive batched : Type :=
| BSpans (l : list (gmap string value))
| BTensor (t : Tensor)
| BList (l : list value)
| BPair (padded mask : Tensor).

(** A per-example value read as a sequence. *)
Definition as_sequence (v : value) : result ndarray :=
  match v with
  | VTensor t => Ok (t_data t)
  | VArray a => Ok a
  | VList l => Ok (nd_of_Zs l)
  | VStr _ | VInt _ => Raise TypeError
  end.

(** [torch.LongTensor(rows)] for lists of integers. *)
Definition long_tensor (vals : list value) : result Tensor :=
  rows ← mapR (fun v => match v with VList l => Ok l | _ => Raise TypeError end) vals;
  if Np.rectangular rows then Ok (cpu (Arr (map nd_of_Zs rows)))
  else Raise ValueError.

(** [[e["model_inputs"][k] for e in batch]] *)
Definition column (batch : list item) (k : string) : result (list value) :=
  mapR (fun e => of_option KeyError (model_inputs e !! k)) batch.

(** The body of the loop of [cg_detr_start_end_collate] for the key [k]. *)
Definition collate_field (batch : list item) (k : string) : result batched :=
  vals ← column batch k;
  if String.eqb k "span_labels" then
    Ok (BSpans (map (fun v => {["spans" := v]}) vals))
  else if bool_decide (k ∈ ["saliency_pos_labels"; "saliency_neg_labels"]) then
    t ← long_tensor vals; Ok (BTensor t)
  else if String.eqb k "saliency_all_labels" then
    seqs ← mapR as_sequence vals;
    '(pad_data, mask_data) ← pad_sequences_1d seqs;
    Ok (BTensor (cpu pad_data))
  else if String.eqb k "qid" then Ok (BList vals)
  else if String.eqb k "vid" then Ok (BList vals)
  else
    seqs ← mapR as_sequence vals;
    '(pad_data, mask_data) ← pad_sequences_1d seqs;
    Ok (BPair (cpu pad_data) (cpu mask_data)).

Fixpoint collate_keys (batch : list item) (keys : list string)
    (batched_data : gmap string batched) : result (gmap string batched) :=
  match keys with
  | [] => Ok batched_data
  | k :: keys' =>
      v ← collate_field batch k;
      collate_keys batch keys' (<[k := v]> batched_data)
  end.

(** [cg_detr_start_end_collate]. The keys are those of the first example;
    the model visits them in the order of the map. *)
Definition cg_detr_start_end_collate (batch : list item)
  : result (list Meta.annotation * gmap string batched) :=
  let batch_meta := map meta batch in
  first ← of_option IndexError (head batch);
  let model_inputs_keys := (map_to_list (model_inputs first)).*1 in
  batched_data ← collate_keys batch model_inputs_keys ∅;
  Ok (batch_meta, batched_data).

(** ** Batch preparation *)

(** [b[i].to(device)] *)
Definition index_to (b : batched) (i : nat) (d : device) : result Tensor :=
  match b with
  | BPair padded mask =>
      match i with
      | O => Ok (to padded d)
      | S O => Ok (to mask d)
      | _ => Raise IndexError
      end
  | BTensor t =>
      xs ← entries (t_data t);
      x ← of_option IndexError (xs !! i);
      Ok (mkTensor x d)
  | BList l =>
      v ← of_option IndexError (l !! i);
      match v with VTensor t => Ok (to t d) | _ => Raise AttributeError end
  | BSpans l =>
      _ ← of_option IndexError (l !! i);
      Raise AttributeError
  end.

(** [b.to(device)] *)
Definition whole_to (b : batched) (d : device) : result Tensor :=
  match b with
  | BTensor t => Ok (to t d)
  | _ => Raise AttributeError
  end.

(** [[dict(spans=e["spans"].to(device)) for e in b]] *)
Definition spans_to (b : batched) (d : device) : result batched :=
  match b with
  | BSpans l =>
      l' ← mapR (fun e : gmap string value =>
                   v ← of_option KeyError (e !! "spans");
                   match v with
                   | VTensor t => Ok ({["spans" := VTensor (to t d)]} : gmap string value)
                   | _ => Raise AttributeError
                   end) l;
      Ok (BSpans l')
  | _ => Raise TypeError
  end.

Definition prepare_targets (batched_model_inputs : gmap string batched)
    (d : device) : result (gmap string batched) :=
  let targets : gmap string batched := ∅ in
  targets ←
    match batched_model_inputs !! "span_labels" with
    | Some b => l ← spans_to b d; Ok (<["span_labels" := l]> targets)
    | None => Ok targets
    end;
  targets ←
    match batched_model_inputs !! "saliency_pos_labels" with
    | Some b =>
        pos ← whole_to b d;
        nb ← of_option KeyError (batched_model_inputs !! "saliency_neg_labels");
        neg ← whole_to nb d;
        Ok (<["saliency_neg_labels" := BTensor neg]>
              (<["saliency_pos_labels" := BTensor pos]> targets))
    | None => Ok targets
    end;
  match batched_model_inputs !! "saliency_all_labels" with
  | Some b =>
      all ← whole_to b d;
      Ok (<["relevant_clips" := BTensor all]>
            (<["saliency_all_labels" := BTensor all]> targets))
  | None => Ok targets
  end.

Definition cg_detr_prepare_batch_inputs
    (batched_model_inputs : gmap string batched) (d : device)
  : result (gmap string batched * option (gmap string batched)) :=
  query_feat ← of_option KeyError (batched_model_inputs !! "query_feat");
  src_txt ← index_to query_feat 0 d;
  src_txt_mask ← index_to query_feat 1 d;
  video_feat ← of_option KeyError (batched_model_inputs !! "video_feat");
  src_vid ← index_to video_feat 0 d;
  src_vid_mask ← index_to video_feat 1 d;
  vid ← of_option KeyError (batched_model_inputs !! "vid");
  qid ← of_option KeyError (batched_model_inputs !! "qid");
  let model_inputs : gmap string batched :=
    <["qid" := qid]> (<["vid" := vid]> (<["src_vid_mask" := BTensor src_vid_mask]>
      (<["src_vid" := BTensor src_vid]> (<["src_txt_mask" := BTensor src_txt_mask]>
        {["src_txt" := BTensor src_txt]})))) in
  targets ← prepare_targets batched_model_inputs d;
  let targets := if Nat.eqb (size targets) 0 then None else Some targets in
  Ok (model_inputs, targets).

(** ** Specification predicates *)

(** A row [r] is the (center, width) form of the window [w] normalized by
    the video length [ctx_l * clip_len]. *)
Definition normalized_span (self : CGDETR_StartEndDataset) (ctx_l : Z)
    (w r : Q * Q) : Prop :=
  (fst r == (fst w + snd w) / (2 * inject_Z ctx_l * clip_len self))%Q /\
  (snd r == (snd w - fst w) / (inject_Z ctx_l * clip_len self))%Q.




(** The sequences of the field [k], one per example of the batch. *)
Definition sequences_of (batch : list item) (k : string)
  : result (list (list ndarray)) :=
  vals ← column batch k;
  seqs ← mapR as_sequence vals;
  mapR entries seqs.

(** [padded] has one row per sequence, each row the sequence followed by
    padding up to the length of the longest sequence. *)
Definition padded_to_longest (seqs : list (list ndarray)) (padded : ndarray)
  : Prop :=
  exists rows,
    padded = Arr rows /\
    Forall2 (fun seq row =>
               exists fill, row = Arr (seq ++ fill) /\
                            length (seq ++ fill) = max_list (length <$> seqs))
            seqs rows.

(** [mask] has one row per sequence, 1 on the positions of the sequence
    and 0 on the padding. *)
Definition marks_valid (seqs : list (list ndarray)) (mask : ndarray) : Prop :=
  exists rows,
    mask = Arr rows /\
    Forall2 (fun seq row =>
               row = Arr (replicate (length seq) (Num 1) ++
                          replicate (max_list (length <$> seqs) - length seq)
                                    (Num 0)))
            seqs rows.

(** ** Concrete inputs *)

Module Examples.

(** A feature matrix with [n] rows of three entries. *)
Definition feat (n : nat) : Tensor :=
  cpu (Arr (replicate n (Arr [Num 1; Num 2; Num 3]))).

(** Feature files: two query tokens and four video clips per example. *)
Definition disk : Disk :=
  {| load_jsonl := fun _ => Ok [];
     _get_query_feat_by_qid := fun _ _ => Ok (feat 2);
     _get_video_feat_by_vid := fun _ _ => Ok (feat 4);
     get_query := fun _ _ => Ok (feat 1) |}.

(** A qvhighlight record with three relevant windows. *)
Definition record3 : Meta.annotation :=
  Meta.mk 7 "a query" 8 "vid0" (Some [1; 2])
    (Some [(2, 6); (0, 1); (4, 8)]%Q) (Some [[1; 2; 3]; [0; 1; 0]]) None None.

Definition dataset (name : string) (max_windows : Z)
    (records : list Meta.annotation) : CGDETR_StartEndDataset :=
  mkDataset name "annotations.jsonl" "" 1 ["features"] "queries"
    "last_hidden_state" 32 75 "video_tef" true true true true true 2
    max_windows "l1" records false.

(** The record above in a dataset that keeps at most two windows. *)
Definition qv2 : CGDETR_StartEndDataset := dataset "qvhighlight" 2 [record3].

(** A labelled example with [nq] query tokens and [nv] clips. *)
Definition example (nq nv : nat) (spans : list (Q * Q)) (scores : list Z)
  : item :=
  mkItem record3
    (<["qid" := VInt 7]> (<["vid" := VStr "vid0"]>
      (set_saliency
         (<["span_labels" := VTensor (cpu (nd_of_rows spans))]>
            (<["video_feat" := VTensor (feat nv)]>
               {["query_feat" := VTensor (feat nq)]}))
         [1; 1] [0; 0] (nd_of_Zs scores)))).

(** A batch of two examples of different lengths. *)
Definition batch2 : list item :=
  [example 2 3 [(1 # 4, 1 # 2)]%Q [0; 6; 1];
   example 1 2 [(1 # 2, 1 # 4); (3 # 4, 1 # 8)]%Q [4; 0]].

End Examples.

Module TvsumExample.

(** A tvsum record with the annotator scores of three clips, in a video of
    four clips. *)
Definition record : Meta.annotation :=
  Meta.mk 7 "a query" 8 "vid0" None None None
    (Some [[1; 2]; [3; 4]; [5; 5]]) (Some "VT").

Definition tvsum : CGDETR_StartEndDataset := Examples.dataset "tvsum" 5 [record].

End TvsumExample.

(** * Further definitions *)

(** [get_saliency_labels]: the positive and negative clip indices, without
    the score array. *)
Definition get_saliency_labels (rel_clip_ids : list Z)
    (scores : list (list Z)) (ctx_l : Z) (max_n : Z)
    (add_easy_negative : bool) (g : Random.rng)
  : result (list Z * list Z * Random.rng) :=
  agg_scores ← Np.sum_axis1 scores;
  let sort_indices := Np.argsort agg_scores in
  hard_pos_clip_indices ←
    clip_indices rel_clip_ids ctx_l (Py.slice_from sort_indices (- max_n));
  hard_neg_clip_indices ←
    clip_indices rel_clip_ids ctx_l (Py.slice_to sort_indices max_n);
  '(easy_pos_clip_indices, easy_neg_clip_indices, g) ←
    (if add_easy_negative then
       let pool := easy_neg_pool rel_clip_ids ctx_l in
       if max_n <=? Z.of_nat (length pool) then
         '(easy_pos, g) ← Random.sample rel_clip_ids max_n g;
         '(easy_neg, g) ← Random.sample pool max_n g;
         Ok (easy_pos, easy_neg, g)
       else Ok (hard_pos_clip_indices, hard_neg_clip_indices, g)
     else Ok ([], [], g));
  Ok (hard_pos_clip_indices ++ easy_pos_clip_indices,
      hard_neg_clip_indices ++ easy_neg_clip_indices, g).

(** The summed annotator scores of the [i]-th relevant clip. *)
Definition agg_score (scores : list (list Z)) (i : nat) : Z :=
  Np.sumZ (default [] (scores !! i)).

(** The summed tvsum score of a clip: the annotator scores start from 1,
    so 1 is taken off each. *)
Definition tvsum_agg (row : list Z) : Z :=
  Np.sumZ row - Z.of_nat (length row).

Module InitExample.

(** An annotation file with the records of two tvsum domains. *)
Definition record (qid : Z) (dom : string) : Meta.annotation :=
  Meta.mk qid "a query" 8 "vid0" None None None
    (Some [[1; 2]; [3; 4]]) (Some dom).

Definition disk : Disk :=
  {| load_jsonl := fun _ => Ok [record 1 "VT"; record 2 "BK"; record 3 "VT"];
     _get_query_feat_by_qid := fun _ _ => Ok (Examples.feat 2);
     _get_video_feat_by_vid := fun _ _ => Ok (Examples.feat 4);
     get_query := fun _ _ => Ok (Examples.feat 1) |}.

Definition args : init_args :=
  mkArgs "tvsum" "VT" "tvsum.jsonl" (inl "features") "queries"
    "last_hidden_state" 32 75 (1 # 2) "video_tef" true true 2 5 "l1" true.

End InitExample.

(** The stages of [__getitem__], named so that they can be reasoned about
    one at a time; [getitem] is their composition. *)
Definition query_stage (disk : Disk) (self : CGDETR_StartEndDataset)
    (meta : Meta.annotation) : result Tensor :=
  if use_glove self then get_query disk self (Meta.query meta)
  else _get_query_feat_by_qid disk self (Meta.qid meta).

Definition video_stage (disk : Disk) (self : CGDETR_StartEndDataset)
    (meta : Meta.annotation) (model_inputs : gmap string value)
  : result (gmap string value * Z) :=
  if use_video self then
    video_feat ← _get_video_feat_by_vid disk self (Meta.vid meta);
    n ← nd_len (t_data video_feat);
    Ok (<["video_feat" := VTensor video_feat]> model_inputs, Z.of_nat n)
  else Ok (model_inputs, max_v_l self).

Definition tef_stage (self : CGDETR_StartEndDataset) (ctx_l : Z)
    (model_inputs : gmap string value) : result (gmap string value) :=
  if use_tef self then
    rows ← tef ctx_l;
    if use_video self then
      video_feat ← tensor_at model_inputs "video_feat";
      if negb (bool_decide (t_device video_feat = Cpu)) then Raise RuntimeError
      else
        joined ← cat_dim1 (t_data video_feat) (nd_of_rows rows);
        Ok (<["video_feat" := VTensor (cpu joined)]> model_inputs)
    else Ok (<["video_feat" := VTensor (cpu (nd_of_rows rows))]> model_inputs)
  else Ok model_inputs.

Definition label_stage (self : CGDETR_StartEndDataset)
    (meta : Meta.annotation) (model_inputs : gmap string value) (ctx_l : Z)
    (g : Random.rng)
  : result (gmap string value * Meta.annotation * Random.rng) :=
  if load_labels self then
    if String.eqb (dset_name self) "tvsum" then
      model_inputs ← tvsum_labels meta model_inputs ctx_l;
      Ok (model_inputs, meta, g)
    else if String.eqb (dset_name self) "youtube_highlight" then
      model_inputs ← youtube_labels meta model_inputs ctx_l;
      Ok (model_inputs, meta, g)
    else window_labels self meta model_inputs ctx_l g
  else Ok (model_inputs, meta, g).

(** The record [m'] is the record [m] with, at most, its relevant windows
    in another order. *)
Definition reordered (m m' : Meta.annotation) : Prop :=
  match Meta.relevant_windows m with
  | None => m' = m
  | Some ws =>
      exists ws', ws' ≡ₚ ws /\ m' = Meta.set_relevant_windows m (Some ws')
  end.

(** The keys of [model_inputs] that hold labels. *)
Definition label_keys : list string :=
  ["span_labels"; "saliency_pos_labels"; "saliency_neg_labels";
   "saliency_all_labels"; "relevant_clip_ids"].

(** [e'] is the span object [e] with its tensor moved to the device [d]. *)
Definition spans_moved (d : device) (e e' : gmap string value) : Prop :=
  exists t, e !! "spans" = Some (VTensor t) /\
            e' = {["spans" := VTensor (to t d)]}.

(** ** The feature loaders *)

Module Loader.

(** What [np.load] gives: the array of an .npy file or the named arrays of
    an .npz file. *)
Inductive npfile : Type :=
| Npy (a : ndarray)
| Npz (m : gmap string ndarray).

(** What the loaders take from outside: the files that [np.load] opens,
    and [l2_normalize_np_array] of [lighthouse.common.utils.basic_utils],
    which is not among the sources and is left open here.  Entries are
    exact numbers, so [astype(np.float32)] leaves an array as it is. *)
Record Files : Type := {
  np_load : string -> result npfile;
  l2_normalize_np_array : ndarray -> result ndarray
}.

(** [a.endswith("/")] *)
Definition ends_with_slash (a : string) : bool :=
  String.eqb (String.substring (String.length a - 1) 1 a) "/".

(** [os.path.join(a, b)] on POSIX paths. *)
Definition join (a b : string) : string :=
  if String.prefix "/" b then b
  else if String.eqb a "" || ends_with_slash a then a +:+ b
  else a +:+ "/" +:+ b.

(** [f[key]] for a loaded file. *)
Definition entry (f : npfile) (key : string) : result ndarray :=
  match f with
  | Npz m => of_option KeyError (m !! key)
  | Npy _ => Raise IndexError
  end.

(** [f[:n]] for a loaded file. *)
Definition rows_to (f : npfile) (n : Z) : result ndarray :=
  match f with
  | Npy a => nd_slice_to a n
  | Npz _ => Raise KeyError
  end.

Definition is_num (a : ndarray) : bool :=
  match a with Num _ => true | Arr _ => false end.

(** [np.concatenate([a, b], axis=-1)]: two vectors are appended; arrays of
    more dimensions need as many rows as each other and are joined row by
    row. *)
Fixpoint concat_last (a b : ndarray) {struct a} : result ndarray :=
  match a, b with
  | Arr xs, Arr ys =>
      if forallb is_num xs && forallb is_num ys then Ok (Arr (xs ++ ys))
      else
        rows ← (fix go (xs ys : list ndarray) {struct xs}
                  : result (list ndarray) :=
                  match xs, ys with
                  | [], [] => Ok []
                  | x :: xs', y :: ys' =>
                      r ← concat_last x y; rs ← go xs' ys'; Ok (r :: rs)
                  | _, _ => Raise ValueError
                  end) xs ys;
        Ok (Arr rows)
  | _, _ => Raise ValueError
  end.

(** [np.concatenate([a, b], axis=1)] on two matrices: the rows of [a] and
    [b], as many in the one as in the other, joined pairwise; an array of
    numbers has no axis 1. *)
Definition concat_rows (a b : ndarray) : result ndarray :=
  match a, b with
  | Arr xs, Arr ys =>
      if Nat.eqb (length xs) (length ys) then
        rows ← mapR (fun p => match p with
                              | (Arr r1, Arr r2) => Ok (Arr (r1 ++ r2))
                              | _ => Raise AxisError
                              end) (zip xs ys);
        Ok (Arr rows)
      else Raise ValueError
  | _, _ => Raise AxisError
  end.

(** [np.concatenate(l, axis=1)] on a list of matrices, (Lv, D) each as the
    source has them; a nested list without rows stands for a matrix
    without rows. *)
Fixpoint concat_axis1 (l : list ndarray) : result ndarray :=
  match l with
  | [] => Raise ValueError
  | [a] =>
      match a with
      | Arr xs => if forallb (fun x => negb (is_num x)) xs then Ok a
                  else Raise AxisError
      | Num _ => Raise AxisError
      end
  | a :: rest => r ← concat_axis1 rest; concat_rows a r
  end.

(** The body of the loop of [_get_video_feat_by_vid] for one directory. *)
Definition load_dir_feat (files : Files) (self : CGDETR_StartEndDataset)
    (vid : string) (_feat_dir : string) : result ndarray :=
  let attempt :=
    if String.eqb (dset_name self) "tvsum" && Py.contains "i3d" _feat_dir then
      let rgb_path := join _feat_dir (vid +:+ "_rgb.npy") in
      let opt_path := join _feat_dir (vid +:+ "_opt.npy") in
      rgb_file ← np_load files rgb_path;
      rgb_feat ← rows_to rgb_file (max_v_l self);
      opt_file ← np_load files opt_path;
      opt_feat ← rows_to opt_file (max_v_l self);
      concat_last rgb_feat opt_feat
    else
      let _feat_path := join _feat_dir (vid +:+ ".npz") in
      f ← np_load files _feat_path;
      features ← entry f "features";
      nd_slice_to features (max_v_l self) in
  _feat ← match attempt with
          | Ok a => Ok a
          | Raise _ =>
              let _feat_path := join _feat_dir (vid +:+ ".npy") in
              f ← np_load files _feat_path;
              rows_to f (max_v_l self)
          end;
  if normalize_v self then l2_normalize_np_array files _feat else Ok _feat.

(** [min(lens)] *)
Definition min_len (lens : list nat) : result nat :=
  match lens with
  | [] => Raise ValueError
  | n :: rest => Ok (foldr Nat.min n rest)
  end.

Definition _get_video_feat_by_vid (files : Files)
    (self : CGDETR_StartEndDataset) (vid : string) : result Tensor :=
  v_feat_list ← mapR (load_dir_feat files self vid) (v_feat_dirs self);
  lens ← mapR nd_len v_feat_list;
  n ← min_len lens;
  v_feat_list ← mapR (fun e => nd_slice_to e (Z.of_nat n)) v_feat_list;
  v_feat ← concat_axis1 v_feat_list;
  Ok (cpu v_feat).

(** The path of the query feature file of [qid]. *)
Definition q_feat_path (self : CGDETR_StartEndDataset) (qid : Z) : string :=
  if is_highlight_set (dset_name self) || String.eqb (dset_name self) "tacos"
  then join (q_feat_dir self) (pretty qid +:+ ".npz")
  else join (q_feat_dir self) ("qid" +:+ pretty qid +:+ ".npz").

Definition _get_query_feat_by_qid (files : Files)
    (self : CGDETR_StartEndDataset) (qid : Z) : result Tensor :=
  q_file ← np_load files (q_feat_path self qid);
  if is_highlight_set (dset_name self) then
    q_feat ← entry q_file (if String.eqb (dset_name self) "tvsum"
                           then "token" else "last_hidden_state");
    Ok (cpu q_feat)
  else
    q_feat ← entry q_file (q_feat_type self);
    q_feat ← (if String.eqb (q_feat_type self) "last_hidden_state"
              then nd_slice_to q_feat (max_q_l self) else Ok q_feat);
    q_feat ← (if normalize_t self
              then l2_normalize_np_array files q_feat else Ok q_feat);
    Ok (cpu q_feat).

(** The loaders as the part of a [Disk] that reads feature files. *)
Definition disk (files : Files)
    (load_jsonl : string -> result (list Meta.annotation))
    (get_query : CGDETR_StartEndDataset -> string -> result Tensor) : Disk :=
  Build_Disk load_jsonl (_get_query_feat_by_qid files)
    (_get_video_feat_by_vid files) get_query.

End Loader.

Module LoaderExample.

(** A matrix of [n] rows that hold [w] times the entry [q]. *)
Definition matrix (n w : nat) (q : Q) : ndarray :=
  Arr (replicate n (Arr (replicate w (Num q)))).

(** The square root of a fraction, exact where numerator times denominator
    is a square and rounded down elsewhere. *)
Definition sqrtQ (q : Q) : Q :=
  (Z.sqrt (Qnum q * Z.pos (Qden q)) # Qden q)%Q.

Definition norm (row : list ndarray) : Q :=
  sqrtQ (foldr (fun x acc => match x with
                             | Num q => (q * q + acc)%Q
                             | Arr _ => acc
                             end) 0%Q row).

Definition scale (n : Q) (x : ndarray) : ndarray :=
  match x with Num q => Num (q / n)%Q | Arr _ => x end.

(** A normaliser for the example: every row of numbers is divided by its
    norm. *)
Fixpoint normalize (a : ndarray) : ndarray :=
  match a with
  | Num q => Num q
  | Arr xs =>
      if forallb Loader.is_num xs then Arr (map (scale (norm xs)) xs)
      else Arr (map normalize xs)
  end.

(** The feature files of the video vid0 and of the query 7: five clips in
    the archive of one directory, four in the plain array of another, whose
    archive lacks the array of the name features.  Every other path holds
    no array. *)
Definition files : Loader.Files :=
  {| Loader.np_load := fun path =>
       if String.eqb path "slowfast/vid0.npz"
       then Ok (Loader.Npz {["features" := matrix 5 4 1]})
       else if String.eqb path "clip/vid0.npz"
       then Ok (Loader.Npz {["pooled" := matrix 1 4 2]})
       else if String.eqb path "clip/vid0.npy"
       then Ok (Loader.Npy (matrix 4 4 2))
       else if String.eqb path "queries/qid7.npz"
       then Ok (Loader.Npz {["last_hidden_state" := matrix 3 4 1]})
       else Raise ValueError;
     Loader.l2_normalize_np_array := fun a =>
       match a with
       | Num _ => Raise AxisError
       | Arr _ => Ok (normalize a)
       end |}.

Definition disk : Disk :=
  Loader.disk files (fun _ => Ok []) (fun _ _ => Raise NotImplementedError).

(** A qvhighlight dataset of one record that reads both directories,
    normalised, and keeps at most three clips and two query tokens. *)
Definition dataset : CGDETR_StartEndDataset :=
  mkDataset "qvhighlight" "annotations.jsonl" "" 1 ["slowfast"; "clip"]
    "queries" "last_hidden_state" 2 3 "video_tef" true true true true true
    2 2 "l1" [Examples.record3] false.

End LoaderExample.

(** What the feature files of a directory offer to the video loader: the
    rows of the array [features] of an archive, the rows of a plain
    array. *)
Definition npz_features (files : Loader.Files) (path : string)
  : option (list ndarray) :=
  match Loader.np_load files path with
  | Ok (Loader.Npz m) =>
      match m !! "features" with Some (Arr xs) => Some xs | _ => None end
  | _ => None
  end.

Definition npy_rows (files : Loader.Files) (path : string)
  : option (list ndarray) :=
  match Loader.np_load files path with
  | Ok (Loader.Npy (Arr xs)) => Some xs
  | _ => None
  end.

(** [a.shape], read off the first row at each depth. *)
Fixpoint shape (a : ndarray) : list nat :=
  match a with
  | Num _ => []
  | Arr xs => length xs :: match xs with [] => [] | x :: _ => shape x end
  end.

(** The normaliser gives an array of the shape of the one it takes. *)
Definition keeps_shape (files : Loader.Files) : Prop :=
  forall a b, Loader.l2_normalize_np_array files a = Ok b -> shape b = shape a.

(** The entry [k] of [model_inputs], where there is one, is a tensor of at
    most [n] rows. *)
Definition at_most_rows (model_inputs : gmap string value) (k : string)
    (n : nat) : Prop :=
  forall v, model_inputs !! k = Some v ->
    exists t r, v = VTensor t /\ nd_len (t_data t) = Ok r /\ (r <= n)%nat.

(** * Properties *)

(** ** The result monad *)

Lemma bind_Ok {A B} (m : result A) (f : A -> result B) (b : B) :
  m ≫= f = Ok b <-> exists a, m = Ok a /\ f a = Ok b.
Proof.
  destruct m as [a|e]; simpl; split.
  - intros H. exists a. auto.
  - intros (a' & Ha & Hf). injection Ha as <-. exact Hf.
  - discriminate.
  - intros (a' & Ha & _). discriminate.
Qed.

(** C1. With span_loss_type "l1" and at most max_windows windows,
    get_span_labels returns one row per window, in order, and the row of
    [st, ed] is (center, width) with center = (st + ed) / (2 * ctx_l *
    clip_len) and width = (ed - st) / (ctx_l * clip_len); the list it was
    handed and the random tape are left as they were. The video length
    ctx_l * clip_len is taken to be non-zero. *)
Theorem get_span_labels_l1 (self : CGDETR_StartEndDataset)
    (windows : list (Q * Q)) (ctx_l : Z) (g : Random.rng) :
  span_loss_type self = "l1" ->
  Z.of_nat (length windows) <= max_windows self ->
  ~ (inject_Z ctx_l * clip_len self == 0)%Q ->
  exists rows,
    get_span_labels self windows ctx_l g = Ok (rows, windows, g) /\
    Forall2 (normalized_span self ctx_l) windows rows.
Proof.
  intros Hl1 Hlen Hnz.
  assert (Hc : ~ (clip_len self == 0)%Q)
    by (intros E; apply Hnz; rewrite E; ring).
  assert (Hx : ~ (inject_Z ctx_l == 0)%Q)
    by (intros E; apply Hnz; rewrite E; ring).
  unfold get_span_labels.
  replace (max_windows self <? Z.of_nat (length windows)) with false
    by (symmetry; apply Z.ltb_ge; exact Hlen).
  rewrite Hl1. simpl. eexists. split; [reflexivity|].
  unfold span_xx_to_cxw. rewrite map_map.
  induction windows as [|[st ed] ws IH]; simpl.
  - constructor.
  - constructor.
    + unfold normalized_span; simpl. split; field; auto.
    + apply IH. simpl in Hlen. lia.
Qed.

Lemma get_span_labels_l1_witness :
  exists rows,
    get_span_labels (Examples.dataset "qvhighlight" 5 []) [(26, 36)%Q] 75 []
      = Ok (rows, [(26, 36)%Q], []) /\
    Forall2 (normalized_span (Examples.dataset "qvhighlight" 5 []) 75)
            [(26, 36)%Q] rows.
Proof.
  apply (get_span_labels_l1 (Examples.dataset "qvhighlight" 5 [])
           [(26, 36)%Q] 75 []).
  - reflexivity.
  - simpl. lia.
  - intros E. vm_compute in E. discriminate E.
Defined.

(** ** The constructor *)

(** C8. Two constructions that differ only in data_ratio load the same
    records: the data, its length, and what load_data returns do not
    depend on data_ratio. *)
Theorem init_ignores_data_ratio (disk : Disk) (a : init_args) (r : Q) :
  data <$> init disk (with_data_ratio a r) = data <$> init disk a /\
  len <$> init disk (with_data_ratio a r) = len <$> init disk a /\
  load_data disk (a_data_path (with_data_ratio a r)) =
    load_jsonl disk (a_data_path a).
Proof.
  unfold init, with_data_ratio, load_data. simpl.
  destruct (negb (bool_decide (a_q_feat_type a ∈ Q_FEAT_TYPES))); [done|].
  destruct (load_jsonl disk (a_data_path a)) as [records|e]; [|done].
  simpl.
  destruct (if is_highlight_set (a_dset_name a)
            then filter_domain (a_domain a) records else Ok records); done.
Qed.

(** ** The score array of get_saliency_labels_all *)

(** C9. With ctx_l = 2 and the single clip id 3 the array is grown to
    length 3 and the assignment at position 3 raises IndexError; with the
    clip ids [2; 2] the second growth copies an array of length 3 into two
    positions and raises ValueError. *)
Theorem score_array_loop_raises :
  score_array_loop 2 [3] [3] 0 [0; 0] = Raise IndexError /\
  (forall g, get_saliency_labels_all [3] [[1; 1; 1]] 2 1 true g
             = Raise IndexError) /\
  (forall g, get_saliency_labels_all [2; 2] [[1; 1; 1]; [1; 1; 1]] 2 1 true g
             = Raise ValueError).
Proof. repeat split; intros; reflexivity. Qed.

(** ** The stored records *)

(** C3. On a dataset that keeps at most two windows, reading the example
    whose record has three relevant windows returns, and leaves the stored
    record (and the meta of the returned item, which is the same object)
    with its windows in another order than before the call. *)
Theorem getitem_reorders_stored_windows :
  stored_windows Examples.qv2 0 = Some (Some [(2, 6); (0, 1); (4, 8)]%Q) /\
  (fun r => (stored_windows r.1.2 0, Meta.relevant_windows (meta r.1.1)))
    <$> getitem Examples.disk Examples.qv2 0 []
  = Ok (Some (Some [(0, 1); (4, 8); (2, 6)]%Q),
        Some [(0, 1); (4, 8); (2, 6)]%Q).
Proof. split; vm_compute; reflexivity. Qed.

(** ** Records within the window limit *)

Lemma get_span_labels_passed (self : CGDETR_StartEndDataset)
    (windows spans passed : list (Q * Q)) (ctx_l : Z) (g g' : Random.rng) :
  Z.of_nat (length windows) <= max_windows self ->
  get_span_labels self windows ctx_l g = Ok (spans, passed, g') ->
  passed = windows.
Proof.
  intros Hlen. unfold get_span_labels.
  replace (max_windows self <? Z.of_nat (length windows)) with false
    by (symmetry; apply Z.ltb_ge; exact Hlen).
  destruct (String.eqb (span_loss_type self) "l1").
  - intros H. by injection H as _ <- _.
  - destruct (String.eqb (span_loss_type self) "ce"); [|discriminate].
    intros H. apply bind_Ok in H as (rows & _ & H). by injection H as _ <- _.
Qed.

Lemma window_labels_meta (self : CGDETR_StartEndDataset)
    (meta0 meta1 : Meta.annotation) (mi mi' : gmap string value) (ctx_l : Z)
    (g g' : Random.rng) :
  (forall ws, Meta.relevant_windows meta0 = Some ws ->
              Z.of_nat (length ws) <= max_windows self) ->
  window_labels self meta0 mi ctx_l g = Ok (mi', meta1, g') ->
  meta1 = meta0.
Proof.
  intros Hlen H. unfold window_labels in H.
  apply bind_Ok in H as ([[mi1 m1] g1] & H1 & H).
  assert (Hm : m1 = meta0).
  { destruct (Meta.relevant_windows meta0) as [ws|] eqn:Hws.
    - apply bind_Ok in H1 as ([[spans passed] g2] & Hspans & H1).
      apply get_span_labels_passed in Hspans; [|by apply Hlen]. subst passed.
      assert (Hset : Meta.set_relevant_windows meta0 (Some ws) = meta0).
      { destruct meta0. simpl in Hws. by rewrite Hws. }
      rewrite Hset in H1.
      destruct (String.eqb (dset_name self) "qvhighlight").
      + apply bind_Ok in H1 as (? & _ & H1). apply bind_Ok in H1 as (? & _ & H1).
        apply bind_Ok in H1 as ([[[? ?] ?] ?] & _ & H1). by injection H1 as _ <- _.
      + destruct (bool_decide _); [|discriminate].
        apply bind_Ok in H1 as (? & _ & H1).
        apply bind_Ok in H1 as ([[[? ?] ?] ?] & _ & H1). by injection H1 as _ <- _.
    - by injection H1 as _ <- _. }
  subst m1. destruct (String.eqb (dset_name self) "qvhighlight").
  - apply bind_Ok in H as (? & _ & H). by injection H as _ <- _.
  - by injection H as _ <- _.
Qed.

(** When no stored record has more than max_windows relevant windows,
    __getitem__ leaves the stored records as they were. *)
Lemma getitem_keeps_data (disk : Disk) (self self' : CGDETR_StartEndDataset)
    (index : Z) (g g' : Random.rng) (it : item) :
  (forall m ws, m ∈ data self -> Meta.relevant_windows m = Some ws ->
                Z.of_nat (length ws) <= max_windows self) ->
  getitem disk self index g = Ok (it, self', g') ->
  data self' = data self /\ meta it ∈ data self.
Proof.
  intros Hlen H. unfold getitem in H.
  apply bind_Ok in H as (k & _ & H).
  apply bind_Ok in H as (meta0 & Hk & H).
  assert (Hk' : data self !! k = Some meta0)
    by (destruct (data self !! k); simplify_eq/=; done).
  apply bind_Ok in H as (query_feat & _ & H).
  apply bind_Ok in H as ([mi1 ctx_l] & _ & H).
  apply bind_Ok in H as (mi2 & _ & H).
  apply bind_Ok in H as ([[mi3 meta1] g1] & H3 & H).
  assert (Hm : meta1 = meta0).
  { destruct (load_labels self); [|by injection H3 as _ <- _].
    destruct (String.eqb (dset_name self) "tvsum").
    { apply bind_Ok in H3 as (? & _ & H3). by injection H3 as _ <- _. }
    destruct (String.eqb (dset_name self) "youtube_highlight").
    { apply bind_Ok in H3 as (? & _ & H3). by injection H3 as _ <- _. }
    eapply window_labels_meta; [|exact H3].
    intros ws. apply Hlen. eapply list_elem_of_lookup_2, Hk'. }
  subst meta1. injection H as <- <- _. simpl. split.
  - by apply list_insert_id.
  - eapply list_elem_of_lookup_2, Hk'.
Qed.

(** ** Sequences, slices and sampling *)

Lemma bind_eq_Ok {A B} (m : result A) (f : A -> result B) (a : A) :
  m = Ok a -> m ≫= f = f a.
Proof. intros ->. reflexivity. Qed.

Lemma mapR_length {A B} (f : A -> result B) (l : list A) (r : list B) :
  mapR f l = Ok r -> length r = length l.
Proof.
  revert r. induction l as [|x l IH]; intros r H; simpl in H.
  - injection H as <-. reflexivity.
  - apply bind_Ok in H as (y & _ & H). apply bind_Ok in H as (ys & Hys & H).
    injection H as <-. simpl. f_equal. apply IH, Hys.
Qed.


Lemma mapR_Forall2 {A B} (f : A -> result B) (l : list A) (r : list B) :
  mapR f l = Ok r -> Forall2 (fun x y => f x = Ok y) l r.
Proof.
  revert r. induction l as [|x l IH]; intros r H; simpl in H.
  - injection H as <-. constructor.
  - apply bind_Ok in H as (y & Hy & H). apply bind_Ok in H as (ys & Hys & H).
    injection H as <-. constructor; auto.
Qed.

Lemma norm_index_in_range (n : nat) (i : Z) :
  0 <= i < Z.of_nat n -> Py.norm_index n i = Ok (Z.to_nat i).
Proof.
  intros H. unfold Py.norm_index.
  replace (i <? - Z.of_nat n) with false by (symmetry; apply Z.ltb_ge; lia).
  replace (Z.of_nat n <=? i) with false by (symmetry; apply Z.leb_gt; lia).
  replace (i <? 0) with false by (symmetry; apply Z.ltb_ge; lia).
  reflexivity.
Qed.

Lemma setitem_in_range {A} (a : list A) (i : Z) (v : A) :
  0 <= i < Z.of_nat (length a) ->
  Np.setitem a i v = Ok (<[Z.to_nat i := v]> a).
Proof.
  intros H. unfold Np.setitem. rewrite norm_index_in_range by exact H.
  reflexivity.
Qed.

Lemma insert_index_perm (key : nat -> Z) (i : nat) (l : list nat) :
  Np.insert_index key i l ≡ₚ i :: l.
Proof.
  induction l as [|j l IH]; simpl; [done|].
  destruct (key i <=? key j); [done|].
  rewrite IH. apply Permutation_swap.
Qed.

Lemma argsort_perm (a : list Z) : Np.argsort a ≡ₚ seq 0 (length a).
Proof.
  unfold Np.argsort. generalize (seq 0 (length a)) as l.
  induction l as [|i l IH]; simpl; [done|].
  rewrite insert_index_perm. by constructor.
Qed.

Lemma argsort_length (a : list Z) : length (Np.argsort a) = length a.
Proof. rewrite argsort_perm. apply length_seq. Qed.

Lemma argsort_bound (a : list Z) (i : nat) :
  i ∈ Np.argsort a -> (i < length a)%nat.
Proof.
  rewrite argsort_perm. intros H. apply elem_of_seq in H. lia.
Qed.





Lemma sample_pool_subseteq {A} (k : nat) (pool : list A) (g : Random.rng) :
  (Random.sample_pool k pool g).1 ⊆ pool.
Proof.
  revert pool g. induction k as [|k IH]; intros pool g; simpl.
  - apply list_subseteq_nil.
  - destruct (Random.randbelow (length pool) g) as [j g1].
    destruct (pool !! j) as [x|] eqn:Hx; simpl; [|apply list_subseteq_nil].
    destruct (last pool) as [y|] eqn:Hy; simpl; [|apply list_subseteq_nil].
    specialize (IH (take (pred (length pool)) (<[j := y]> pool)) g1).
    destruct (Random.sample_pool k _ g1) as [rest g2]. simpl in *.
    intros z Hz. apply elem_of_cons in Hz as [->|Hz].
    + eapply list_elem_of_lookup_2, Hx.
    + apply IH, list_elem_of_lookup in Hz as [i Hi].
      apply lookup_take_Some in Hi as [Hi _].
      apply list_lookup_insert_Some in Hi as [(_ & <- & _)|[_ Hi]].
      * rewrite last_lookup in Hy. eapply list_elem_of_lookup_2, Hy.
      * eapply list_elem_of_lookup_2, Hi.
Qed.

Lemma sample_total {A} (population : list A) (k : Z) (g : Random.rng) :
  0 <= k <= Z.of_nat (length population) ->
  exists s g', Random.sample population k g = Ok (s, g') /\ s ⊆ population.
Proof.
  intros H. unfold Random.sample.
  replace (k <? 0) with false by (symmetry; apply Z.ltb_ge; lia).
  replace (Z.of_nat (length population) <? k) with false
    by (symmetry; apply Z.ltb_ge; lia).
  simpl. pose proof (sample_pool_subseteq (Z.to_nat k) population g) as Hs.
  destruct (Random.sample_pool (Z.to_nat k) population g) as [s g'].
  exists s, g'. split; [reflexivity|exact Hs].
Qed.

(** ** get_saliency_labels_all *)

Lemma score_array_loop_in_range (ctx_l : Z) (agg : list Z) (ids : list Z) :
  forall (idx : nat) (a : list Z),
    Forall (fun c => 0 <= c < ctx_l) ids ->
    length a = Z.to_nat ctx_l ->
    (idx + length ids <= length agg)%nat ->
    exists arr,
      score_array_loop ctx_l ids agg idx a = Ok arr /\
      length arr = length a /\
      (forall k : nat, Z.of_nat k ∉ ids -> arr !! k = a !! k) /\
      (NoDup ids -> forall i c,
         ids !! i = Some c -> arr !! Z.to_nat c = agg !! (idx + i)%nat).
Proof.
  induction ids as [|c rest IH]; intros idx a Hin Hlen Hagg.
  - exists a. repeat split; done.
  - apply Forall_cons in Hin as [Hc Hrest]. simpl in Hagg.
    destruct (lookup_lt_is_Some_2 agg idx ltac:(lia)) as [v Hv].
    simpl. replace (ctx_l <=? c) with false by (symmetry; apply Z.leb_gt; lia).
    simpl. rewrite Hv. simpl.
    rewrite setitem_in_range by lia. simpl.
    destruct (IH (S idx) (<[Z.to_nat c := v]> a) Hrest) as (arr & Hrun & Hl & Hout & Hat).
    { by rewrite length_insert. }
    { lia. }
    exists arr. rewrite length_insert in Hl. repeat split; try done.
    + intros k Hk. rewrite Hout.
      * apply list_lookup_insert_ne. intros E. apply Hk.
        apply elem_of_cons. left. lia.
      * intros E. apply Hk. apply elem_of_cons. by right.
    + intros Hnd i c' Hi. apply NoDup_cons in Hnd as [Hnotin Hnd].
      destruct i as [|i]; simpl in Hi.
      * injection Hi as <-. rewrite Nat.add_0_r, Hout.
        -- rewrite list_lookup_insert_eq by lia. by rewrite Hv.
        -- by rewrite Z2Nat.id by lia.
      * rewrite (Hat Hnd i c' Hi). f_equal. lia.
Qed.


Lemma sum_axis1_rectangular (scores : list (list Z)) :
  scores <> [] -> Np.rectangular scores = true ->
  Np.sum_axis1 scores = Ok (map Np.sumZ scores).
Proof.
  intros Hne Hrect. unfold Np.sum_axis1. destruct scores; [done|].
  by rewrite Hrect.
Qed.

Lemma nonempty_length {A} (l : list A) : (0 < length l)%nat -> l <> [].
Proof. destruct l; simpl; [lia|done]. Qed.




(** ** get_saliency_labels_sub_as_query *)





Lemma elem_of_range (a b x : Z) : x ∈ Py.range a b <-> a <= x < b.
Proof.
  unfold Py.range. rewrite list_elem_of_fmap. split.
  - intros (i & -> & Hi). apply elem_of_seq in Hi. lia.
  - intros H. exists (Z.to_nat (x - a)). split; [lia|].
    apply elem_of_seq. lia.
Qed.

Lemma length_range (a b : Z) : length (Py.range a b) = Z.to_nat (b - a).
Proof. unfold Py.range. by rewrite length_map, length_seq. Qed.

Lemma slice_bound_in_range (n : nat) (i : Z) :
  0 <= i <= Z.of_nat n -> Py.slice_bound n i = Z.to_nat i.
Proof.
  intros H. unfold Py.slice_bound.
  replace (i <? 0) with false by (symmetry; apply Z.ltb_ge; lia). lia.
Qed.





(** ** The tvsum examples *)

Lemma length_slice_to {A} (l : list A) (n : Z) :
  0 <= n -> (length (Py.slice_to l n) <= Z.to_nat n)%nat.
Proof.
  intros H. unfold Py.slice_to, Py.slice_bound.
  replace (n <? 0) with false by (symmetry; apply Z.ltb_ge; lia).
  rewrite length_take. lia.
Qed.

Lemma tvsum_scores_length (labels : list (list Z)) (ctx_l max_n : Z)
    (add_easy_negative : bool) (pos neg : list Z) (all : list Q) :
  get_saliency_labels_all_tvsum labels ctx_l max_n add_easy_negative
    = Ok (pos, neg, all) ->
  0 <= ctx_l -> (length all <= Z.to_nat ctx_l)%nat.
Proof.
  unfold get_saliency_labels_all_tvsum. intros H Hctx.
  apply bind_Ok in H as (sums & _ & H).
  apply bind_Ok in H as ([ep en] & _ & H). injection H as _ _ <-.
  rewrite length_map. by apply length_slice_to.
Qed.

Lemma cat_dim1_length (a b c : ndarray) (n : nat) :
  cat_dim1 a b = Ok c -> nd_len a = Ok n -> nd_len c = Ok n.
Proof.
  destruct a as [|xs], b as [|ys]; simpl; try discriminate.
  destruct (Nat.eqb (length xs) (length ys)) eqn:E; [|discriminate].
  intros H Hn. apply bind_Ok in H as (rows & Hrows & H). injection H as <-.
  injection Hn as <-. simpl. f_equal.
  apply mapR_length in Hrows. rewrite Hrows, length_zip_with.
  apply Nat.eqb_eq in E. lia.
Qed.

Lemma tvsum_labels_lengths (meta : Meta.annotation)
    (model_inputs out : gmap string value) (vf : Tensor) (n0 : nat) :
  tvsum_labels meta model_inputs (Z.of_nat n0) = Ok out ->
  model_inputs !! "video_feat" = Some (VTensor vf) ->
  nd_len (t_data vf) = Ok n0 ->
  exists vf' sal n,
    out !! "video_feat" = Some (VTensor vf') /\
    out !! "saliency_all_labels" = Some (VArray sal) /\
    nd_len (t_data vf') = Ok n /\ nd_len sal = Ok n /\ (n <= n0)%nat.
Proof.
  unfold tvsum_labels. intros H Hvf Hn0.
  apply bind_Ok in H as (labels & _ & H).
  apply bind_Ok in H as ([[pos neg] all] & Hall & H).
  apply tvsum_scores_length in Hall; [|lia]. rewrite Nat2Z.id in Hall.
  unfold tensor_at, set_saliency in H.
  rewrite !lookup_insert_ne, Hvf in H by done. simpl in H.
  rewrite Hn0 in H. simpl in H.
  assert (Hsal : nd_len (nd_of_Qs all) = Ok (length all)).
  { unfold nd_of_Qs. simpl. by rewrite length_map. }
  destruct (Nat.eqb (length all) n0) eqn:E; simpl in H.
  - injection H as <-. apply Nat.eqb_eq in E.
    exists vf, (nd_of_Qs all), (length all).
    rewrite !lookup_insert_ne by done. rewrite lookup_insert_eq.
    repeat split; try done; try congruence; lia.
  - apply bind_Ok in H as (cut & Hcut & H). injection H as <-.
    destruct (t_data vf) as [|xs]; [discriminate|].
    injection Hcut as <-. injection Hn0 as <-.
    eexists _, (nd_of_Qs all), (length all).
    rewrite lookup_insert_eq. rewrite !lookup_insert_ne by done.
    rewrite lookup_insert_eq. repeat split; try done.
    simpl. f_equal. unfold Py.slice_to.
    rewrite slice_bound_in_range by lia. rewrite length_take. lia.
Qed.

(** C10. For the tvsum variant with video features and labels, every item
    that __getitem__ returns has a video feature and a saliency label
    array of the same length, and that length is at most the length of the
    video feature as it was loaded. *)
Theorem tvsum_item_lengths (disk : Disk) (self self' : CGDETR_StartEndDataset)
    (index : Z) (g g' : Random.rng) (it : item) :
  dset_name self = "tvsum" ->
  use_video self = true ->
  load_labels self = true ->
  getitem disk self index g = Ok (it, self', g') ->
  exists video_feat saliency_all_labels loaded n n0,
    model_inputs it !! "video_feat" = Some (VTensor video_feat) /\
    model_inputs it !! "saliency_all_labels" = Some (VArray saliency_all_labels) /\
    nd_len (t_data video_feat) = Ok n /\
    nd_len saliency_all_labels = Ok n /\
    _get_video_feat_by_vid disk self (Meta.vid (meta it)) = Ok loaded /\
    nd_len (t_data loaded) = Ok n0 /\
    (n <= n0)%nat.
Proof.
  intros Hname Hvideo Hlabels H. unfold getitem in H.
  rewrite Hname, Hvideo, Hlabels in H.
  apply bind_Ok in H as (k & _ & H).
  apply bind_Ok in H as (meta0 & _ & H).
  apply bind_Ok in H as (query_feat & _ & H).
  apply bind_Ok in H as ([mi1 ctx_l] & H1 & H).
  apply bind_Ok in H1 as (loaded & Hloaded & H1).
  apply bind_Ok in H1 as (n0 & Hn0 & H1). injection H1 as <- <-.
  apply bind_Ok in H as (mi2 & H2 & H).
  assert (Hvf : exists vf, mi2 !! "video_feat" = Some (VTensor vf) /\
                           nd_len (t_data vf) = Ok n0).
  { destruct (use_tef self).
    - apply bind_Ok in H2 as (rows & _ & H2).
      unfold tensor_at in H2. rewrite lookup_insert_eq in H2. simpl in H2.
      destruct (negb (bool_decide (t_device loaded = Cpu))); [discriminate|].
      apply bind_Ok in H2 as (joined & Hj & H2). injection H2 as <-.
      exists (cpu joined). rewrite lookup_insert_eq. split; [done|].
      eapply cat_dim1_length; eauto.
    - injection H2 as <-. exists loaded. by rewrite lookup_insert_eq. }
  destruct Hvf as (vf & Hvf & Hlen).
  change (String.eqb "tvsum" "tvsum") with true in H. cbv iota in H.
  apply bind_Ok in H as ([[mi3 meta1] g1] & H3 & H).
  apply bind_Ok in H3 as (mi3' & H3 & E). injection E as <- <- <-.
  injection H as <- _ _. simpl.
  destruct (tvsum_labels_lengths _ _ _ _ _ H3 Hvf Hlen)
    as (vf' & sal & n & Hv & Hs & Hnv & Hns & Hle).
  exists vf', sal, loaded, n, n0.
  rewrite !lookup_insert_ne by done. auto 10.
Qed.

Lemma tvsum_item_lengths_witness :
  exists it self' g',
    getitem Examples.disk TvsumExample.tvsum 0 [] = Ok (it, self', g') /\
    exists video_feat saliency_all_labels loaded n n0,
      model_inputs it !! "video_feat" = Some (VTensor video_feat) /\
      model_inputs it !! "saliency_all_labels"
        = Some (VArray saliency_all_labels) /\
      nd_len (t_data video_feat) = Ok n /\
      nd_len saliency_all_labels = Ok n /\
      _get_video_feat_by_vid Examples.disk TvsumExample.tvsum
        (Meta.vid (meta it)) = Ok loaded /\
      nd_len (t_data loaded) = Ok n0 /\
      (n <= n0)%nat.
Proof.
  destruct (getitem Examples.disk TvsumExample.tvsum 0 [])
    as [[[it self'] g']|e] eqn:E.
  - exists it, self', g'. split; [reflexivity|].
    apply (tvsum_item_lengths Examples.disk TvsumExample.tvsum self' 0 [] g' it);
      [reflexivity .. | exact E].
  - assert (H : is_Ok (getitem Examples.disk TvsumExample.tvsum 0 []) = true)
      by (vm_compute; reflexivity).
    rewrite E in H. discriminate H.
Defined.

(** ** Collation *)

Lemma collate_keys_lookup (batch : list item) (keys : list string) :
  forall (acc b : gmap string batched),
    collate_keys batch keys acc = Ok b ->
    forall k,
      (k ∈ keys -> exists v, collate_field batch k = Ok v /\ b !! k = Some v) /\
      (k ∉ keys -> b !! k = acc !! k).
Proof.
  induction keys as [|k0 keys IH]; intros acc b H k; simpl in H.
  - injection H as <-. split; [|done]. intros Hk. by apply elem_of_nil in Hk.
  - apply bind_Ok in H as (v & Hv & H). destruct (IH _ _ H k) as [Hin Hout].
    split.
    + intros Hk. destruct (decide (k ∈ keys)) as [Hk'|Hk']; [by apply Hin|].
      apply elem_of_cons in Hk as [->|Hk]; [|done].
      exists v. split; [exact Hv|]. rewrite (Hout Hk'). apply lookup_insert_eq.
    + intros Hk. apply not_elem_of_cons in Hk as [Hne Hk].
      rewrite (Hout Hk). by apply lookup_insert_ne.
Qed.

Lemma collate_inv (batch : list item) (metas : list Meta.annotation)
    (b : gmap string batched) :
  cg_detr_start_end_collate batch = Ok (metas, b) ->
  exists first,
    head batch = Some first /\
    metas = map meta batch /\
    forall k,
      match model_inputs first !! k with
      | Some _ => exists v, collate_field batch k = Ok v /\ b !! k = Some v
      | None => b !! k = None
      end.
Proof.
  unfold cg_detr_start_end_collate. intros H.
  apply bind_Ok in H as (first & Hfirst & H).
  apply bind_Ok in H as (bd & Hbd & H). injection H as <- <-.
  exists first. split.
  { destruct (head batch); simpl in Hfirst; [by injection Hfirst as ->|discriminate]. }
  split; [done|].
  intros k. destruct (collate_keys_lookup _ _ _ _ Hbd k) as [Hin Hout].
  destruct (model_inputs first !! k) as [x|] eqn:Hk.
  - apply Hin. apply list_elem_of_fmap. exists (k, x). split; [done|].
    by apply elem_of_map_to_list.
  - rewrite Hout; [done|]. intros Hin'.
    apply list_elem_of_fmap in Hin' as ([k' x] & -> & Hx).
    apply elem_of_map_to_list in Hx. simpl in Hk. congruence.
Qed.

Lemma collate_lookup_Some (batch : list item) (metas : list Meta.annotation)
    (b : gmap string batched) (k : string) (v : batched) :
  cg_detr_start_end_collate batch = Ok (metas, b) ->
  b !! k = Some v -> collate_field batch k = Ok v.
Proof.
  intros H Hk. apply collate_inv in H as (first & _ & _ & H).
  specialize (H k). destruct (model_inputs first !! k).
  - destruct H as (v' & Hv' & Hb). congruence.
  - congruence.
Qed.

Lemma pad_row_length (max_length : nat) (fill : ndarray) (seq : list ndarray) :
  (length seq <= max_length)%nat ->
  length (seq ++ replicate (max_length - length seq) fill) = max_length.
Proof. intros H. rewrite length_app, length_replicate. lia. Qed.

Lemma pad_sequences_1d_spec (sequences : list ndarray) (pad mask : ndarray) :
  pad_sequences_1d sequences = Ok (pad, mask) ->
  exists seqs,
    mapR entries sequences = Ok seqs /\
    padded_to_longest seqs pad /\ marks_valid seqs mask.
Proof.
  unfold pad_sequences_1d. intros H.
  apply bind_Ok in H as (seqs & Hseqs & H). exists seqs. split; [exact Hseqs|].
  destruct seqs as [|s0 rest] eqn:E; [discriminate|]. rewrite <- E in *.
  injection H as <- <-. clear E. split.
  - eexists. split; [reflexivity|]. apply Forall2_fmap_r, Forall_Forall2_diag.
    apply Forall_forall. intros seq Hseq. eexists. split; [reflexivity|].
    apply pad_row_length. apply max_list_elem_of_le.
    apply list_elem_of_fmap. by exists seq.
  - eexists. split; [reflexivity|]. apply Forall2_fmap_r, Forall_Forall2_diag.
    by apply Forall_forall.
Qed.

Lemma padded_field (batch : list item) (k : string) (pad mask : ndarray)
    (vals : list value) (seqs : list ndarray) :
  column batch k = Ok vals ->
  mapR as_sequence vals = Ok seqs ->
  pad_sequences_1d seqs = Ok (pad, mask) ->
  exists ss, sequences_of batch k = Ok ss /\
             padded_to_longest ss pad /\ marks_valid ss mask.
Proof.
  intros Hc Hs Hp. apply pad_sequences_1d_spec in Hp as (ss & Hss & Hpad & Hmask).
  exists ss. unfold sequences_of. rewrite Hc. simpl. rewrite Hs. simpl. auto.
Qed.

(** C4, as amended. On every batch on which it returns,
    cg_detr_start_end_collate pads query_feat and video_feat to the length
    of the longest sequence of the batch and pairs the padded tensor with
    a mask that marks the positions of every example; saliency_all_labels,
    when present, is padded in the same way and stored without a mask. *)
Theorem collate_pads_sequences (batch : list item)
    (metas : list Meta.annotation) (b : gmap string batched) :
  cg_detr_start_end_collate batch = Ok (metas, b) ->
  (forall k, k ∈ ["query_feat"; "video_feat"] -> is_Some (b !! k) ->
     exists seqs padded mask,
       sequences_of batch k = Ok seqs /\
       b !! k = Some (BPair (cpu padded) (cpu mask)) /\
       padded_to_longest seqs padded /\ marks_valid seqs mask) /\
  (is_Some (b !! "saliency_all_labels") ->
     exists seqs padded,
       sequences_of batch "saliency_all_labels" = Ok seqs /\
       b !! "saliency_all_labels" = Some (BTensor (cpu padded)) /\
       padded_to_longest seqs padded).
Proof.
  intros H. split.
  - intros k Hk [v Hv].
    pose proof (collate_lookup_Some _ _ _ _ _ H Hv) as Hf.
    unfold collate_field in Hf.
    apply bind_Ok in Hf as (vals & Hvals & Hf).
    assert (Hdef : (seqs ← mapR as_sequence vals;
                    '(pad_data, mask_data) ← pad_sequences_1d seqs;
                    Ok (BPair (cpu pad_data) (cpu mask_data))) = Ok v).
    { apply elem_of_cons in Hk as [->|Hk]; [exact Hf|].
      apply elem_of_cons in Hk as [->|Hk]; [exact Hf|].
      by apply elem_of_nil in Hk. }
    apply bind_Ok in Hdef as (seqs & Hseqs & Hdef).
    apply bind_Ok in Hdef as ([pad mask] & Hpad & Hdef). injection Hdef as <-.
    destruct (padded_field _ _ _ _ _ _ Hvals Hseqs Hpad) as (ss & ? & ? & ?).
    exists ss, pad, mask. auto.
  - intros [v Hv].
    pose proof (collate_lookup_Some _ _ _ _ _ H Hv) as Hf.
    unfold collate_field in Hf.
    apply bind_Ok in Hf as (vals & Hvals & Hf).
    change ((seqs ← mapR as_sequence vals;
             '(pad_data, mask_data) ← pad_sequences_1d seqs;
             Ok (BTensor (cpu pad_data))) = Ok v) in Hf.
    apply bind_Ok in Hf as (seqs & Hseqs & Hf).
    apply bind_Ok in Hf as ([pad mask] & Hpad & Hf). injection Hf as <-.
    destruct (padded_field _ _ _ _ _ _ Hvals Hseqs Hpad) as (ss & ? & ? & ?).
    exists ss, pad. auto.
Qed.

Lemma collate_pads_sequences_witness :
  exists metas b,
    cg_detr_start_end_collate Examples.batch2 = Ok (metas, b) /\
    (forall k, k ∈ ["query_feat"; "video_feat"] -> is_Some (b !! k) ->
       exists seqs padded mask,
         sequences_of Examples.batch2 k = Ok seqs /\
         b !! k = Some (BPair (cpu padded) (cpu mask)) /\
         padded_to_longest seqs padded /\ marks_valid seqs mask) /\
    (is_Some (b !! "saliency_all_labels") ->
       exists seqs padded,
         sequences_of Examples.batch2 "saliency_all_labels" = Ok seqs /\
         b !! "saliency_all_labels" = Some (BTensor (cpu padded)) /\
         padded_to_longest seqs padded).
Proof.
  destruct (cg_detr_start_end_collate Examples.batch2) as [[metas b]|e] eqn:E.
  - exists metas, b. split; [reflexivity|].
    exact (collate_pads_sequences Examples.batch2 metas b E).
  - assert (H : is_Ok (cg_detr_start_end_collate Examples.batch2) = true)
      by (vm_compute; reflexivity).
    rewrite E in H. discriminate H.
Defined.

(** C4, as stated, fails for saliency_all_labels: in the collated batch of
    two examples with three and two clips the entry is the padded tensor
    alone, not a pair of a tensor and a mask. *)
Lemma collate_drops_saliency_mask :
  (fun r => r.2 !! "saliency_all_labels")
    <$> cg_detr_start_end_collate Examples.batch2
  = Ok (Some (BTensor (cpu (Arr [nd_of_Zs [0; 6; 1]; nd_of_Zs [4; 0; 0]])))).
Proof. vm_compute. reflexivity. Qed.

(** C6. When every example of the batch has a span_labels field, the
    span_labels entry of the collated batch is a list with one object per
    example, in batch order, whose "spans" value is that example's
    span-label tensor as it is. *)
Theorem collate_keeps_span_labels (batch : list item)
    (metas : list Meta.annotation) (b : gmap string batched) :
  batch <> [] ->
  Forall (fun e => is_Some (model_inputs e !! "span_labels")) batch ->
  cg_detr_start_end_collate batch = Ok (metas, b) ->
  exists l,
    b !! "span_labels" = Some (BSpans l) /\
    Forall2 (fun e (d : gmap string value) =>
               exists spans, model_inputs e !! "span_labels" = Some spans /\
                             d = {["spans" := spans]})
            batch l.
Proof.
  intros Hne Hall H. apply collate_inv in H as (first & Hfirst & _ & H).
  specialize (H "span_labels").
  assert (Hin : first ∈ batch).
  { destruct batch; [done|]. injection Hfirst as ->. by left. }
  rewrite Forall_forall in Hall. destruct (Hall _ Hin) as [x Hx].
  rewrite Hx in H. destruct H as (v & Hv & Hb).
  unfold collate_field in Hv. apply bind_Ok in Hv as (vals & Hvals & Hv).
  change (Ok (BSpans (map (fun v => ({["spans" := v]} : gmap string value)) vals))
          = Ok v) in Hv.
  injection Hv as <-. eexists. split; [exact Hb|].
  apply Forall2_fmap_r. unfold column in Hvals.
  apply mapR_Forall2 in Hvals. eapply Forall2_impl; [exact Hvals|].
  intros e y Hy. simpl in Hy. exists y. split; [|done].
  by destruct (model_inputs e !! "span_labels"); simplify_eq/=.
Qed.

Lemma collate_keeps_span_labels_witness :
  exists metas b,
    cg_detr_start_end_collate Examples.batch2 = Ok (metas, b) /\
    exists l,
      b !! "span_labels" = Some (BSpans l) /\
      Forall2 (fun e (d : gmap string value) =>
                 exists spans, model_inputs e !! "span_labels" = Some spans /\
                               d = {["spans" := spans]})
              Examples.batch2 l.
Proof.
  destruct (cg_detr_start_end_collate Examples.batch2) as [[metas b]|e] eqn:E.
  - exists metas, b. split; [reflexivity|].
    apply (collate_keeps_span_labels Examples.batch2 metas b).
    + discriminate.
    + repeat constructor; eexists; vm_compute; reflexivity.
    + exact E.
  - assert (H : is_Ok (cg_detr_start_end_collate Examples.batch2) = true)
      by (vm_compute; reflexivity).
    rewrite E in H. discriminate H.
Defined.

(** ** Batch preparation *)

Lemma feature_field_is_pair (batch : list item) (k : string) (v : batched) :
  k ∈ ["query_feat"; "video_feat"] ->
  collate_field batch k = Ok v ->
  exists padded mask, v = BPair padded mask.
Proof.
  intros Hk Hf. unfold collate_field in Hf.
  apply bind_Ok in Hf as (vals & _ & Hf).
  assert (Hdef : (seqs ← mapR as_sequence vals;
                  '(pad_data, mask_data) ← pad_sequences_1d seqs;
                  Ok (BPair (cpu pad_data) (cpu mask_data))) = Ok v).
  { apply elem_of_cons in Hk as [->|Hk]; [exact Hf|].
    apply elem_of_cons in Hk as [->|Hk]; [exact Hf|].
    by apply elem_of_nil in Hk. }
  apply bind_Ok in Hdef as (seqs & _ & Hdef).
  apply bind_Ok in Hdef as ([pad mask] & _ & Hdef). injection Hdef as <-.
  eauto.
Qed.

Lemma prepare_targets_empty (b targets : gmap string batched) (d : device) :
  prepare_targets b d = Ok targets ->
  size targets = 0%nat <->
  b !! "span_labels" = None /\ b !! "saliency_pos_labels" = None /\
  b !! "saliency_all_labels" = None.
Proof.
  unfold prepare_targets. intros H.
  apply bind_Ok in H as (t1 & H1 & H). apply bind_Ok in H as (t2 & H2 & H).
  rewrite map_size_empty_iff.
  destruct (b !! "saliency_all_labels") as [ball|].
  { apply bind_Ok in H as (x & _ & H). injection H as <-. split.
    - intros E. by apply insert_non_empty in E.
    - by intros (_ & _ & ?). }
  injection H as <-.
  destruct (b !! "saliency_pos_labels") as [bpos|].
  { apply bind_Ok in H2 as (x & _ & H2). apply bind_Ok in H2 as (y & _ & H2).
    apply bind_Ok in H2 as (z & _ & H2). injection H2 as <-. split.
    - intros E. by apply insert_non_empty in E.
    - by intros (_ & ? & _). }
  injection H2 as <-.
  destruct (b !! "span_labels") as [bspans|].
  { apply bind_Ok in H1 as (x & _ & H1). injection H1 as <-. split.
    - intros E. by apply insert_non_empty in E.
    - by intros (? & _ & _). }
  injection H1 as <-. done.
Qed.

(** C7. For a collated batch on which it returns,
    cg_detr_prepare_batch_inputs gives src_txt and src_txt_mask as the
    padded query_feat tensor and its mask on the target device, src_vid
    and src_vid_mask as the padded video_feat tensor and its mask on the
    target device, and vid and qid as they are in the batch; targets is
    None exactly when the batch has none of span_labels,
    saliency_pos_labels and saliency_all_labels. *)
Theorem prepare_batch_inputs_spec (batch : list item)
    (metas : list Meta.annotation) (b model_inputs : gmap string batched)
    (d : device) (targets : option (gmap string batched)) :
  cg_detr_start_end_collate batch = Ok (metas, b) ->
  cg_detr_prepare_batch_inputs b d = Ok (model_inputs, targets) ->
  exists query_feat query_mask video_feat video_mask vid qid,
    b !! "query_feat" = Some (BPair query_feat query_mask) /\
    b !! "video_feat" = Some (BPair video_feat video_mask) /\
    b !! "vid" = Some vid /\ b !! "qid" = Some qid /\
    model_inputs !! "src_txt" = Some (BTensor (to query_feat d)) /\
    model_inputs !! "src_txt_mask" = Some (BTensor (to query_mask d)) /\
    model_inputs !! "src_vid" = Some (BTensor (to video_feat d)) /\
    model_inputs !! "src_vid_mask" = Some (BTensor (to video_mask d)) /\
    model_inputs !! "vid" = Some vid /\
    model_inputs !! "qid" = Some qid /\
    (targets = None <->
     b !! "span_labels" = None /\ b !! "saliency_pos_labels" = None /\
     b !! "saliency_all_labels" = None).
Proof.
  intros Hc H. unfold cg_detr_prepare_batch_inputs in H.
  destruct (b !! "query_feat") as [qf|] eqn:Hq; [|discriminate].
  destruct (feature_field_is_pair batch "query_feat" qf) as (qp & qm & ->).
  { set_solver. }
  { eapply collate_lookup_Some; eauto. }
  destruct (b !! "video_feat") as [vf|] eqn:Hv; [|discriminate].
  destruct (feature_field_is_pair batch "video_feat" vf) as (vp & vm & ->).
  { set_solver. }
  { eapply collate_lookup_Some; eauto. }
  destruct (b !! "vid") as [vid|] eqn:Hvid; [|discriminate].
  destruct (b !! "qid") as [qid|] eqn:Hqid; [|discriminate].
  simpl in H. apply bind_Ok in H as (t & Ht & H). injection H as <- <-.
  exists qp, qm, vp, vm, vid, qid.
  repeat (split; [done|]).
  rewrite <- (prepare_targets_empty _ _ _ Ht).
  destruct (Nat.eqb_spec (size t) 0); split; done.
Qed.

Lemma prepare_batch_inputs_spec_witness :
  exists metas b model_inputs targets,
    cg_detr_start_end_collate Examples.batch2 = Ok (metas, b) /\
    cg_detr_prepare_batch_inputs b (Cuda 0) = Ok (model_inputs, targets) /\
    exists query_feat query_mask video_feat video_mask vid qid,
      b !! "query_feat" = Some (BPair query_feat query_mask) /\
      b !! "video_feat" = Some (BPair video_feat video_mask) /\
      b !! "vid" = Some vid /\ b !! "qid" = Some qid /\
      model_inputs !! "src_txt" = Some (BTensor (to query_feat (Cuda 0))) /\
      model_inputs !! "src_txt_mask" = Some (BTensor (to query_mask (Cuda 0))) /\
      model_inputs !! "src_vid" = Some (BTensor (to video_feat (Cuda 0))) /\
      model_inputs !! "src_vid_mask" = Some (BTensor (to video_mask (Cuda 0))) /\
      model_inputs !! "vid" = Some vid /\
      model_inputs !! "qid" = Some qid /\
      (targets = None <->
       b !! "span_labels" = None /\ b !! "saliency_pos_labels" = None /\
       b !! "saliency_all_labels" = None).
Proof.
  assert (H : is_Ok (r ← cg_detr_start_end_collate Examples.batch2;
                     cg_detr_prepare_batch_inputs r.2 (Cuda 0)) = true)
    by (vm_compute; reflexivity).
  destruct (cg_detr_start_end_collate Examples.batch2) as [[metas b]|e] eqn:E;
    [|discriminate H].
  simpl in H.
  destruct (cg_detr_prepare_batch_inputs b (Cuda 0))
    as [[model_inputs targets]|e] eqn:E'; [|discriminate H].
  exists metas, b, model_inputs, targets. split; [reflexivity|].
  split; [exact E'|].
  exact (prepare_batch_inputs_spec Examples.batch2 metas b model_inputs
           (Cuda 0) targets E E').
Defined.

(** * Further properties *)

(** ** get_span_labels beyond the window limit *)

Lemma insert_swap_head {A} (l : list A) (j : nat) (a y : A) :
  l !! j = Some y -> y :: <[j := a]> l ≡ₚ a :: l.
Proof.
  revert j. induction l as [|b l IH]; intros [|j] H; simplify_eq/=.
  - apply Permutation_swap.
  - rewrite Permutation_swap, (IH _ H). apply Permutation_swap.
Qed.

Lemma swap_perm {A} (l : list A) (i j : nat) : Random.swap l i j ≡ₚ l.
Proof.
  unfold Random.swap.
  destruct (l !! i) as [x|] eqn:Hi; [|done].
  destruct (l !! j) as [y|] eqn:Hj; [|done].
  revert i j Hi Hj. induction l as [|a l IH]; intros [|i] [|j] Hi Hj;
    simplify_eq/=.
  - done.
  - by apply insert_swap_head.
  - symmetry. rewrite <- (insert_swap_head l i y x Hi) at 1. done.
  - by rewrite IH.
Qed.

Lemma shuffle_from_perm {A} (i : nat) (l : list A) (g : Random.rng) :
  (Random.shuffle_from i l g).1 ≡ₚ l.
Proof.
  revert l g. induction i as [|i IH]; intros l g; simpl; [done|].
  destruct (Random.randbelow (S (S i)) g) as [j g1].
  rewrite IH. apply swap_perm.
Qed.

Lemma shuffle_perm {A} (l : list A) (g : Random.rng) :
  (Random.shuffle l g).1 ≡ₚ l.
Proof. apply shuffle_from_perm. Qed.

Lemma normalized_rows (self : CGDETR_StartEndDataset) (ctx_l : Z)
    (windows : list (Q * Q)) :
  ~ (inject_Z ctx_l * clip_len self == 0)%Q ->
  Forall2 (normalized_span self ctx_l) windows
    (span_xx_to_cxw
       (map (fun w => (fst w / (inject_Z ctx_l * clip_len self),
                       snd w / (inject_Z ctx_l * clip_len self))%Q) windows)).
Proof.
  intros Hnz.
  assert (Hc : ~ (clip_len self == 0)%Q)
    by (intros E; apply Hnz; rewrite E; ring).
  assert (Hx : ~ (inject_Z ctx_l == 0)%Q)
    by (intros E; apply Hnz; rewrite E; ring).
  unfold span_xx_to_cxw. rewrite map_map.
  induction windows as [|[st ed] ws IH]; simpl; constructor; [|exact IH].
  unfold normalized_span; simpl. split; field; auto.
Qed.

(** X1. With span_loss_type "l1" and more windows than max_windows,
    get_span_labels shuffles the list it was handed in place (the list keeps
    its windows, in some order) and returns the normalized (center, width)
    rows of the first max_windows windows of the shuffled list, so exactly
    max_windows rows. *)
Theorem get_span_labels_l1_over_limit (self : CGDETR_StartEndDataset)
    (windows : list (Q * Q)) (ctx_l : Z) (g : Random.rng) :
  span_loss_type self = "l1" ->
  0 <= max_windows self < Z.of_nat (length windows) ->
  ~ (inject_Z ctx_l * clip_len self == 0)%Q ->
  exists rows shuffled g',
    get_span_labels self windows ctx_l g = Ok (rows, shuffled, g') /\
    shuffled ≡ₚ windows /\
    length rows = Z.to_nat (max_windows self) /\
    Forall2 (normalized_span self ctx_l)
            (take (Z.to_nat (max_windows self)) shuffled) rows.
Proof.
  intros Hl1 Hlen Hnz. unfold get_span_labels.
  replace (max_windows self <? Z.of_nat (length windows)) with true
    by (symmetry; apply Z.ltb_lt; lia).
  pose proof (shuffle_perm windows g) as Hperm.
  destruct (Random.shuffle windows g) as [shuffled g'] eqn:Hs. simpl in Hperm.
  rewrite Hl1. simpl.
  assert (Hk : Py.slice_to shuffled (max_windows self)
               = take (Z.to_nat (max_windows self)) shuffled).
  { unfold Py.slice_to. f_equal. unfold Py.slice_bound.
    replace (max_windows self <? 0) with false by (symmetry; apply Z.ltb_ge; lia).
    rewrite Hperm. lia. }
  rewrite Hk. do 3 eexists. split; [reflexivity|]. split; [exact Hperm|].
  pose proof (normalized_rows self ctx_l
                (take (Z.to_nat (max_windows self)) shuffled) Hnz) as Hrows.
  split; [|exact Hrows].
  apply Forall2_length in Hrows. rewrite <- Hrows, length_take, Hperm. lia.
Qed.

Lemma get_span_labels_l1_over_limit_witness :
  exists rows shuffled g',
    get_span_labels Examples.qv2 [(2, 6); (0, 1); (4, 8)]%Q 4 [1; 0]%nat
      = Ok (rows, shuffled, g') /\
    shuffled ≡ₚ [(2, 6); (0, 1); (4, 8)]%Q /\
    length rows = Z.to_nat (max_windows Examples.qv2) /\
    Forall2 (normalized_span Examples.qv2 4)
            (take (Z.to_nat (max_windows Examples.qv2)) shuffled) rows.
Proof.
  apply (get_span_labels_l1_over_limit Examples.qv2
           [(2, 6); (0, 1); (4, 8)]%Q 4 [1; 0]%nat).
  - reflexivity.
  - simpl. lia.
  - intros E. vm_compute in E. discriminate E.
Defined.




(** ** The growth of the score array *)

Lemma assign_prefix_grow (ctx_l : Z) (a : list Z) :
  0 <= ctx_l -> length a = Z.to_nat ctx_l ->
  Np.assign_prefix (replicate (Z.to_nat (ctx_l + 1)) 0) ctx_l a = Ok (a ++ [0]).
Proof.
  intros H0 Hlen. unfold Np.assign_prefix.
  rewrite length_replicate, slice_bound_in_range by lia.
  rewrite Hlen, Nat.eqb_refl. f_equal. f_equal.
  rewrite drop_replicate. replace (Z.to_nat (ctx_l + 1) - Z.to_nat ctx_l)%nat
    with 1%nat by lia. reflexivity.
Qed.

Lemma assign_prefix_grown (ctx_l : Z) (a : list Z) :
  0 < ctx_l -> length a = Z.to_nat (ctx_l + 1) ->
  Np.assign_prefix (replicate (Z.to_nat (ctx_l + 1)) 0) ctx_l a
  = Raise ValueError.
Proof.
  intros H0 Hlen. unfold Np.assign_prefix.
  rewrite length_replicate, slice_bound_in_range by lia.
  destruct (Nat.eqb_spec (length a) (Z.to_nat ctx_l)) as [E|_]; [lia|].
  destruct a as [|x [|y a]]; simpl in Hlen; try reflexivity. lia.
Qed.

Lemma zeros_nonneg (n : Z) :
  0 <= n -> Np.zeros n = Ok (replicate (Z.to_nat n) 0).
Proof.
  intros H. unfold Np.zeros.
  by replace (n <? 0) with false by (symmetry; apply Z.ltb_ge; lia).
Qed.

Lemma setitem_out_of_range {A} (a : list A) (i : Z) (v : A) :
  Z.of_nat (length a) <= i -> Np.setitem a i v = Raise IndexError.
Proof.
  intros H. unfold Np.setitem, Py.norm_index.
  replace (Z.of_nat (length a) <=? i) with true
    by (symmetry; apply Z.leb_le; lia).
  by rewrite orb_true_r.
Qed.

Lemma filter_nil_Forall {A} (P : A -> Prop) `{!forall x, Decision (P x)}
    (l : list A) :
  filter P l = [] <-> Forall (fun x => ~ P x) l.
Proof.
  induction l as [|x l IH]; [by split; [constructor|]|].
  rewrite filter_cons, Forall_cons. destruct (decide (P x)).
  - split; [discriminate|]. by intros [? _].
  - rewrite IH. split; [by split|by intros [_ ?]].
Qed.

(** Once the array has been grown, the loop returns exactly when every
    remaining clip id is below ctx_l. *)
Lemma score_array_loop_grown (ctx_l : Z) (agg : list Z) (ids : list Z) :
  0 < ctx_l ->
  forall (idx : nat) (a : list Z),
    Forall (fun c => 0 <= c) ids ->
    length a = Z.to_nat (ctx_l + 1) ->
    (idx + length ids <= length agg)%nat ->
    (exists arr, score_array_loop ctx_l ids agg idx a = Ok arr) <->
    Forall (fun c => c < ctx_l) ids.
Proof.
  intros Hctx. induction ids as [|c rest IH]; intros idx a Hnn Hlen Hagg.
  - simpl. split; eauto.
  - apply Forall_cons in Hnn as [Hc Hrest]. simpl in Hagg. simpl.
    rewrite Forall_cons.
    destruct (Z.leb_spec ctx_l c) as [Hge|Hlt].
    + rewrite zeros_nonneg by lia. simpl.
      rewrite assign_prefix_grown by done. simpl. split.
      * intros [arr Harr]. discriminate.
      * intros [? _]. lia.
    + simpl. destruct (lookup_lt_is_Some_2 agg idx ltac:(lia)) as [v Hv].
      rewrite Hv. simpl. rewrite setitem_in_range by lia. simpl.
      rewrite (IH (S idx) (<[Z.to_nat c := v]> a) Hrest)
        by (rewrite ?length_insert; lia).
      split; [by split|by intros [_ ?]].
Qed.

(** X3. The score-array loop of get_saliency_labels_all, started on an array
    of ctx_l zeros with non-negative clip ids, returns exactly when every
    clip id is at most ctx_l and at most one of them is not below ctx_l: the
    growth of the array covers one clip id equal to ctx_l and nothing more.
    *)
Theorem score_array_loop_returns_iff (ctx_l : Z) (rel_clip_ids agg_scores : list Z) :
  0 < ctx_l ->
  Forall (fun c => 0 <= c) rel_clip_ids ->
  length agg_scores = length rel_clip_ids ->
  (exists score_array,
     score_array_loop ctx_l rel_clip_ids agg_scores 0
       (replicate (Z.to_nat ctx_l) 0) = Ok score_array) <->
  Forall (fun c => c <= ctx_l) rel_clip_ids /\
  (length (filter (fun c : Z => (ctx_l <= c)%Z) rel_clip_ids) <= 1)%nat.
Proof.
  intros Hctx Hnn Hagg.
  assert (Hgen : forall ids (idx : nat) (a : list Z),
    Forall (fun c => 0 <= c) ids ->
    length a = Z.to_nat ctx_l ->
    (idx + length ids <= length agg_scores)%nat ->
    (exists arr, score_array_loop ctx_l ids agg_scores idx a = Ok arr) <->
    Forall (fun c => c <= ctx_l) ids /\
    (length (filter (fun c : Z => (ctx_l <= c)%Z) ids) <= 1)%nat).
  { induction ids as [|c rest IH]; intros idx a Hn Hlen Hl.
    - simpl. split; [|eauto]. intros _. split; [constructor|simpl; lia].
    - apply Forall_cons in Hn as [Hc Hrest]. simpl in Hl. simpl.
      rewrite Forall_cons, filter_cons.
      destruct (lookup_lt_is_Some_2 agg_scores idx ltac:(lia)) as [v Hv].
      destruct (Z.leb_spec ctx_l c) as [Hge|Hlt].
      + rewrite zeros_nonneg by lia. simpl.
        rewrite assign_prefix_grow by lia. simpl. rewrite Hv. simpl.
        destruct (decide (ctx_l <= c)) as [_|?]; [|lia].
        destruct (decide (c = ctx_l)) as [->|Hne].
        * rewrite setitem_in_range by (rewrite length_app; simpl; lia). simpl.
          rewrite (score_array_loop_grown ctx_l agg_scores rest Hctx (S idx))
            by (rewrite ?length_insert, ?length_app; simpl; lia || done).
          split.
          -- intros Hlt. split; [split; [lia|]|].
             ++ eapply Forall_impl; [exact Hlt|]. simpl. lia.
             ++ simpl. rewrite (proj2 (filter_nil_Forall _ rest)); [simpl; lia|].
                eapply Forall_impl; [exact Hlt|]. simpl. lia.
          -- intros [[_ Hle] Hcount]. simpl in Hcount.
             assert (Hnil : filter (fun c : Z => (ctx_l <= c)%Z) rest = [])
               by (destruct (filter _ rest); [done|simpl in Hcount; lia]).
             apply filter_nil_Forall in Hnil.
             eapply Forall_impl; [exact Hnil|]. simpl. lia.
        * rewrite setitem_out_of_range by (rewrite length_app; simpl; lia).
          simpl. split; [intros [? ?]; discriminate|]. intros [[? _] _]. lia.
      + simpl. rewrite Hv. simpl. rewrite setitem_in_range by lia. simpl.
        destruct (decide (ctx_l <= c)) as [?|_]; [lia|].
        rewrite (IH (S idx) (<[Z.to_nat c := v]> a) Hrest)
          by (rewrite ?length_insert; lia).
        split; [intros [? ?]; repeat split; [lia|done..]|by intros [[_ ?] ?]]. }
  apply Hgen; [done|apply length_replicate|lia].
Qed.

Lemma score_array_loop_returns_iff_witness :
  (exists score_array,
     score_array_loop 2 [1; 2] [3; 4] 0 (replicate (Z.to_nat 2) 0)
     = Ok score_array) <->
  Forall (fun c => c <= 2) [1; 2] /\
  (length (filter (fun c : Z => (2 <= c)%Z) [1; 2]%Z) <= 1)%nat.
Proof.
  apply (score_array_loop_returns_iff 2 [1; 2] [3; 4]).
  - lia.
  - repeat constructor; lia.
  - reflexivity.
Defined.

(** ** The positive and negative clips of get_saliency_labels_all *)

Lemma insert_index_sorted (key : nat -> Z) (i : nat) (l : list nat) :
  StronglySorted (fun a b => key a <= key b) l ->
  StronglySorted (fun a b => key a <= key b) (Np.insert_index key i l).
Proof.
  induction 1 as [|j l Hs IH Hj]; simpl.
  - repeat constructor.
  - destruct (Z.leb_spec (key i) (key j)) as [Hle|Hgt].
    + constructor; [by constructor|]. constructor; [done|].
      eapply Forall_impl; [exact Hj|]. simpl. lia.
    + constructor; [exact IH|]. rewrite insert_index_perm.
      constructor; [lia|exact Hj].
Qed.

Lemma argsort_sorted (a : list Z) :
  StronglySorted (fun i j => default 0 (a !! i) <= default 0 (a !! j))
    (Np.argsort a).
Proof.
  unfold Np.argsort. generalize (seq 0 (length a)) as l.
  induction l as [|i l IH]; simpl; [constructor|].
  by apply insert_index_sorted.
Qed.

Lemma sorted_head_least (key : nat -> Z) (l : list nat) (m : nat) :
  StronglySorted (fun a b => key a <= key b) l -> head l = Some m ->
  forall x, x ∈ l -> key m <= key x.
Proof.
  intros Hs Hm x Hx. destruct Hs as [|j l _ Hj]; [done|].
  injection Hm as ->. apply elem_of_cons in Hx as [->|Hx]; [lia|].
  rewrite Forall_forall in Hj. by apply Hj.
Qed.

Lemma sorted_last_greatest (key : nat -> Z) (l : list nat) (m : nat) :
  StronglySorted (fun a b => key a <= key b) l -> last l = Some m ->
  forall x, x ∈ l -> key x <= key m.
Proof.
  induction 1 as [|j l Hs IH Hj]; intros Hm x Hx; [done|].
  destruct l as [|j' l'].
  - injection Hm as ->. apply list_elem_of_singleton in Hx as ->. lia.
  - change (last (j :: j' :: l')) with (last (j' :: l')) in Hm.
    apply elem_of_cons in Hx as [->|Hx]; [|by apply IH].
    rewrite Forall_forall in Hj. apply Hj.
    rewrite last_lookup in Hm. eapply list_elem_of_lookup_2, Hm.
Qed.

Lemma slice_from_last_eq {A} (l : list A) (m : A) :
  last l = Some m -> Py.slice_from l (-1) = [m].
Proof.
  intros Hm. unfold Py.slice_from, Py.slice_bound. simpl.
  destruct (decide (l = [])) as [->|Hne]; [done|].
  destruct (exists_last Hne) as (l' & x & ->).
  rewrite last_snoc in Hm. injection Hm as ->.
  rewrite length_app. simpl.
  replace (Z.to_nat _) with (length l') by lia.
  by rewrite drop_app_length.
Qed.

Lemma slice_to_head_eq {A} (l : list A) (m : A) :
  head l = Some m -> Py.slice_to l 1 = [m].
Proof.
  intros Hm. destruct l as [|x l]; [done|]. injection Hm as ->.
  unfold Py.slice_to, Py.slice_bound.
  change (1 <? 0) with false. change (Z.to_nat 1) with 1%nat. cbv iota.
  simpl length. replace (Nat.min 1 (S (length l))) with 1%nat by lia.
  reflexivity.
Qed.

Lemma sample_pool_length {A} (k : nat) (pool : list A) (g : Random.rng) :
  (k <= length pool)%nat -> length (Random.sample_pool k pool g).1 = k.
Proof.
  revert pool g. induction k as [|k IH]; intros pool g Hk; simpl; [done|].
  assert (Hj : ((Random.randbelow (length pool) g).1 < length pool)%nat).
  { unfold Random.randbelow. destruct g as [|r g']; simpl; [lia|].
    apply Nat.mod_upper_bound. lia. }
  destruct (Random.randbelow (length pool) g) as [j g1]. simpl in Hj.
  destruct (lookup_lt_is_Some_2 pool j Hj) as [x Hx]. rewrite Hx.
  destruct (last pool) as [y|] eqn:Hy.
  - specialize (IH (take (pred (length pool)) (<[j := y]> pool)) g1).
    destruct (Random.sample_pool k _ g1) as [rest g2]. simpl in *.
    f_equal. apply IH. rewrite length_take, length_insert. lia.
  - apply last_None in Hy. subst pool. simpl in Hk. lia.
Qed.

Lemma sample_one {A} (population : list A) (g : Random.rng) :
  population <> [] ->
  exists x g', Random.sample population 1 g = Ok ([x], g') /\ x ∈ population.
Proof.
  intros Hne.
  destruct (sample_total population 1 g) as (s & g' & Hs & Hsub).
  { destruct population; [done|]. simpl length. lia. }
  assert (Hlen : length s = 1%nat).
  { unfold Random.sample in Hs.
    destruct ((1 <? 0) || (Z.of_nat (length population) <? 1)); [discriminate|].
    assert (Hs' : Random.sample_pool (Z.to_nat 1) population g = (s, g'))
      by congruence.
    change s with (s, g').1. rewrite <- Hs'. apply sample_pool_length.
    destruct population; [done|simpl; lia]. }
  destruct s as [|x [|? ?]]; try discriminate.
  exists x, g'. split; [exact Hs|]. apply Hsub. by left.
Qed.

Lemma elem_of_easy_neg_pool (rel_clip_ids : list Z) (ctx_l c : Z) :
  c ∈ easy_neg_pool rel_clip_ids ctx_l <->
  0 <= c < ctx_l /\ c ∉ rel_clip_ids.
Proof.
  unfold easy_neg_pool. rewrite list_elem_of_filter, elem_of_range. tauto.
Qed.

Lemma agg_score_lookup (scores : list (list Z)) (i : nat) :
  default 0 (map Np.sumZ scores !! i) = agg_score scores i.
Proof.
  unfold agg_score. rewrite list_lookup_fmap. by destruct (scores !! i).
Qed.

Lemma clip_indices_single (ids : list Z) (ctx_l : Z) (i : nat) (c : Z) :
  ids !! i = Some c -> c < ctx_l -> clip_indices ids ctx_l [i] = Ok [c].
Proof.
  intros Hi Hc. unfold clip_indices. simpl. rewrite Hi. simpl.
  by rewrite Z.min_l by lia.
Qed.

(** The shape of what get_saliency_labels_all returns on clip ids within
    the video. *)
Lemma saliency_labels_all_shape (rel_clip_ids : list Z)
    (scores : list (list Z)) (ctx_l : Z) (g : Random.rng) :
  Forall (fun c => 0 <= c < ctx_l) rel_clip_ids ->
  length scores = length rel_clip_ids ->
  rel_clip_ids <> [] ->
  Np.rectangular scores = true ->
  exists score_array g' i_hi i_lo c_hi c_lo e_pos e_neg,
    get_saliency_labels_all rel_clip_ids scores ctx_l 1 true g
      = Ok ([c_hi; e_pos], [c_lo; e_neg], score_array, g') /\
    rel_clip_ids !! i_hi = Some c_hi /\
    rel_clip_ids !! i_lo = Some c_lo /\
    (forall j, (j < length rel_clip_ids)%nat ->
       agg_score scores i_lo <= agg_score scores j <= agg_score scores i_hi) /\
    e_pos ∈ rel_clip_ids /\
    ((exists c, 0 <= c < ctx_l /\ c ∉ rel_clip_ids) ->
       0 <= e_neg < ctx_l /\ e_neg ∉ rel_clip_ids) /\
    ((forall c, 0 <= c < ctx_l -> c ∈ rel_clip_ids) ->
       e_pos = c_hi /\ e_neg = c_lo).
Proof.
  intros Hin Hlen Hne Hrect.
  assert (Hpos : 0 < ctx_l).
  { destruct rel_clip_ids as [|c ?]; [done|]. apply Forall_cons in Hin as [? _]. lia. }
  assert (Hsne : scores <> []).
  { destruct scores; [|done]. destruct rel_clip_ids; done. }
  set (agg := map Np.sumZ scores).
  assert (Hagg : length agg = length rel_clip_ids)
    by (unfold agg; rewrite length_map; exact Hlen).
  destruct (score_array_loop_in_range ctx_l agg rel_clip_ids 0
              (replicate (Z.to_nat ctx_l) 0) Hin)
    as (arr & Hrun & _).
  { apply length_replicate. }
  { simpl. lia. }
  assert (Hsort : Np.argsort agg <> []).
  { apply nonempty_length. rewrite argsort_length, Hagg.
    destruct rel_clip_ids; [done|simpl; lia]. }
  destruct (last (Np.argsort agg)) as [i_hi|] eqn:Hhi;
    [|by apply last_None in Hhi].
  destruct (head (Np.argsort agg)) as [i_lo|] eqn:Hlo;
    [|by apply head_None in Hlo].
  assert (Hhi_in : i_hi ∈ Np.argsort agg).
  { rewrite last_lookup in Hhi. eapply list_elem_of_lookup_2, Hhi. }
  assert (Hlo_in : i_lo ∈ Np.argsort agg).
  { destruct (Np.argsort agg); [done|]. injection Hlo as ->. by left. }
  destruct (lookup_lt_is_Some_2 rel_clip_ids i_hi) as [c_hi Hchi].
  { rewrite <- Hagg. by apply argsort_bound. }
  destruct (lookup_lt_is_Some_2 rel_clip_ids i_lo) as [c_lo Hclo].
  { rewrite <- Hagg. by apply argsort_bound. }
  rewrite Forall_forall in Hin.
  assert (Hchi_r : 0 <= c_hi < ctx_l)
    by (apply Hin; eapply list_elem_of_lookup_2, Hchi).
  assert (Hclo_r : 0 <= c_lo < ctx_l)
    by (apply Hin; eapply list_elem_of_lookup_2, Hclo).
  assert (Hext : forall j, (j < length rel_clip_ids)%nat ->
            agg_score scores i_lo <= agg_score scores j <= agg_score scores i_hi).
  { intros j Hj. rewrite <- !agg_score_lookup. fold agg.
    assert (Hj_in : j ∈ Np.argsort agg).
    { rewrite argsort_perm. apply elem_of_seq. lia. }
    pose proof (argsort_sorted agg) as Hs. split.
    - by apply (sorted_head_least (fun i => default 0 (agg !! i)) _ _ Hs Hlo).
    - by apply (sorted_last_greatest (fun i => default 0 (agg !! i)) _ _ Hs Hhi). }
  unfold get_saliency_labels_all.
  rewrite (bind_eq_Ok _ _ _ (sum_axis1_rectangular scores Hsne Hrect)).
  fold agg. rewrite zeros_nonneg by lia.
  rewrite (bind_eq_Ok _ _ (replicate (Z.to_nat ctx_l) 0) eq_refl).
  rewrite (bind_eq_Ok _ _ _ Hrun).
  change (- (1)) with (-1).
  rewrite (slice_from_last_eq _ _ Hhi), (slice_to_head_eq _ _ Hlo).
  rewrite (bind_eq_Ok _ _ _ (clip_indices_single _ ctx_l _ _ Hchi (proj2 Hchi_r))).
  rewrite (bind_eq_Ok _ _ _ (clip_indices_single _ ctx_l _ _ Hclo (proj2 Hclo_r))).
  destruct (Z.leb_spec 1 (Z.of_nat (length (easy_neg_pool rel_clip_ids ctx_l))))
    as [Hpool|Hpool].
  - destruct (sample_one rel_clip_ids g Hne) as (ep & g1 & Hep & Hep_in).
    destruct (sample_one (easy_neg_pool rel_clip_ids ctx_l) g1)
      as (en & g2 & Hen & Hen_in).
    { apply nonempty_length. lia. }
    rewrite Hep. simpl. rewrite Hen. simpl.
    exists arr, g2, i_hi, i_lo, c_hi, c_lo, ep, en.
    apply elem_of_easy_neg_pool in Hen_in as [Hr Hn].
    split; [reflexivity|]. do 4 (split; [done|]). split; [done|].
    intros Hall. exfalso. by apply Hn, Hall.
  - simpl. exists arr, g, i_hi, i_lo, c_hi, c_lo, c_hi, c_lo.
    assert (Hnil : easy_neg_pool rel_clip_ids ctx_l = [])
      by (destruct (easy_neg_pool rel_clip_ids ctx_l); [done|simpl in Hpool; lia]).
    split; [reflexivity|]. do 3 (split; [done|]).
    split; [eapply list_elem_of_lookup_2, Hchi|]. split; [|done].
    intros (c & Hc & Hn).
    assert (Hcin : c ∈ easy_neg_pool rel_clip_ids ctx_l)
      by (by apply elem_of_easy_neg_pool).
    rewrite Hnil in Hcin. by apply elem_of_nil in Hcin.
Qed.



(** X5. On clip ids within the video, get_saliency_labels_all returns two
    positive and two negative clip indices. The second positive is a
    relevant clip. When some clip of the video is not relevant, the second
    negative is such a clip; when every clip is relevant, the second
    positive and the second negative repeat the first ones. *)
Theorem easy_clips_are_sampled (rel_clip_ids : list Z)
    (scores : list (list Z)) (ctx_l : Z) (g : Random.rng) :
  Forall (fun c => 0 <= c < ctx_l) rel_clip_ids ->
  length scores = length rel_clip_ids ->
  rel_clip_ids <> [] ->
  Np.rectangular scores = true ->
  exists score_array g' c_hi c_lo e_pos e_neg,
    get_saliency_labels_all rel_clip_ids scores ctx_l 1 true g
      = Ok ([c_hi; e_pos], [c_lo; e_neg], score_array, g') /\
    e_pos ∈ rel_clip_ids /\
    ((exists c, 0 <= c < ctx_l /\ c ∉ rel_clip_ids) ->
       0 <= e_neg < ctx_l /\ e_neg ∉ rel_clip_ids) /\
    ((forall c, 0 <= c < ctx_l -> c ∈ rel_clip_ids) ->
       e_pos = c_hi /\ e_neg = c_lo).
Proof.
  intros Hin Hlen Hne Hrect.
  destruct (saliency_labels_all_shape _ _ _ g Hin Hlen Hne Hrect)
    as (arr & g' & i_hi & i_lo & c_hi & c_lo & ep & en & Hrun & _ & _ & _ & H).
  exists arr, g', c_hi, c_lo, ep, en. auto.
Qed.

Lemma easy_clips_are_sampled_witness :
  exists score_array g' c_hi c_lo e_pos e_neg,
    get_saliency_labels_all [1; 3] [[1; 2; 3]; [0; 1; 0]] 5 1 true [4; 7]%nat
      = Ok ([c_hi; e_pos], [c_lo; e_neg], score_array, g') /\
    e_pos ∈ [1; 3] /\
    ((exists c, 0 <= c < 5 /\ c ∉ [1; 3]) ->
       0 <= e_neg < 5 /\ e_neg ∉ [1; 3]) /\
    ((forall c, 0 <= c < 5 -> c ∈ [1; 3]) ->
       e_pos = c_hi /\ e_neg = c_lo).
Proof.
  apply (easy_clips_are_sampled [1; 3] [[1; 2; 3]; [0; 1; 0]] 5 [4; 7]%nat).
  - repeat constructor; lia.
  - reflexivity.
  - discriminate.
  - reflexivity.
Defined.

(** X6. Whenever get_saliency_labels_all returns, get_saliency_labels,
    called with the same arguments and the same random draws, returns the
    same positive and negative clip indices and leaves the generator in the
    same state. *)
Theorem get_saliency_labels_agrees (rel_clip_ids : list Z)
    (scores : list (list Z)) (ctx_l max_n : Z) (add_easy_negative : bool)
    (g g' : Random.rng) (pos neg score_array : list Z) :
  get_saliency_labels_all rel_clip_ids scores ctx_l max_n add_easy_negative g
    = Ok (pos, neg, score_array, g') ->
  get_saliency_labels rel_clip_ids scores ctx_l max_n add_easy_negative g
    = Ok (pos, neg, g').
Proof.
  unfold get_saliency_labels_all, get_saliency_labels. intros H.
  apply bind_Ok in H as (agg & -> & H). simpl.
  apply bind_Ok in H as (z & _ & H). apply bind_Ok in H as (arr & _ & H).
  apply bind_Ok in H as (hp & -> & H). simpl.
  apply bind_Ok in H as (hn & -> & H). simpl.
  apply bind_Ok in H as ([[ep en] g1] & -> & H). simpl.
  by injection H as <- <- _ <-.
Qed.

Lemma get_saliency_labels_agrees_witness :
  get_saliency_labels [1; 3] [[1; 2; 3]; [0; 1; 0]] 5 1 true [4; 7]%nat
  = Ok ([1; 1], [3; 2], []).
Proof.
  apply (get_saliency_labels_agrees [1; 3] [[1; 2; 3]; [0; 1; 0]] 5 1 true
           [4; 7]%nat [] [1; 1] [3; 2] [0; 6; 0; 1; 0]).
  reflexivity.
Defined.

Lemma sample_subseteq {A} (population s : list A) (k : Z) (g g' : Random.rng) :
  Random.sample population k g = Ok (s, g') -> s ⊆ population.
Proof.
  unfold Random.sample. destruct (_ || _); [discriminate|]. intros H.
  assert (H' : Random.sample_pool (Z.to_nat k) population g = (s, g'))
    by congruence.
  change s with (s, g').1. rewrite <- H'. apply sample_pool_subseteq.
Qed.

(** X7. Whenever get_saliency_labels returns, every positive and negative
    clip index it returns is below ctx_l or a relevant clip id. The example
    is one with a clip id beyond ctx_l, where the function, which builds no
    score array, returns all the same. *)
Theorem get_saliency_labels_bounded (rel_clip_ids : list Z)
    (scores : list (list Z)) (ctx_l : Z) (g g' : Random.rng)
    (pos neg : list Z) :
  get_saliency_labels rel_clip_ids scores ctx_l 1 true g = Ok (pos, neg, g') ->
  Forall (fun p => p < ctx_l \/ p ∈ rel_clip_ids) (pos ++ neg).
Proof.
  unfold get_saliency_labels. intros H.
  apply bind_Ok in H as (agg & _ & H).
  apply bind_Ok in H as (hp & Hhp & H). apply bind_Ok in H as (hn & Hhn & H).
  assert (Hclamp : forall l r, clip_indices rel_clip_ids ctx_l l = Ok r ->
            Forall (fun p => p < ctx_l \/ p ∈ rel_clip_ids) r).
  { intros l r Hr. apply mapR_Forall2 in Hr.
    induction Hr as [|i p l r Hp _ IH]; constructor; [|exact IH].
    apply bind_Ok in Hp as (c & _ & Hp). injection Hp as <-. left. lia. }
  apply bind_Ok in H as ([[ep en] g1] & He & H). injection H as <- <- _.
  assert (Hhp' := Hclamp _ _ Hhp). assert (Hhn' := Hclamp _ _ Hhn).
  assert (Heasy : Forall (fun p => p < ctx_l \/ p ∈ rel_clip_ids) ep /\
                  Forall (fun p => p < ctx_l \/ p ∈ rel_clip_ids) en).
  { destruct (1 <=? Z.of_nat (length (easy_neg_pool rel_clip_ids ctx_l))).
    - apply bind_Ok in He as ([ep' g2] & Hep & He).
      apply bind_Ok in He as ([en' g3] & Hen & He). injection He as <- <- _.
      apply sample_subseteq in Hep as Hs1. apply sample_subseteq in Hen as Hs2.
      split; apply Forall_forall.
      + intros p Hp. right. by apply Hs1.
      + intros p Hp. left. apply Hs2, elem_of_easy_neg_pool in Hp. lia.
    - by injection He as <- <- _. }
  destruct Heasy. rewrite !Forall_app. auto.
Qed.

Lemma get_saliency_labels_bounded_witness :
  Forall (fun p => p < 2 \/ p ∈ [3]) ([1; 3] ++ [1; 0]).
Proof.
  apply (get_saliency_labels_bounded [3] [[1; 1; 1]] 2 [] [] [1; 3] [1; 0]).
  reflexivity.
Defined.

(** ** The clips of get_saliency_labels_sub_as_query *)








(** ** The tvsum and youtube constructors *)

Lemma sum_minus_ones_row (row : list Z) :
  Np.sumZ (map (fun x => x - 1) row) = tvsum_agg row.
Proof.
  unfold tvsum_agg. induction row as [|x row IH]; simpl; [done|].
  unfold Np.sumZ in *. simpl. lia.
Qed.

Lemma sum_minus_ones_rectangular (labels : list (list Z)) :
  labels <> [] -> Np.rectangular labels = true ->
  sum_minus_ones labels = Ok (map tvsum_agg labels).
Proof.
  intros Hne Hrect. unfold sum_minus_ones. destruct labels; [done|].
  rewrite Hrect. f_equal. apply map_ext. intros row. apply sum_minus_ones_row.
Qed.

Lemma slice_to_take {A} (l : list A) (n : Z) :
  0 <= n -> Py.slice_to l n = take (Z.to_nat n) l.
Proof.
  intros H. unfold Py.slice_to, Py.slice_bound.
  replace (n <? 0) with false by (symmetry; apply Z.ltb_ge; lia).
  destruct (Nat.min_spec (Z.to_nat n) (length l)) as [[_ ->]|[Hle ->]]; [done|].
  by rewrite !take_ge by lia.
Qed.



Lemma first_column_total (labels : list (list Z)) :
  labels <> [] -> Np.rectangular labels = true ->
  Forall (fun row => row <> []) labels ->
  exists col, first_column labels = Ok col /\
              Forall2 (fun row x => head row = Some x) labels col.
Proof.
  intros Hne Hrect Hrows. unfold first_column.
  destruct labels as [|r rs] eqn:E; [done|]. rewrite <- E in *. rewrite Hrect.
  clear E Hne Hrect. induction Hrows as [|row l Hrow _ (col & Hcol & Hall)].
  - exists []. split; [reflexivity|constructor].
  - destruct row as [|x row]; [done|]. simpl. rewrite Hcol. simpl.
    exists (x :: col). split; [reflexivity|]. by constructor.
Qed.

(** X11. For labels with one non-empty row per clip, all of one length,
    get_saliency_labels_all_youtube returns, whatever ctx_l is: the score
    array has one entry per row of labels, the first score of the row (it is
    not cut to ctx_l), and the one positive and the one negative index are
    at most ctx_l - 1. *)
Theorem youtube_scores (labels : list (list Z)) (ctx_l : Z) :
  labels <> [] -> Np.rectangular labels = true ->
  Forall (fun row => row <> []) labels ->
  exists p n score_array,
    get_saliency_labels_all_youtube labels ctx_l 1 false
      = Ok ([p], [n], score_array) /\
    Forall2 (fun row s => exists x, head row = Some x /\ s = (inject_Z x * 1)%Q)
            labels score_array /\
    p <= ctx_l - 1 /\ n <= ctx_l - 1.
Proof.
  intros Hne Hrect Hrows. unfold get_saliency_labels_all_youtube.
  destruct (first_column_total labels Hne Hrect Hrows) as (col & Hcol & Hall).
  rewrite (bind_eq_Ok _ _ _ Hcol).
  assert (Hsort : Np.argsort col <> []).
  { apply nonempty_length. rewrite argsort_length.
    apply Forall2_length in Hall. rewrite <- Hall.
    destruct labels; [done|simpl; lia]. }
  destruct (last (Np.argsort col)) as [i_hi|] eqn:Hhi;
    [|by apply last_None in Hhi].
  destruct (head (Np.argsort col)) as [i_lo|] eqn:Hlo;
    [|by apply head_None in Hlo].
  change (- (1)) with (-1).
  rewrite (slice_from_last_eq _ _ Hhi), (slice_to_head_eq _ _ Hlo).
  unfold clamp_indices. cbn [map mbind result_bind app].
  do 3 eexists. split; [reflexivity|]. split; [|lia].
  apply Forall2_fmap_r. eapply Forall2_impl; [exact Hall|].
  intros row x Hx. simpl in *. exists x. by split.
Qed.

Lemma youtube_scores_witness :
  exists p n score_array,
    get_saliency_labels_all_youtube [[1]; [0]; [1]] 2 1 false
      = Ok ([p], [n], score_array) /\
    Forall2 (fun row s => exists x, head row = Some x /\ s = (inject_Z x * 1)%Q)
            [[1]; [0]; [1]] score_array /\
    p <= 2 - 1 /\ n <= 2 - 1.
Proof.
  apply (youtube_scores [[1]; [0]; [1]] 2).
  - discriminate.
  - reflexivity.
  - repeat constructor; discriminate.
Defined.

(** X12. With add_easy_negative set, get_saliency_labels_all_tvsum and
    get_saliency_labels_all_youtube raise NameError as soon as ctx_l is at
    least 1: the branch samples from rel_clip_ids, a name that neither
    function binds. *)
Theorem easy_negative_raises_name_error (labels : list (list Z)) (ctx_l : Z) :
  labels <> [] -> Np.rectangular labels = true ->
  Forall (fun row => row <> []) labels ->
  1 <= ctx_l ->
  get_saliency_labels_all_tvsum labels ctx_l 1 true = Raise NameError /\
  get_saliency_labels_all_youtube labels ctx_l 1 true = Raise NameError.
Proof.
  intros Hne Hrect Hrows Hctx.
  assert (Hunbound : forall hp hn,
            easy_unbound ctx_l 1 hp hn = Raise NameError).
  { intros hp hn. unfold easy_unbound. rewrite length_range.
    by replace (1 <=? Z.of_nat (Z.to_nat (ctx_l - 0))) with true
      by (symmetry; apply Z.leb_le; lia). }
  split.
  - unfold get_saliency_labels_all_tvsum.
    rewrite (bind_eq_Ok _ _ _ (sum_minus_ones_rectangular labels Hne Hrect)).
    cbv zeta. by rewrite Hunbound.
  - unfold get_saliency_labels_all_youtube.
    destruct (first_column_total labels Hne Hrect Hrows) as (col & Hcol & _).
    rewrite (bind_eq_Ok _ _ _ Hcol). cbv zeta. by rewrite Hunbound.
Qed.

Lemma easy_negative_raises_name_error_witness :
  get_saliency_labels_all_tvsum [[1; 2]; [3; 4]] 2 1 true = Raise NameError /\
  get_saliency_labels_all_youtube [[1; 2]; [3; 4]] 2 1 true = Raise NameError.
Proof.
  apply (easy_negative_raises_name_error [[1; 2]; [3; 4]] 2).
  - discriminate.
  - reflexivity.
  - repeat constructor; discriminate.
  - lia.
Defined.

(** ** The constructor and the records it keeps *)

Lemma filter_domain_total (dom : string) (l : list Meta.annotation) :
  Forall (fun d => is_Some (Meta.domain d)) l ->
  filter_domain dom l = Ok (filter (fun d => Meta.domain d = Some dom) l).
Proof.
  induction 1 as [|d l [dd Hd] _ IH]; [reflexivity|].
  unfold filter_domain in *. simpl. rewrite IH. simpl. rewrite Hd. simpl.
  rewrite filter_cons, Hd.
  destruct (String.eqb_spec dd dom) as [->|Hne].
  - by rewrite decide_True.
  - by rewrite decide_False by congruence.
Qed.

Lemma filter_domain_Ok (dom : string) (l r : list Meta.annotation) :
  filter_domain dom l = Ok r -> Forall (fun d => is_Some (Meta.domain d)) l.
Proof.
  revert r. induction l as [|d l IH]; intros r H; [constructor|].
  unfold filter_domain in H. simpl in H.
  apply bind_Ok in H as (r' & Hr' & H). apply bind_Ok in H as (dd & Hdd & _).
  constructor; [|by eapply IH].
  destruct (Meta.domain d); [eauto|discriminate].
Qed.


(** X14. When __init__ returns, the dataset holds, in file order, every
    record of the annotation file, except for tvsum and youtube_highlight,
    where it holds the records whose domain is the dataset's domain; __len__
    is the number of these records. *)
Theorem init_keeps_domain (disk : Disk) (a : init_args)
    (self : CGDETR_StartEndDataset) (records : list Meta.annotation) :
  init disk a = Ok self ->
  load_jsonl disk (a_data_path a) = Ok records ->
  data self =
    (if is_highlight_set (a_dset_name a)
     then filter (fun d => Meta.domain d = Some (a_domain a)) records
     else records) /\
  len self = length (data self).
Proof.
  unfold init, load_data. intros H Hload.
  destruct (bool_decide (a_q_feat_type a ∈ Q_FEAT_TYPES)); [|discriminate].
  simpl in H. rewrite Hload in H. simpl in H.
  apply bind_Ok in H as (kept & Hkept & H). injection H as <-. simpl.
  split; [|reflexivity].
  destruct (is_highlight_set (a_dset_name a)).
  - pose proof (filter_domain_Ok _ _ _ Hkept) as Hdom.
    rewrite filter_domain_total in Hkept by exact Hdom. congruence.
  - congruence.
Qed.

Lemma init_keeps_domain_witness :
  exists self,
    init InitExample.disk InitExample.args = Ok self /\
    data self =
      (if is_highlight_set (a_dset_name InitExample.args)
       then filter (fun d => Meta.domain d = Some (a_domain InitExample.args))
              [InitExample.record 1 "VT"; InitExample.record 2 "BK";
               InitExample.record 3 "VT"]
       else [InitExample.record 1 "VT"; InitExample.record 2 "BK";
             InitExample.record 3 "VT"]) /\
    len self = length (data self).
Proof.
  destruct (init InitExample.disk InitExample.args) as [self|e] eqn:E.
  - exists self. split; [reflexivity|].
    apply (init_keeps_domain InitExample.disk InitExample.args self); [exact E|].
    reflexivity.
  - assert (H : is_Ok (init InitExample.disk InitExample.args) = true)
      by (vm_compute; reflexivity).
    rewrite E in H. discriminate H.
Defined.

(** ** __getitem__ *)

Lemma getitem_stages (disk : Disk) (self : CGDETR_StartEndDataset)
    (index : Z) (g : Random.rng) :
  getitem disk self index g =
  (k ← Py.norm_index (length (data self)) index;
   meta ← of_option IndexError (data self !! k);
   query_feat ← query_stage disk self meta;
   '(model_inputs, ctx_l) ←
     video_stage disk self meta {["query_feat" := VTensor query_feat]};
   model_inputs ← tef_stage self ctx_l model_inputs;
   '(model_inputs, meta, g) ← label_stage self meta model_inputs ctx_l g;
   Ok (mkItem meta
         (<["qid" := VInt (Meta.qid meta)]>
            (<["vid" := VStr (Meta.vid meta)]> model_inputs)),
       set_data self (<[k := meta]> (data self)), g)).
Proof. reflexivity. Qed.

Lemma getitem_inv (disk : Disk) (self self' : CGDETR_StartEndDataset)
    (index : Z) (g g' : Random.rng) (it : item) :
  getitem disk self index g = Ok (it, self', g') ->
  exists k m query_feat mi1 ctx_l mi2 mi3,
    Py.norm_index (length (data self)) index = Ok k /\
    data self !! k = Some m /\
    query_stage disk self m = Ok query_feat /\
    video_stage disk self m {["query_feat" := VTensor query_feat]}
      = Ok (mi1, ctx_l) /\
    tef_stage self ctx_l mi1 = Ok mi2 /\
    label_stage self m mi2 ctx_l g = Ok (mi3, meta it, g') /\
    model_inputs it = <["qid" := VInt (Meta.qid (meta it))]>
                        (<["vid" := VStr (Meta.vid (meta it))]> mi3) /\
    data self' = <[k := meta it]> (data self).
Proof.
  rewrite getitem_stages. intros H.
  apply bind_Ok in H as (k & Hk & H). apply bind_Ok in H as (m & Hm & H).
  apply bind_Ok in H as (q & Hq & H).
  apply bind_Ok in H as ([mi1 ctx_l] & H1 & H).
  apply bind_Ok in H as (mi2 & H2 & H).
  apply bind_Ok in H as ([[mi3 m'] g1] & H3 & H). injection H as <- <- <-.
  exists k, m, q, mi1, ctx_l, mi2, mi3. simpl.
  repeat (split; [done|]). split; [|done].
  by destruct (data self !! k); simplify_eq/=.
Qed.

Lemma norm_index_negative (n : nat) (i : Z) :
  0 <= i < Z.of_nat n ->
  Py.norm_index n (i - Z.of_nat n) = Ok (Z.to_nat i).
Proof.
  intros H. unfold Py.norm_index.
  replace (i - Z.of_nat n <? - Z.of_nat n) with false
    by (symmetry; apply Z.ltb_ge; lia).
  replace (Z.of_nat n <=? i - Z.of_nat n) with false
    by (symmetry; apply Z.leb_gt; lia).
  replace (i - Z.of_nat n <? 0) with true by (symmetry; apply Z.ltb_lt; lia).
  simpl. f_equal. lia.
Qed.

(** X15. __getitem__ reads negative indices from the end, as a list does:
    for 0 <= i < len, index i - len gives what index i gives. *)
Theorem getitem_negative_index (disk : Disk) (self : CGDETR_StartEndDataset)
    (i : Z) (g : Random.rng) :
  0 <= i < Z.of_nat (len self) ->
  getitem disk self (i - Z.of_nat (len self)) g = getitem disk self i g.
Proof.
  intros H. rewrite !getitem_stages. unfold len in *.
  by rewrite norm_index_negative, norm_index_in_range.
Qed.

Lemma getitem_negative_index_witness :
  getitem Examples.disk Examples.qv2 (0 - Z.of_nat (len Examples.qv2)) []
  = getitem Examples.disk Examples.qv2 0 [].
Proof.
  apply (getitem_negative_index Examples.disk Examples.qv2 0 []).
  unfold len. simpl. lia.
Defined.

Lemma window_labels_reordered (self : CGDETR_StartEndDataset)
    (m m' : Meta.annotation) (mi mi' : gmap string value) (ctx_l : Z)
    (g g' : Random.rng) :
  window_labels self m mi ctx_l g = Ok (mi', m', g') -> reordered m m'.
Proof.
  unfold window_labels, reordered. intros H.
  apply bind_Ok in H as ([[mi1 m1] g1] & H1 & H).
  assert (Hm' : m' = m1).
  { destruct (String.eqb (dset_name self) "qvhighlight").
    - apply bind_Ok in H as (? & _ & H). by injection H as _ <- _.
    - by injection H as _ <- _. }
  subst m1. destruct (Meta.relevant_windows m) as [ws|] eqn:Hws.
  - apply bind_Ok in H1 as ([[spans passed] g2] & Hspans & H1).
    exists passed. split.
    + unfold get_span_labels in Hspans.
      destruct (max_windows self <? Z.of_nat (length ws)).
      * pose proof (shuffle_perm ws g) as Hp.
        destruct (Random.shuffle ws g) as [sh gs]. simpl in Hp.
        destruct (String.eqb (span_loss_type self) "l1").
        -- by injection Hspans as _ <- _.
        -- destruct (String.eqb (span_loss_type self) "ce"); [|discriminate].
           apply bind_Ok in Hspans as (? & _ & Hspans).
           by injection Hspans as _ <- _.
      * destruct (String.eqb (span_loss_type self) "l1").
        -- by injection Hspans as _ <- _.
        -- destruct (String.eqb (span_loss_type self) "ce"); [|discriminate].
           apply bind_Ok in Hspans as (? & _ & Hspans).
           by injection Hspans as _ <- _.
    + destruct (String.eqb (dset_name self) "qvhighlight").
      * apply bind_Ok in H1 as (? & _ & H1). apply bind_Ok in H1 as (? & _ & H1).
        apply bind_Ok in H1 as ([[[? ?] ?] ?] & _ & H1). by injection H1 as _ <- _.
      * destruct (bool_decide _); [|discriminate].
        apply bind_Ok in H1 as (? & _ & H1).
        apply bind_Ok in H1 as ([[[? ?] ?] ?] & _ & H1). by injection H1 as _ <- _.
  - by injection H1 as _ <- _.
Qed.

Lemma reordered_refl (m : Meta.annotation) : reordered m m.
Proof.
  unfold reordered. destruct (Meta.relevant_windows m) as [ws|] eqn:E; [|done].
  exists ws. split; [done|]. destruct m. simpl in E. by rewrite E.
Qed.

Lemma label_stage_reordered (self : CGDETR_StartEndDataset)
    (m m' : Meta.annotation) (mi mi' : gmap string value) (ctx_l : Z)
    (g g' : Random.rng) :
  label_stage self m mi ctx_l g = Ok (mi', m', g') -> reordered m m'.
Proof.
  unfold label_stage. intros H.
  destruct (load_labels self).
  - destruct (String.eqb (dset_name self) "tvsum").
    { apply bind_Ok in H as (? & _ & H). injection H as _ <- _.
      apply reordered_refl. }
    destruct (String.eqb (dset_name self) "youtube_highlight").
    { apply bind_Ok in H as (? & _ & H). injection H as _ <- _.
      apply reordered_refl. }
    by eapply window_labels_reordered.
  - injection H as _ <- _. apply reordered_refl.
Qed.

(** X16. Whenever __getitem__ returns, the stored records are as before
    except the one that was read, and that one differs from before at most
    in the order of its relevant windows; the meta of the returned item is
    that stored record. *)
Theorem getitem_only_reorders (disk : Disk)
    (self self' : CGDETR_StartEndDataset) (index : Z) (g g' : Random.rng)
    (it : item) :
  getitem disk self index g = Ok (it, self', g') ->
  exists k m,
    Py.norm_index (length (data self)) index = Ok k /\
    data self !! k = Some m /\
    data self' = <[k := meta it]> (data self) /\
    reordered m (meta it).
Proof.
  intros H. apply getitem_inv in H
    as (k & m & q & mi1 & ctx_l & mi2 & mi3 & Hk & Hm & _ & _ & _ & H3 & _ & Hd).
  exists k, m. repeat (split; [done|]). by eapply label_stage_reordered.
Qed.

Lemma getitem_only_reorders_witness :
  exists it self' g',
    getitem Examples.disk Examples.qv2 0 [] = Ok (it, self', g') /\
    exists k m,
      Py.norm_index (length (data Examples.qv2)) 0 = Ok k /\
      data Examples.qv2 !! k = Some m /\
      data self' = <[k := meta it]> (data Examples.qv2) /\
      reordered m (meta it).
Proof.
  destruct (getitem Examples.disk Examples.qv2 0 []) as [[[it self'] g']|e] eqn:E.
  - exists it, self', g'. split; [reflexivity|].
    exact (getitem_only_reorders Examples.disk Examples.qv2 self' 0 [] g' it E).
  - assert (H : is_Ok (getitem Examples.disk Examples.qv2 0 []) = true)
      by (vm_compute; reflexivity).
    rewrite E in H. discriminate H.
Defined.

Lemma not_label_key (k : string) :
  k ∉ label_keys ->
  k <> "span_labels" /\ k <> "saliency_pos_labels" /\
  k <> "saliency_neg_labels" /\ k <> "saliency_all_labels" /\
  k <> "relevant_clip_ids".
Proof.
  unfold label_keys. rewrite !not_elem_of_cons. tauto.
Qed.

Lemma set_saliency_frame (mi : gmap string value) (pos neg : list Z)
    (all : ndarray) (k : string) :
  k ∉ label_keys -> set_saliency mi pos neg all !! k = mi !! k.
Proof.
  intros Hk. apply not_label_key in Hk as (N1 & N2 & N3 & N4 & N5).
  unfold set_saliency. by rewrite !lookup_insert_ne.
Qed.

Lemma window_labels_frame (self : CGDETR_StartEndDataset)
    (m m' : Meta.annotation) (mi mi' : gmap string value) (ctx_l : Z)
    (g g' : Random.rng) (k : string) :
  window_labels self m mi ctx_l g = Ok (mi', m', g') ->
  k ∉ label_keys -> mi' !! k = mi !! k.
Proof.
  unfold window_labels. intros H Hk.
  pose proof (not_label_key k Hk) as (N1 & N2 & N3 & N4 & N5).
  apply bind_Ok in H as ([[mi1 m1] g1] & H1 & H).
  assert (H1' : mi1 !! k = mi !! k).
  { destruct (Meta.relevant_windows m) as [ws|].
    - apply bind_Ok in H1 as ([[spans passed] g2] & _ & H1).
      destruct (String.eqb (dset_name self) "qvhighlight").
      + apply bind_Ok in H1 as (? & _ & H1). apply bind_Ok in H1 as (? & _ & H1).
        apply bind_Ok in H1 as ([[[? ?] ?] ?] & _ & H1). injection H1 as <- _ _.
        by rewrite set_saliency_frame, lookup_insert_ne.
      + destruct (bool_decide _); [|discriminate].
        apply bind_Ok in H1 as (? & _ & H1).
        apply bind_Ok in H1 as ([[[? ?] ?] ?] & _ & H1). injection H1 as <- _ _.
        by rewrite set_saliency_frame, lookup_insert_ne.
    - by injection H1 as <- _ _. }
  destruct (String.eqb (dset_name self) "qvhighlight").
  - apply bind_Ok in H as (? & _ & H). injection H as <- _ _.
    by rewrite lookup_insert_ne.
  - by injection H as <- _ _.
Qed.

Lemma label_stage_frame (self : CGDETR_StartEndDataset)
    (m m' : Meta.annotation) (mi mi' : gmap string value) (ctx_l : Z)
    (g g' : Random.rng) (k : string) :
  label_stage self m mi ctx_l g = Ok (mi', m', g') ->
  k ∉ label_keys ->
  k <> "video_feat" \/ dset_name self <> "tvsum" ->
  mi' !! k = mi !! k.
Proof.
  unfold label_stage. intros H Hk Hv.
  pose proof (not_label_key k Hk) as (N1 & N2 & N3 & N4 & N5).
  destruct (load_labels self); [|by injection H as <- _ _].
  destruct (String.eqb_spec (dset_name self) "tvsum") as [Etv|_].
  { destruct Hv as [Hv|Hv]; [|done].
    apply bind_Ok in H as (mi1 & H1 & H). injection H as <- _ _.
    unfold tvsum_labels in H1.
    apply bind_Ok in H1 as (? & _ & H1).
    apply bind_Ok in H1 as ([[? ?] ?] & _ & H1).
    apply bind_Ok in H1 as (? & _ & H1). apply bind_Ok in H1 as (? & _ & H1).
    destruct (negb _).
    - apply bind_Ok in H1 as (? & _ & H1). injection H1 as <-.
      by rewrite lookup_insert_ne, set_saliency_frame, lookup_insert_ne.
    - injection H1 as <-. by rewrite set_saliency_frame, lookup_insert_ne. }
  destruct (String.eqb (dset_name self) "youtube_highlight").
  { apply bind_Ok in H as (mi1 & H1 & H). injection H as <- _ _.
    unfold youtube_labels in H1.
    apply bind_Ok in H1 as (? & _ & H1).
    apply bind_Ok in H1 as ([[? ?] ?] & _ & H1). injection H1 as <-.
    by rewrite set_saliency_frame, lookup_insert_ne. }
  by eapply window_labels_frame.
Qed.

Lemma tef_stage_frame (self : CGDETR_StartEndDataset) (ctx_l : Z)
    (mi mi' : gmap string value) (k : string) :
  tef_stage self ctx_l mi = Ok mi' -> k <> "video_feat" -> mi' !! k = mi !! k.
Proof.
  unfold tef_stage. intros H Hk. destruct (use_tef self); [|by injection H as <-].
  apply bind_Ok in H as (rows & _ & H). destruct (use_video self).
  - apply bind_Ok in H as (vf & _ & H). destruct (negb _); [discriminate|].
    apply bind_Ok in H as (? & _ & H). injection H as <-.
    by rewrite lookup_insert_ne.
  - injection H as <-. by rewrite lookup_insert_ne.
Qed.

Lemma video_stage_frame (disk : Disk) (self : CGDETR_StartEndDataset)
    (m : Meta.annotation) (mi mi' : gmap string value) (ctx_l : Z) (k : string) :
  video_stage disk self m mi = Ok (mi', ctx_l) ->
  k <> "video_feat" -> mi' !! k = mi !! k.
Proof.
  unfold video_stage. intros H Hk. destruct (use_video self).
  - apply bind_Ok in H as (vf & _ & H). apply bind_Ok in H as (n & _ & H).
    injection H as <- _. by rewrite lookup_insert_ne.
  - by injection H as <- _.
Qed.

Lemma reordered_ids (m m' : Meta.annotation) :
  reordered m m' ->
  Meta.vid m' = Meta.vid m /\ Meta.qid m' = Meta.qid m /\
  Meta.query m' = Meta.query m.
Proof.
  unfold reordered. destruct (Meta.relevant_windows m).
  - by intros (ws' & _ & ->).
  - by intros ->.
Qed.

(** X17. Every item that __getitem__ returns carries the vid and the qid of
    the record that was read, and as query_feat the tensor that the query
    loader gave for that record: no later step of the method overwrites
    them. *)
Theorem getitem_identifiers (disk : Disk)
    (self self' : CGDETR_StartEndDataset) (index : Z) (g g' : Random.rng)
    (it : item) :
  getitem disk self index g = Ok (it, self', g') ->
  exists k m query_feat,
    Py.norm_index (length (data self)) index = Ok k /\
    data self !! k = Some m /\
    model_inputs it !! "vid" = Some (VStr (Meta.vid m)) /\
    model_inputs it !! "qid" = Some (VInt (Meta.qid m)) /\
    query_stage disk self m = Ok query_feat /\
    model_inputs it !! "query_feat" = Some (VTensor query_feat).
Proof.
  intros H. apply getitem_inv in H
    as (k & m & q & mi1 & ctx_l & mi2 & mi3 & Hk & Hm & Hq & H1 & H2 & H3 & Hmi & _).
  pose proof (label_stage_reordered _ _ _ _ _ _ _ _ H3) as Hre.
  apply reordered_ids in Hre as (Hvid & Hqid & _).
  exists k, m, q. rewrite Hmi, Hvid, Hqid.
  repeat (split; [done|]).
  split; [by rewrite lookup_insert_ne, lookup_insert_eq|].
  split; [by rewrite lookup_insert_eq|]. split; [done|].
  rewrite !lookup_insert_ne by done.
  assert (Hnot : "query_feat" ∉ label_keys)
    by (apply (bool_decide_unpack _); by vm_compute).
  rewrite (label_stage_frame _ _ _ _ _ _ _ _ "query_feat" H3 Hnot)
    by (by left).
  rewrite (tef_stage_frame _ _ _ _ "query_feat" H2) by done.
  rewrite (video_stage_frame _ _ _ _ _ _ "query_feat" H1) by done.
  apply lookup_singleton_eq.
Qed.

Lemma getitem_identifiers_witness :
  exists it self' g',
    getitem Examples.disk Examples.qv2 0 [] = Ok (it, self', g') /\
    exists k m query_feat,
      Py.norm_index (length (data Examples.qv2)) 0 = Ok k /\
      data Examples.qv2 !! k = Some m /\
      model_inputs it !! "vid" = Some (VStr (Meta.vid m)) /\
      model_inputs it !! "qid" = Some (VInt (Meta.qid m)) /\
      query_stage Examples.disk Examples.qv2 m = Ok query_feat /\
      model_inputs it !! "query_feat" = Some (VTensor query_feat).
Proof.
  destruct (getitem Examples.disk Examples.qv2 0 []) as [[[it self'] g']|e] eqn:E.
  - exists it, self', g'. split; [reflexivity|].
    exact (getitem_identifiers Examples.disk Examples.qv2 self' 0 [] g' it E).
  - assert (H : is_Ok (getitem Examples.disk Examples.qv2 0 []) = true)
      by (vm_compute; reflexivity).
    rewrite E in H. discriminate H.
Defined.

(** X18. With load_labels off, an item that __getitem__ returns has no entry
    besides query_feat, video_feat, vid and qid; the call draws no random
    number and leaves the stored records as they were. *)
Theorem getitem_without_labels (disk : Disk)
    (self self' : CGDETR_StartEndDataset) (index : Z) (g g' : Random.rng)
    (it : item) :
  load_labels self = false ->
  getitem disk self index g = Ok (it, self', g') ->
  g' = g /\ data self' = data self /\
  forall k, is_Some (model_inputs it !! k) ->
            k ∈ ["query_feat"; "video_feat"; "vid"; "qid"].
Proof.
  intros Hl H. apply getitem_inv in H
    as (k & m & q & mi1 & ctx_l & mi2 & mi3 & Hk & Hm & Hq & H1 & H2 & H3 & Hmi & Hd).
  unfold label_stage in H3. rewrite Hl in H3. injection H3 as <- Hmeta <-.
  split; [done|]. split.
  { rewrite Hd, <- Hmeta. by apply list_insert_id. }
  intros key Hkey. rewrite Hmi in Hkey.
  destruct (decide (key ∈ ["query_feat"; "video_feat"; "vid"; "qid"]))
    as [|Hnot]; [done|].
  rewrite !not_elem_of_cons in Hnot. destruct Hnot as (N1 & N2 & N3 & N4 & _).
  rewrite !lookup_insert_ne in Hkey by done.
  rewrite (tef_stage_frame _ _ _ _ key H2) in Hkey by done.
  rewrite (video_stage_frame _ _ _ _ _ _ key H1) in Hkey by done.
  rewrite lookup_singleton_ne in Hkey by done. by destruct Hkey.
Qed.

Lemma getitem_without_labels_witness :
  exists it self' g',
    getitem Examples.disk
      (mkDataset "qvhighlight" "a.jsonl" "" 1 ["f"] "q" "last_hidden_state"
         32 75 "video_tef" true true true true false 2 2 "l1"
         [Examples.record3] false) 0 [3]%nat = Ok (it, self', g') /\
    g' = [3]%nat /\ data self' = [Examples.record3] /\
    forall k, is_Some (model_inputs it !! k) ->
              k ∈ ["query_feat"; "video_feat"; "vid"; "qid"].
Proof.
  set (ds := mkDataset "qvhighlight" "a.jsonl" "" 1 ["f"] "q"
         "last_hidden_state" 32 75 "video_tef" true true true true false 2 2
         "l1" [Examples.record3] false).
  destruct (getitem Examples.disk ds 0 [3]%nat) as [[[it self'] g']|e] eqn:E.
  - exists it, self', g'. split; [reflexivity|].
    exact (getitem_without_labels Examples.disk ds self' 0 [3]%nat g' it
             eq_refl E).
  - assert (H : is_Ok (getitem Examples.disk ds 0 [3]%nat) = true)
      by (vm_compute; reflexivity).
    rewrite E in H. discriminate H.
Defined.

(** X19. With load_labels on, __getitem__ does not return for a record that
    has relevant windows when the dataset name is none of tvsum,
    youtube_highlight, qvhighlight, charades, tacos and activitynet; the
    name nlq, which get_saliency_labels_sub_as_query tests for, is among
    those it does not serve. *)
Theorem getitem_unknown_dataset (disk : Disk) (self : CGDETR_StartEndDataset)
    (index : Z) (g : Random.rng) (k : nat) (m : Meta.annotation) :
  load_labels self = true ->
  dset_name self ∉ ["tvsum"; "youtube_highlight"; "qvhighlight";
                    "charades"; "tacos"; "activitynet"] ->
  Py.norm_index (length (data self)) index = Ok k ->
  data self !! k = Some m ->
  is_Some (Meta.relevant_windows m) ->
  is_Ok (getitem disk self index g) = false.
Proof.
  intros Hl Hname Hk Hm [ws Hws].
  destruct (getitem disk self index g) as [[[it self'] g']|e] eqn:E; [|done].
  exfalso. apply getitem_inv in E
    as (k' & m' & q & mi1 & ctx_l & mi2 & mi3 & Hk' & Hm' & _ & _ & _ & H3 & _).
  rewrite Hk in Hk'. injection Hk' as <-. rewrite Hm in Hm'. injection Hm' as <-.
  rewrite !not_elem_of_cons in Hname.
  destruct Hname as (N1 & N2 & N3 & N4 & N5 & N6 & _).
  unfold label_stage in H3. rewrite Hl in H3.
  rewrite (proj2 (String.eqb_neq _ _) N1), (proj2 (String.eqb_neq _ _) N2) in H3.
  unfold window_labels in H3. rewrite Hws in H3.
  apply bind_Ok in H3 as (r & H3 & _).
  apply bind_Ok in H3 as ([[spans passed] g2] & _ & H3).
  rewrite (proj2 (String.eqb_neq _ _) N3) in H3.
  rewrite bool_decide_eq_false_2 in H3; [discriminate|].
  rewrite !elem_of_cons. intros [?|[?|[?|Hnil]]]; try done.
  by apply elem_of_nil in Hnil.
Qed.

Lemma getitem_unknown_dataset_witness :
  is_Ok (getitem Examples.disk (Examples.dataset "nlq" 5 [Examples.record3])
           0 []) = false.
Proof.
  apply (getitem_unknown_dataset Examples.disk
           (Examples.dataset "nlq" 5 [Examples.record3]) 0 [] 0%nat
           Examples.record3).
  - reflexivity.
  - apply (bool_decide_unpack _). by vm_compute.
  - reflexivity.
  - reflexivity.
  - by eexists.
Defined.

(** ** The temporal-endpoint feature *)

Lemma tef_rows (ctx_l : Z) :
  0 < ctx_l ->
  exists rows,
    tef ctx_l = Ok rows /\
    length rows = Z.to_nat ctx_l /\
    forall (i : nat) s e, rows !! i = Some (s, e) ->
      (s == inject_Z (Z.of_nat i) / inject_Z ctx_l)%Q /\
      (e == inject_Z (Z.of_nat i + 1) / inject_Z ctx_l)%Q.
Proof.
  intros Hctx. unfold tef.
  replace (ctx_l <? 0) with false by (symmetry; apply Z.ltb_ge; lia).
  replace (ctx_l =? 0) with false by (symmetry; apply Z.eqb_neq; lia).
  eexists. split; [reflexivity|].
  split; [by rewrite length_map, length_range; f_equal; lia|].
  intros i s e Hi. rewrite list_lookup_fmap in Hi.
  unfold Py.range in Hi. rewrite list_lookup_fmap in Hi.
  destruct (seq 0 (Z.to_nat (ctx_l - 0)) !! i) as [j|] eqn:Hj; [|discriminate].
  apply lookup_seq in Hj as [-> _]. simpl in Hi. injection Hi as <- <-.
  assert (Hx : ~ (inject_Z ctx_l == 0)%Q).
  { unfold Qeq, inject_Z. simpl. lia. }
  replace (0 + Z.of_nat (0 + i)) with (Z.of_nat i) by lia.
  split; [reflexivity|].
  rewrite !inject_Z_plus. change (inject_Z 0) with 0%Q.
  change (inject_Z 1) with 1%Q. field. exact Hx.
Qed.

Lemma cat_dim1_rows (xs : list ndarray) (rows : list (Q * Q)) (c : ndarray) :
  cat_dim1 (Arr xs) (nd_of_rows rows) = Ok c ->
  exists feats,
    c = Arr feats /\ length feats = length xs /\
    forall i f, feats !! i = Some f ->
      exists r s e, xs !! i = Some (Arr r) /\ rows !! i = Some (s, e) /\
                    f = Arr (r ++ [Num s; Num e]).
Proof.
  unfold cat_dim1, nd_of_rows. rewrite length_map.
  destruct (Nat.eqb_spec (length xs) (length rows)) as [Hlen|]; [|discriminate].
  intros H. apply bind_Ok in H as (feats & Hf & H). injection H as <-.
  exists feats. split; [done|].
  pose proof (mapR_length _ _ _ Hf) as Hl.
  rewrite length_zip_with, length_map in Hl.
  split; [lia|].
  intros i f Hi. apply mapR_Forall2 in Hf.
  destruct (Forall2_lookup_r _ _ _ _ _ Hf Hi) as ([x y] & Hxy & Hcat).
  apply lookup_zip_with_Some in Hxy as (x' & y' & E & Hx & Hy).
  injection E as <- <-. rewrite list_lookup_fmap in Hy.
  destruct (rows !! i) as [[s e]|] eqn:Hr; [|discriminate].
  injection Hy as <-. destruct x as [|r]; [discriminate|].
  simpl in Hcat. injection Hcat as <-. by exists r, s, e.
Qed.

(** X20. With video features and the temporal-endpoint feature both on, and
    unless the tvsum labels cut the feature, the video_feat of a returned
    item has one row per loaded clip: the loaded row followed by the two
    numbers i / n and (i + 1) / n, for the i-th of n clips. *)
Theorem getitem_appends_tef (disk : Disk)
    (self self' : CGDETR_StartEndDataset) (index : Z) (g g' : Random.rng)
    (it : item) :
  use_tef self = true -> use_video self = true ->
  load_labels self = false \/ dset_name self <> "tvsum" ->
  getitem disk self index g = Ok (it, self', g') ->
  exists loaded xs feats,
    _get_video_feat_by_vid disk self (Meta.vid (meta it)) = Ok loaded /\
    t_data loaded = Arr xs /\
    model_inputs it !! "video_feat" = Some (VTensor (cpu (Arr feats))) /\
    length feats = length xs /\
    forall (i : nat) f, feats !! i = Some f ->
      exists r s e,
        xs !! i = Some (Arr r) /\ f = Arr (r ++ [Num s; Num e]) /\
        (s == inject_Z (Z.of_nat i) / inject_Z (Z.of_nat (length xs)))%Q /\
        (e == inject_Z (Z.of_nat i + 1) / inject_Z (Z.of_nat (length xs)))%Q.
Proof.
  intros Htef Hvideo Hcut H. apply getitem_inv in H
    as (k & m & q & mi1 & ctx_l & mi2 & mi3 & Hk & Hm & Hq & H1 & H2 & H3 & Hmi & Hd).
  pose proof (label_stage_reordered _ _ _ _ _ _ _ _ H3) as Hre.
  apply reordered_ids in Hre as (Hvid & _ & _). rewrite Hvid.
  unfold video_stage in H1. rewrite Hvideo in H1.
  apply bind_Ok in H1 as (loaded & Hloaded & H1).
  apply bind_Ok in H1 as (n & Hn & H1). injection H1 as <- <-.
  destruct (t_data loaded) as [|xs] eqn:Hxs; [discriminate|].
  injection Hn as <-.
  unfold tef_stage in H2. rewrite Htef, Hvideo in H2.
  apply bind_Ok in H2 as (rows & Hrows & H2).
  unfold tensor_at in H2. rewrite lookup_insert_eq in H2. simpl in H2.
  destruct (negb _); [discriminate|].
  apply bind_Ok in H2 as (joined & Hj & H2). injection H2 as <-.
  rewrite Hxs in Hj.
  apply cat_dim1_rows in Hj as (feats & -> & Hlen & Hfeats).
  assert (Hctx : 0 < Z.of_nat (length xs)).
  { unfold tef in Hrows. destruct (Z.of_nat (length xs) <? 0); [discriminate|].
    destruct (Z.eqb_spec (Z.of_nat (length xs)) 0); [discriminate|lia]. }
  destruct (tef_rows _ Hctx) as (rows' & Hrows' & _ & Hends).
  rewrite Hrows in Hrows'. injection Hrows' as <-.
  exists loaded, xs, feats. split; [done|]. split; [done|]. split.
  { rewrite Hmi. rewrite !lookup_insert_ne by done.
    assert (Hnot : "video_feat" ∉ label_keys)
      by (apply (bool_decide_unpack _); by vm_compute).
    assert (Hframe : mi3 !! "video_feat"
        = <["video_feat" := VTensor (cpu (Arr feats))]>
            (<["video_feat" := VTensor loaded]>
               ({["query_feat" := VTensor q]} : gmap string value))
          !! "video_feat").
    { destruct Hcut as [Hl|Hname].
      - unfold label_stage in H3. rewrite Hl in H3. by injection H3 as <- _ _.
      - by apply (label_stage_frame _ _ _ _ _ _ _ _ "video_feat" H3 Hnot); right. }
    rewrite Hframe. apply lookup_insert_eq. }
  split; [done|].
  intros i f Hi. destruct (Hfeats i f Hi) as (r & s & e & Hx & Hr & ->).
  destruct (Hends i s e Hr) as [Hs He]. by exists r, s, e.
Qed.

Lemma getitem_appends_tef_witness :
  exists it self' g',
    getitem Examples.disk Examples.qv2 0 [] = Ok (it, self', g') /\
    exists loaded xs feats,
      _get_video_feat_by_vid Examples.disk Examples.qv2 (Meta.vid (meta it))
        = Ok loaded /\
      t_data loaded = Arr xs /\
      model_inputs it !! "video_feat" = Some (VTensor (cpu (Arr feats))) /\
      length feats = length xs /\
      forall (i : nat) f, feats !! i = Some f ->
        exists r s e,
          xs !! i = Some (Arr r) /\ f = Arr (r ++ [Num s; Num e]) /\
          (s == inject_Z (Z.of_nat i) / inject_Z (Z.of_nat (length xs)))%Q /\
          (e == inject_Z (Z.of_nat i + 1) / inject_Z (Z.of_nat (length xs)))%Q.
Proof.
  destruct (getitem Examples.disk Examples.qv2 0 []) as [[[it self'] g']|e] eqn:E.
  - exists it, self', g'. split; [reflexivity|].
    apply (getitem_appends_tef Examples.disk Examples.qv2 self' 0 [] g' it);
      [reflexivity | reflexivity | right; discriminate | exact E].
  - assert (H : is_Ok (getitem Examples.disk Examples.qv2 0 []) = true)
      by (vm_compute; reflexivity).
    rewrite E in H. discriminate H.
Defined.

(** ** What the collator keeps *)

Lemma column_Forall2 (batch : list item) (k : string) (vals : list value) :
  column batch k = Ok vals ->
  Forall2 (fun e v => model_inputs e !! k = Some v) batch vals.
Proof.
  intros H. apply mapR_Forall2 in H. eapply Forall2_impl; [exact H|].
  intros e v Hv. simpl in Hv.
  by destruct (model_inputs e !! k); simplify_eq/=.
Qed.

(** X21. Whenever cg_detr_start_end_collate returns, the batch is not empty,
    the metas are those of the examples in batch order, the collated batch
    has exactly the keys of the first example, and every example has every
    one of these keys. *)
Theorem collate_structure (batch : list item)
    (metas : list Meta.annotation) (b : gmap string batched) :
  cg_detr_start_end_collate batch = Ok (metas, b) ->
  exists first,
    head batch = Some first /\
    metas = map meta batch /\
    (forall k, is_Some (b !! k) <-> is_Some (model_inputs first !! k)) /\
    Forall (fun e => forall k, is_Some (model_inputs first !! k) ->
                               is_Some (model_inputs e !! k)) batch.
Proof.
  intros H. apply collate_inv in H as (first & Hfirst & Hmetas & Hkeys).
  exists first. split; [done|]. split; [done|]. split.
  - intros k. specialize (Hkeys k).
    destruct (model_inputs first !! k) as [x|].
    + destruct Hkeys as (v & _ & ->). split; eauto.
    + rewrite Hkeys. split; intros [? ?]; discriminate.
  - apply Forall_forall. intros e He k [x Hx]. specialize (Hkeys k).
    rewrite Hx in Hkeys. destruct Hkeys as (v & Hv & _).
    unfold collate_field in Hv. apply bind_Ok in Hv as (vals & Hvals & _).
    apply column_Forall2 in Hvals.
    apply list_elem_of_lookup in He as [i Hi].
    destruct (Forall2_lookup_l _ _ _ _ _ Hvals Hi) as (y & _ & Hy). eauto.
Qed.

Lemma collate_structure_witness :
  exists metas b,
    cg_detr_start_end_collate Examples.batch2 = Ok (metas, b) /\
    exists first,
      head Examples.batch2 = Some first /\
      metas = map meta Examples.batch2 /\
      (forall k, is_Some (b !! k) <-> is_Some (model_inputs first !! k)) /\
      Forall (fun e => forall k, is_Some (model_inputs first !! k) ->
                                 is_Some (model_inputs e !! k)) Examples.batch2.
Proof.
  destruct (cg_detr_start_end_collate Examples.batch2) as [[metas b]|e] eqn:E.
  - exists metas, b. split; [reflexivity|].
    exact (collate_structure Examples.batch2 metas b E).
  - assert (H : is_Ok (cg_detr_start_end_collate Examples.batch2) = true)
      by (vm_compute; reflexivity).
    rewrite E in H. discriminate H.
Defined.

(** X22. The qid and vid entries of a collated batch are plain lists with
    the value of each example, in batch order. *)
Theorem collate_lists_ids (batch : list item)
    (metas : list Meta.annotation) (b : gmap string batched)
    (k : string) (v : batched) :
  cg_detr_start_end_collate batch = Ok (metas, b) ->
  k ∈ ["qid"; "vid"] ->
  b !! k = Some v ->
  exists vals,
    v = BList vals /\
    Forall2 (fun e x => model_inputs e !! k = Some x) batch vals.
Proof.
  intros H Hk Hv. pose proof (collate_lookup_Some _ _ _ _ _ H Hv) as Hf.
  unfold collate_field in Hf. apply bind_Ok in Hf as (vals & Hvals & Hf).
  exists vals. split; [|by apply column_Forall2].
  apply elem_of_cons in Hk as [->|Hk]; [by injection Hf as <-|].
  apply elem_of_cons in Hk as [->|Hk]; [by injection Hf as <-|].
  by apply elem_of_nil in Hk.
Qed.

Lemma collate_lists_ids_witness :
  exists metas b v,
    cg_detr_start_end_collate Examples.batch2 = Ok (metas, b) /\
    b !! "qid" = Some v /\
    exists vals,
      v = BList vals /\
      Forall2 (fun e x => model_inputs e !! "qid" = Some x) Examples.batch2 vals.
Proof.
  assert (H : is_Ok (r ← cg_detr_start_end_collate Examples.batch2;
                     of_option KeyError (r.2 !! "qid")) = true)
    by (vm_compute; reflexivity).
  destruct (cg_detr_start_end_collate Examples.batch2) as [[metas b]|e] eqn:E;
    [|discriminate H].
  simpl in H. destruct (b !! "qid") as [v|] eqn:Hv; [|discriminate H].
  exists metas, b, v. split; [reflexivity|]. split; [exact Hv|].
  apply (collate_lists_ids Examples.batch2 metas b "qid" v E); [|exact Hv].
  apply (bool_decide_unpack _). by vm_compute.
Defined.

Lemma long_tensor_Ok (vals : list value) (t : Tensor) :
  long_tensor vals = Ok t ->
  exists rows,
    vals = map VList rows /\ Np.rectangular rows = true /\
    t = cpu (Arr (map nd_of_Zs rows)).
Proof.
  unfold long_tensor. intros H. apply bind_Ok in H as (rows & Hrows & H).
  exists rows. destruct (Np.rectangular rows); [|discriminate].
  injection H as <-. split; [|done].
  apply mapR_Forall2 in Hrows. clear -Hrows.
  induction Hrows as [|v r vals rows Hv _ IH]; [done|].
  simpl. rewrite <- IH. f_equal. destruct v; by simplify_eq/=.
Qed.

(** X23. The saliency_pos_labels and saliency_neg_labels entries of a
    collated batch are one tensor on the cpu whose i-th row is the list of
    the i-th example; this takes the lists of all examples to have one
    length. *)
Theorem collate_stacks_saliency_indices (batch : list item)
    (metas : list Meta.annotation) (b : gmap string batched)
    (k : string) (v : batched) :
  cg_detr_start_end_collate batch = Ok (metas, b) ->
  k ∈ ["saliency_pos_labels"; "saliency_neg_labels"] ->
  b !! k = Some v ->
  exists rows,
    v = BTensor (cpu (Arr (map nd_of_Zs rows))) /\
    Forall2 (fun e r => model_inputs e !! k = Some (VList r)) batch rows /\
    Np.rectangular rows = true.
Proof.
  intros H Hk Hv. pose proof (collate_lookup_Some _ _ _ _ _ H Hv) as Hf.
  unfold collate_field in Hf. apply bind_Ok in Hf as (vals & Hvals & Hf).
  assert (Hstack : (t ← long_tensor vals; Ok (BTensor t)) = Ok v).
  { apply elem_of_cons in Hk as [->|Hk]; [exact Hf|].
    apply elem_of_cons in Hk as [->|Hk]; [exact Hf|].
    by apply elem_of_nil in Hk. }
  apply bind_Ok in Hstack as (t & Ht & Hstack). injection Hstack as <-.
  apply long_tensor_Ok in Ht as (rows & -> & Hrect & ->).
  exists rows. split; [done|]. split; [|done].
  apply column_Forall2 in Hvals. by apply Forall2_fmap_r in Hvals.
Qed.

Lemma collate_stacks_saliency_indices_witness :
  exists metas b v,
    cg_detr_start_end_collate Examples.batch2 = Ok (metas, b) /\
    b !! "saliency_pos_labels" = Some v /\
    exists rows,
      v = BTensor (cpu (Arr (map nd_of_Zs rows))) /\
      Forall2 (fun e r => model_inputs e !! "saliency_pos_labels"
                          = Some (VList r)) Examples.batch2 rows /\
      Np.rectangular rows = true.
Proof.
  assert (H : is_Ok (r ← cg_detr_start_end_collate Examples.batch2;
                     of_option KeyError (r.2 !! "saliency_pos_labels")) = true)
    by (vm_compute; reflexivity).
  destruct (cg_detr_start_end_collate Examples.batch2) as [[metas b]|e] eqn:E;
    [|discriminate H].
  simpl in H.
  destruct (b !! "saliency_pos_labels") as [v|] eqn:Hv; [|discriminate H].
  exists metas, b, v. split; [reflexivity|]. split; [exact Hv|].
  apply (collate_stacks_saliency_indices Examples.batch2 metas b
           "saliency_pos_labels" v E); [|exact Hv].
  apply (bool_decide_unpack _). by vm_compute.
Defined.

(** ** The targets of a prepared batch *)

Lemma whole_to_Ok (v : batched) (d : device) (t' : Tensor) :
  whole_to v d = Ok t' -> exists t, v = BTensor t /\ t' = to t d.
Proof. destruct v; simpl; try discriminate. intros H. injection H as <-. eauto. Qed.

Lemma spans_to_Ok (v v' : batched) (d : device) :
  spans_to v d = Ok v' ->
  exists l l', v = BSpans l /\ v' = BSpans l' /\ Forall2 (spans_moved d) l l'.
Proof.
  destruct v as [l| | |]; simpl; try discriminate. intros H.
  apply bind_Ok in H as (l' & Hl' & H). injection H as <-.
  exists l, l'. split; [done|]. split; [done|].
  apply mapR_Forall2 in Hl'. eapply Forall2_impl; [exact Hl'|].
  intros e e' He. simpl in He. apply bind_Ok in He as (x & Hx & He).
  destruct x as [t| | | |]; try discriminate. injection He as <-.
  exists t. split; [|done]. by destruct (e !! "spans"); simplify_eq/=.
Qed.

#[local] Set Warnings "-clear-no-such-hyp".

Ltac is_some_iff :=
  repeat match goal with
         | H : _ !! _ = _ |- _ => rewrite H
         end;
  split; intros [? ?]; (discriminate || eauto).

(** X24. Whenever cg_detr_prepare_batch_inputs returns targets, an entry of
    the targets is there exactly when the batch has it (saliency_neg_labels
    when the batch has saliency_pos_labels); the saliency tensors are the
    tensors of the batch moved to the device, relevant_clips is the same
    tensor as saliency_all_labels, and span_labels is the list of the batch
    with each spans tensor moved to the device. *)
Theorem prepare_targets_contents (b model_inputs targets : gmap string batched)
    (d : device) :
  cg_detr_prepare_batch_inputs b d = Ok (model_inputs, Some targets) ->
  targets !! "relevant_clips" = targets !! "saliency_all_labels" /\
  (forall k, k ∈ ["saliency_pos_labels"; "saliency_all_labels"] ->
     (is_Some (targets !! k) <-> is_Some (b !! k))) /\
  (is_Some (targets !! "saliency_neg_labels")
     <-> is_Some (b !! "saliency_pos_labels")) /\
  (is_Some (targets !! "span_labels") <-> is_Some (b !! "span_labels")) /\
  (forall k v',
     k ∈ ["saliency_pos_labels"; "saliency_neg_labels"; "saliency_all_labels"] ->
     targets !! k = Some v' ->
     exists t, b !! k = Some (BTensor t) /\ v' = BTensor (to t d)) /\
  (forall v', targets !! "span_labels" = Some v' ->
     exists l l', b !! "span_labels" = Some (BSpans l) /\ v' = BSpans l' /\
                  Forall2 (spans_moved d) l l').
Proof.
  unfold cg_detr_prepare_batch_inputs. intros H.
  apply bind_Ok in H as (qf & _ & H). apply bind_Ok in H as (? & _ & H).
  apply bind_Ok in H as (? & _ & H). apply bind_Ok in H as (vf & _ & H).
  apply bind_Ok in H as (? & _ & H). apply bind_Ok in H as (? & _ & H).
  apply bind_Ok in H as (? & _ & H). apply bind_Ok in H as (? & _ & H).
  apply bind_Ok in H as (t & Ht & H).
  destruct (Nat.eqb_spec (size t) 0) as [|Hsize]; [discriminate|].
  injection H as _ <-.
  unfold prepare_targets in Ht.
  apply bind_Ok in Ht as (t1 & H1 & Ht). apply bind_Ok in Ht as (t2 & H2 & Ht).
  assert (Hs : match b !! "span_labels" with
               | Some v => exists v', spans_to v d = Ok v' /\
                                      t1 = {["span_labels" := v']}
               | None => t1 = ∅
               end).
  { destruct (b !! "span_labels") as [v|].
    - apply bind_Ok in H1 as (v' & Hv' & H1). injection H1 as <-. eauto.
    - by injection H1 as <-. }
  assert (Hp : match b !! "saliency_pos_labels" with
               | Some v => exists p n bn,
                   whole_to v d = Ok p /\
                   b !! "saliency_neg_labels" = Some bn /\
                   whole_to bn d = Ok n /\
                   t2 = <["saliency_neg_labels" := BTensor n]>
                          (<["saliency_pos_labels" := BTensor p]> t1)
               | None => t2 = t1
               end).
  { destruct (b !! "saliency_pos_labels") as [v|].
    - apply bind_Ok in H2 as (p & Hp & H2). apply bind_Ok in H2 as (bn & Hbn & H2).
      apply bind_Ok in H2 as (n & Hn & H2). injection H2 as <-.
      exists p, n, bn. repeat split; try done.
      by destruct (b !! "saliency_neg_labels"); simplify_eq/=.
    - by injection H2 as <-. }
  assert (Ha : match b !! "saliency_all_labels" with
               | Some v => exists a, whole_to v d = Ok a /\
                   t = <["relevant_clips" := BTensor a]>
                         (<["saliency_all_labels" := BTensor a]> t2)
               | None => t = t2
               end).
  { destruct (b !! "saliency_all_labels") as [v|].
    - apply bind_Ok in Ht as (a & Ha & Ht). injection Ht as <-. eauto.
    - by injection Ht as <-. }
  clear H1 H2 Ht.
  destruct (b !! "span_labels") as [vs|] eqn:Es;
    [destruct Hs as (vs' & Hvs & ->)|subst t1];
  (destruct (b !! "saliency_pos_labels") as [vp|] eqn:Ep;
    [destruct Hp as (p & n & bn & Hwp & Ebn & Hwn & ->)|subst t2]);
  (destruct (b !! "saliency_all_labels") as [va|] eqn:Ea;
    [destruct Ha as (a & Hwa & ->)|subst t]);
  try (apply whole_to_Ok in Hwp as (tp & -> & ->));
  try (apply whole_to_Ok in Hwn as (tn & -> & ->));
  try (apply whole_to_Ok in Hwa as (ta & -> & ->));
  try (apply spans_to_Ok in Hvs as (l & l' & -> & -> & Hmoved));
  try (by rewrite map_size_empty in Hsize).
  all: split; [by simplify_map_eq|].
  all: split; [intros k Hk; rewrite !elem_of_cons in Hk;
           destruct Hk as [->|[->|Hk]]; [| |by apply elem_of_nil in Hk];
           simplify_map_eq; is_some_iff|].
  all: split; [simplify_map_eq; is_some_iff|].
  all: split; [simplify_map_eq; is_some_iff|].
  all: split;
   [intros k v' Hk Hv'; rewrite !elem_of_cons in Hk;
    destruct Hk as [->|[->|[->|Hk]]]; [| | |by apply elem_of_nil in Hk];
    simplify_map_eq; by eauto
   |intros v' Hv'; simplify_map_eq; by eauto 10].
Qed.

Lemma prepare_targets_contents_witness :
  exists b model_inputs targets,
    cg_detr_prepare_batch_inputs b (Cuda 0) = Ok (model_inputs, Some targets) /\
    targets !! "relevant_clips" = targets !! "saliency_all_labels" /\
    (forall k, k ∈ ["saliency_pos_labels"; "saliency_all_labels"] ->
       (is_Some (targets !! k) <-> is_Some (b !! k))) /\
    (is_Some (targets !! "saliency_neg_labels")
       <-> is_Some (b !! "saliency_pos_labels")) /\
    (is_Some (targets !! "span_labels") <-> is_Some (b !! "span_labels")) /\
    (forall k v',
       k ∈ ["saliency_pos_labels"; "saliency_neg_labels"; "saliency_all_labels"] ->
       targets !! k = Some v' ->
       exists t, b !! k = Some (BTensor t) /\ v' = BTensor (to t (Cuda 0))) /\
    (forall v', targets !! "span_labels" = Some v' ->
       exists l l', b !! "span_labels" = Some (BSpans l) /\ v' = BSpans l' /\
                    Forall2 (spans_moved (Cuda 0)) l l').
Proof.
  assert (H : is_Ok (r ← cg_detr_start_end_collate Examples.batch2;
                     p ← cg_detr_prepare_batch_inputs r.2 (Cuda 0);
                     of_option KeyError p.2) = true)
    by (vm_compute; reflexivity).
  destruct (cg_detr_start_end_collate Examples.batch2) as [[metas b]|e];
    [|discriminate H].
  simpl in H.
  destruct (cg_detr_prepare_batch_inputs b (Cuda 0))
    as [[model_inputs [targets|]]|e] eqn:E; try discriminate H.
  exists b, model_inputs, targets. split; [exact E|].
  exact (prepare_targets_contents b model_inputs targets (Cuda 0) E).
Defined.

(** ** The labels of a qvhighlight item *)

(** X25. For qvhighlight with labels and video features on, the labels of a
    returned item are what the label constructors give for the record that
    was read, with ctx_l the number of clips of the loaded video feature
    (not max_v_l): span_labels is the result of get_span_labels on the
    record's relevant windows, the three saliency entries are the result of
    get_saliency_labels_all on the record's clip ids and scores, run on the
    random state that get_span_labels left, and relevant_clip_ids is the
    record's list. *)
Theorem getitem_qvhighlight_labels (disk : Disk)
    (self self' : CGDETR_StartEndDataset) (index : Z) (g g' : Random.rng)
    (it : item) (k : nat) (m : Meta.annotation) (ws : list (Q * Q)) :
  dset_name self = "qvhighlight" ->
  load_labels self = true ->
  use_video self = true ->
  Py.norm_index (length (data self)) index = Ok k ->
  data self !! k = Some m ->
  Meta.relevant_windows m = Some ws ->
  getitem disk self index g = Ok (it, self', g') ->
  exists loaded n spans passed g1 ids scores pos neg score_array,
    _get_video_feat_by_vid disk self (Meta.vid m) = Ok loaded /\
    nd_len (t_data loaded) = Ok n /\
    get_span_labels self ws (Z.of_nat n) g = Ok (spans, passed, g1) /\
    Meta.relevant_clip_ids m = Some ids /\
    Meta.saliency_scores m = Some scores /\
    get_saliency_labels_all ids scores (Z.of_nat n) 1 true g1
      = Ok (pos, neg, score_array, g') /\
    model_inputs it !! "span_labels" = Some (VTensor (cpu (nd_of_rows spans))) /\
    model_inputs it !! "saliency_pos_labels" = Some (VList pos) /\
    model_inputs it !! "saliency_neg_labels" = Some (VList neg) /\
    model_inputs it !! "saliency_all_labels"
      = Some (VArray (nd_of_Zs score_array)) /\
    model_inputs it !! "relevant_clip_ids" = Some (VList ids).
Proof.
  intros Hname Hl Hvideo Hk Hm Hws H. apply getitem_inv in H
    as (k' & m' & q & mi1 & ctx_l & mi2 & mi3 & Hk' & Hm' & _ & H1 & _ & H3 & Hmi & _).
  rewrite Hk in Hk'. injection Hk' as <-. rewrite Hm in Hm'. injection Hm' as <-.
  unfold video_stage in H1. rewrite Hvideo in H1.
  apply bind_Ok in H1 as (loaded & Hloaded & H1).
  apply bind_Ok in H1 as (n & Hn & H1). injection H1 as _ <-.
  unfold label_stage in H3. rewrite Hl, Hname in H3.
  change (String.eqb "qvhighlight" "tvsum") with false in H3.
  change (String.eqb "qvhighlight" "youtube_highlight") with false in H3.
  cbv iota in H3. unfold window_labels in H3. rewrite Hws, Hname in H3.
  change (String.eqb "qvhighlight" "qvhighlight") with true in H3.
  cbv iota in H3.
  apply bind_Ok in H3 as ([[mi4 m4] g4] & H4 & H3).
  apply bind_Ok in H4 as ([[spans passed] g1] & Hspans & H4).
  apply bind_Ok in H4 as (ids & Hids & H4).
  apply bind_Ok in H4 as (scores & Hscores & H4).
  apply bind_Ok in H4 as ([[[pos neg] arr] g5] & Hsal & H4).
  injection H4 as <- <- <-.
  apply bind_Ok in H3 as (ids' & Hids' & H3). injection H3 as <- _ <-.
  simpl in Hids, Hscores, Hids'.
  destruct (Meta.relevant_clip_ids m) as [ids0|] eqn:Eids; [|discriminate].
  destruct (Meta.saliency_scores m) as [scores0|] eqn:Escores; [|discriminate].
  simpl in Hids, Hscores, Hids'.
  injection Hids as <-. injection Hscores as <-. injection Hids' as <-.
  exists loaded, n, spans, passed, g1, ids0, scores0, pos, neg, arr.
  rewrite Hmi. unfold set_saliency.
  repeat (split; [done|]).
  repeat split; by simplify_map_eq.
Qed.

Lemma getitem_qvhighlight_labels_witness :
  exists it self' g',
    getitem Examples.disk Examples.qv2 0 [] = Ok (it, self', g') /\
    exists loaded n spans passed g1 ids scores pos neg score_array,
      _get_video_feat_by_vid Examples.disk Examples.qv2
        (Meta.vid Examples.record3) = Ok loaded /\
      nd_len (t_data loaded) = Ok n /\
      get_span_labels Examples.qv2 [(2, 6); (0, 1); (4, 8)]%Q (Z.of_nat n) []
        = Ok (spans, passed, g1) /\
      Meta.relevant_clip_ids Examples.record3 = Some ids /\
      Meta.saliency_scores Examples.record3 = Some scores /\
      get_saliency_labels_all ids scores (Z.of_nat n) 1 true g1
        = Ok (pos, neg, score_array, g') /\
      model_inputs it !! "span_labels"
        = Some (VTensor (cpu (nd_of_rows spans))) /\
      model_inputs it !! "saliency_pos_labels" = Some (VList pos) /\
      model_inputs it !! "saliency_neg_labels" = Some (VList neg) /\
      model_inputs it !! "saliency_all_labels"
        = Some (VArray (nd_of_Zs score_array)) /\
      model_inputs it !! "relevant_clip_ids" = Some (VList ids).
Proof.
  destruct (getitem Examples.disk Examples.qv2 0 []) as [[[it self'] g']|e] eqn:E.
  - exists it, self', g'. split; [reflexivity|].
    apply (getitem_qvhighlight_labels Examples.disk Examples.qv2 self' 0 [] g'
             it 0%nat Examples.record3 [(2, 6); (0, 1); (4, 8)]%Q);
      [reflexivity .. | exact E].
  - assert (H : is_Ok (getitem Examples.disk Examples.qv2 0 []) = true)
      by (vm_compute; reflexivity).
    rewrite E in H. discriminate H.
Defined.
(** ** The feature loaders *)

(** X26. Outside the tvsum i3d case, the feature that _get_video_feat_by_vid
    takes from one directory is read from the array features of the archive
    vid.npz; where that file does not load, is no archive, or holds no such
    array of rows, the loader falls back, without a word, on the plain array
    vid.npy. Either way the rows are cut to the first max_v_l and then
    normalised if normalize_v is set; the loader returns for the directory
    exactly when one of the two files offers rows and the normaliser
    returns. *)
Theorem video_dir_feat_falls_back (files : Loader.Files)
    (self : CGDETR_StartEndDataset) (vid d : string) (x : ndarray) :
  String.eqb (dset_name self) "tvsum" && Py.contains "i3d" d = false ->
  Loader.load_dir_feat files self vid d = Ok x <->
  exists xs,
    (npz_features files (Loader.join d (vid +:+ ".npz")) = Some xs \/
     npz_features files (Loader.join d (vid +:+ ".npz")) = None /\
     npy_rows files (Loader.join d (vid +:+ ".npy")) = Some xs) /\
    (if normalize_v self
     then Loader.l2_normalize_np_array files (Arr (Py.slice_to xs (max_v_l self)))
     else Ok (Arr (Py.slice_to xs (max_v_l self)))) = Ok x.
Proof.
  intros Hplain. unfold Loader.load_dir_feat, npz_features, npy_rows.
  rewrite Hplain.
  destruct (Loader.np_load files (Loader.join d (vid +:+ ".npz")))
    as [[a|m]|e]; simpl.
  2: destruct (m !! "features") as [[q|xs0]|]; simpl.
  all: destruct (Loader.np_load files (Loader.join d (vid +:+ ".npy")))
         as [[[q'|xs]|m']|e']; simpl.
  all: split; [intros Hr|intros (xs1 & [Ha|[Ha Hb]] & Hx); by simplify_eq].
  all: try discriminate Hr.
  all: first [by exists xs0; split; [left|] | by exists xs; split; [right|]].
Qed.

Lemma rows_of_arrays (xs : list ndarray) :
  forallb (fun x => negb (Loader.is_num x)) xs = true ->
  exists p, xs = map Arr p.
Proof.
  induction xs as [|[q|r] xs IH]; simpl; intros H.
  - by exists [].
  - discriminate.
  - destruct (IH H) as (p & ->). by exists (r :: p).
Qed.

Lemma concat_rows_joined (a : ndarray) (rows : list (list ndarray))
    (c : ndarray) :
  Loader.concat_rows a (Arr (map Arr rows)) = Ok c ->
  exists p, a = Arr (map Arr p) /\ length p = length rows /\
            c = Arr (map Arr (zip_with app p rows)).
Proof.
  destruct a as [q|xs]; [discriminate|]. unfold Loader.concat_rows.
  rewrite length_map.
  destruct (Nat.eqb_spec (length xs) (length rows)) as [Hlen|]; [|discriminate].
  intros H. apply bind_Ok in H as (out & Hout & H). injection H as <-.
  revert rows out Hlen Hout.
  induction xs as [|x xs IH]; intros [|r rows] out Hlen Hout;
    try discriminate Hlen.
  - injection Hout as <-. by exists [].
  - simpl in Hout. apply bind_Ok in Hout as (y & Hy & Hout).
    apply bind_Ok in Hout as (ys & Hys & Hout). injection Hout as <-.
    destruct x as [q|r1]; [discriminate|]. injection Hy as <-.
    injection Hlen as Hlen.
    destruct (IH rows ys Hlen Hys) as (p & Hp & Hpl & Hc).
    injection Hp as ->. injection Hc as ->.
    exists (r1 :: p). simpl. by rewrite Hpl.
Qed.

Lemma concat_axis1_joined (l : list ndarray) (r : ndarray) :
  Loader.concat_axis1 l = Ok r ->
  exists (parts : list (list (list ndarray))) (rows : list (list ndarray)),
    l = map (fun p => Arr (map Arr p)) parts /\
    r = Arr (map Arr rows) /\
    parts <> [] /\
    Forall (fun p => length p = length rows) parts /\
    forall i, (i < length rows)%nat ->
      exists ps, Forall2 (fun p x => p !! i = Some x) parts ps /\
                 rows !! i = Some (concat ps).
Proof.
  revert r. induction l as [|a l IH]; intros r H; [discriminate|].
  destruct l as [|b l].
  - simpl in H. destruct a as [q|xs]; [discriminate|].
    destruct (forallb _ xs) eqn:E; [|discriminate]. injection H as <-.
    destruct (rows_of_arrays xs E) as (p & ->).
    exists [p], p. repeat (split; [done|]). split; [by constructor|].
    intros i Hi. destruct (lookup_lt_is_Some_2 p i Hi) as (x & Hx).
    exists [x]. split; [by constructor|]. simpl. by rewrite app_nil_r.
  - change (Loader.concat_axis1 (a :: b :: l))
      with (Loader.concat_axis1 (b :: l) ≫= Loader.concat_rows a) in H.
    apply bind_Ok in H as (r0 & Hr0 & H).
    destruct (IH r0 Hr0) as (parts & rows & Hl & -> & _ & Hlen & Hrows).
    apply concat_rows_joined in H as (p & -> & Hp & ->).
    exists (p :: parts), (zip_with app p rows).
    assert (Hz : length (zip_with app p rows) = length rows)
      by (rewrite length_zip_with; lia).
    split; [by rewrite Hl|]. split; [done|]. split; [done|].
    split.
    { constructor; [lia|]. eapply Forall_impl; [exact Hlen|].
      simpl. intros ? ->. lia. }
    intros i Hi. rewrite Hz in Hi.
    destruct (Hrows i Hi) as (ps & Hps & Hri).
    destruct (lookup_lt_is_Some_2 p i ltac:(lia)) as (x & Hx).
    exists (x :: ps). split; [by constructor|].
    rewrite lookup_zip_with, Hx, Hri. reflexivity.
Qed.

Lemma min_len_spec (lens : list nat) (n : nat) :
  Loader.min_len lens = Ok n -> Forall (fun k => (n <= k)%nat) lens /\ n ∈ lens.
Proof.
  destruct lens as [|k rest]; [discriminate|]. simpl. intros H.
  injection H as <-. induction rest as [|j rest [IH1 IH2]]; simpl.
  - split; [by constructor|]. by left.
  - split.
    + inversion IH1 as [|? ? Hk Hrest]; subst.
      constructor; [lia|]. constructor; [lia|].
      eapply Forall_impl; [exact Hrest|]. simpl. lia.
    + destruct (Nat.min_spec j (foldr Nat.min k rest)) as [[_ ->]|[_ ->]].
      * right. by left.
      * apply elem_of_cons in IH2 as [->|IH2]; [by left|].
        right. by right.
Qed.

Lemma nd_len_rows (l : list ndarray) (lens : list nat) :
  mapR nd_len l = Ok lens ->
  exists feats, l = map Arr feats /\ lens = map length feats.
Proof.
  revert lens. induction l as [|a l IH]; intros lens H; simpl in H.
  - injection H as <-. by exists [].
  - apply bind_Ok in H as (n & Hn & H). apply bind_Ok in H as (ns & Hns & H).
    injection H as <-. destruct a as [q|f]; [discriminate|]. injection Hn as <-.
    destruct (IH ns Hns) as (feats & -> & ->). by exists (f :: feats).
Qed.

Lemma trimmed_rows (feats : list (list ndarray)) (n : nat) (out : list ndarray) :
  mapR (fun e => nd_slice_to e (Z.of_nat n)) (map Arr feats) = Ok out ->
  out = map (fun f => Arr (take n f)) feats.
Proof.
  revert out. induction feats as [|f feats IH]; intros out H; simpl in H.
  - by injection H as <-.
  - apply bind_Ok in H as (ys & Hys & H). injection H as <-.
    rewrite (IH ys Hys). simpl. rewrite slice_to_take by lia.
    by rewrite Nat2Z.id.
Qed.

Lemma get_video_feat_inv (files : Loader.Files)
    (self : CGDETR_StartEndDataset) (vid : string) (t : Tensor) :
  Loader._get_video_feat_by_vid files self vid = Ok t ->
  exists (feats : list (list ndarray)) (rows : list (list ndarray)),
    Forall2 (fun d f => Loader.load_dir_feat files self vid d = Ok (Arr f))
      (v_feat_dirs self) feats /\
    t = cpu (Arr (map Arr rows)) /\
    Forall (fun f => (length rows <= length f)%nat) feats /\
    Exists (fun f => length f = length rows) feats /\
    forall i, (i < length rows)%nat ->
      exists ps, Forall2 (fun f p => f !! i = Some (Arr p)) feats ps /\
                 rows !! i = Some (concat ps).
Proof.
  unfold Loader._get_video_feat_by_vid. intros H.
  apply bind_Ok in H as (l & Hl & H). apply bind_Ok in H as (lens & Hlens & H).
  apply bind_Ok in H as (n & Hn & H). apply bind_Ok in H as (cut & Hcut & H).
  apply bind_Ok in H as (v & Hv & H). injection H as <-.
  apply nd_len_rows in Hlens as (feats & -> & ->).
  apply trimmed_rows in Hcut as ->.
  apply min_len_spec in Hn as (Hmin & Hin).
  apply concat_axis1_joined in Hv as (parts & rows & Hparts & -> & Hne & Hlen & Hrows).
  apply mapR_Forall2 in Hl.
  assert (Hn : length rows = n).
  { apply list_elem_of_fmap in Hin as (f & -> & Hf).
    apply list_elem_of_lookup in Hf as (k & Hk).
    assert (Hp : is_Some (parts !! k)).
    { pose proof (f_equal length Hparts) as Hlp. rewrite !length_map in Hlp.
      apply lookup_lt_is_Some. rewrite <- Hlp. by eapply lookup_lt_Some. }
    destruct Hp as (p & Hp).
    assert (E : Arr (take (length f) f) = Arr (map Arr p)).
    { apply (f_equal (fun l => l !! k)) in Hparts.
      rewrite !list_lookup_fmap, Hk, Hp in Hparts. simpl in Hparts.
      congruence. }
    injection E as E. rewrite take_ge in E by lia.
    rewrite Forall_forall in Hlen. rewrite <- (Hlen p).
    - by rewrite E, length_map.
    - by eapply list_elem_of_lookup_2. }
  exists feats, rows. split.
  { clear -Hl. remember (map Arr feats) as l eqn:E. revert feats E.
    induction Hl as [|d a ds l Hd _ IH]; intros [|f feats] E; try discriminate E.
    - constructor.
    - injection E as -> E. constructor; [done|]. by apply IH. }
  split; [done|]. split.
  { rewrite Hn. rewrite Forall_fmap in Hmin. exact Hmin. }
  split.
  { rewrite Hn. apply list_elem_of_fmap in Hin as (f & -> & Hf).
    apply Exists_exists. by exists f. }
  intros i Hi. destruct (Hrows i Hi) as (ps & Hps & Hri).
  exists ps. split; [|done].
  clear -Hparts Hps Hi Hn. subst n. revert parts ps Hparts Hps.
  induction feats as [|f feats IH]; intros [|p parts] ps Hparts Hps;
    try discriminate Hparts.
  - inversion Hps. constructor.
  - inversion Hps as [|? x ? ps' Hx Hps']; subst. simpl in Hparts.
    injection Hparts as Hf Hparts. constructor; [|by apply IH with parts].
    rewrite <- (lookup_take_lt f (length rows) i) by lia.
    rewrite Hf, list_lookup_fmap, Hx. reflexivity.
Qed.

Lemma rows_to_sliced (f : Loader.npfile) (n : Z) (a : ndarray) :
  Loader.rows_to f n = Ok a -> exists xs, a = Arr (Py.slice_to xs n).
Proof.
  destruct f as [[q|xs]|m]; try discriminate. intros H. injection H as <-.
  by exists xs.
Qed.

Lemma nd_slice_to_sliced (b : ndarray) (n : Z) (a : ndarray) :
  nd_slice_to b n = Ok a -> exists xs, a = Arr (Py.slice_to xs n).
Proof.
  destruct b as [q|xs]; try discriminate. intros H. injection H as <-.
  by exists xs.
Qed.

Lemma concat_last_rows (xs ys : list ndarray) (c : ndarray) :
  Loader.concat_last (Arr xs) (Arr ys) = Ok c ->
  exists f, c = Arr f /\
    (length f = length xs \/
     f = xs ++ ys /\ forallb Loader.is_num xs && forallb Loader.is_num ys = true).
Proof.
  simpl. destruct (forallb Loader.is_num xs && forallb Loader.is_num ys) eqn:E.
  - intros H. injection H as <-. exists (xs ++ ys). split; [done|]. by right.
  - intros H. apply bind_Ok in H as (rows & Hrows & H). injection H as <-.
    exists rows. split; [done|]. left. clear E.
    revert ys rows Hrows. induction xs as [|x xs IH]; intros [|y ys] rows H;
      try discriminate H.
    + by injection H as <-.
    + apply bind_Ok in H as (r & _ & H). apply bind_Ok in H as (rs & Hrs & H).
      injection H as <-. simpl. f_equal. by eapply IH.
Qed.

(** A loaded directory feature has at most [max_v_l] rows, unless it is a
    vector of numbers. *)
Lemma load_dir_feat_rows (files : Loader.Files) (self : CGDETR_StartEndDataset)
    (vid d : string) (a : ndarray) :
  keeps_shape files -> 0 <= max_v_l self ->
  Loader.load_dir_feat files self vid d = Ok a ->
  exists f, a = Arr f /\
    ((length f <= Z.to_nat (max_v_l self))%nat \/ exists q rest, f = Num q :: rest).
Proof.
  intros Hshape Hmax. unfold Loader.load_dir_feat. intros H.
  apply bind_Ok in H as (pre & Hpre & H).
  assert (Hp : exists f, pre = Arr f /\
            ((length f <= Z.to_nat (max_v_l self))%nat \/
             exists q rest, f = Num q :: rest)).
  { match type of Hpre with match ?att with _ => _ end = _ =>
      destruct att as [a0|e] eqn:Eatt end.
    - injection Hpre as ->.
      destruct (String.eqb (dset_name self) "tvsum" && Py.contains "i3d" d).
      + apply bind_Ok in Eatt as (rf & _ & Eatt).
        apply bind_Ok in Eatt as (rgb & Hrgb & Eatt).
        apply bind_Ok in Eatt as (opf & _ & Eatt).
        apply bind_Ok in Eatt as (opt & Hopt & Eatt).
        apply rows_to_sliced in Hrgb as (xs & ->).
        apply rows_to_sliced in Hopt as (ys & ->).
        apply concat_last_rows in Eatt as (f & -> & [Hlen|[-> Hnum]]).
        * exists f. split; [done|]. left. rewrite Hlen. by apply length_slice_to.
        * eexists. split; [done|]. apply andb_prop in Hnum as [Hx Hy].
          destruct (Py.slice_to xs (max_v_l self)) as [|[q|r] xs'] eqn:Ex.
          -- destruct (Py.slice_to ys (max_v_l self)) as [|[q|r] ys'] eqn:Ey.
             ++ left. simpl. lia.
             ++ right. by eexists _, _.
             ++ discriminate Hy.
          -- right. by eexists _, _.
          -- discriminate Hx.
      + apply bind_Ok in Eatt as (f0 & _ & Eatt).
        apply bind_Ok in Eatt as (feat & _ & Eatt).
        apply nd_slice_to_sliced in Eatt as (xs & ->).
        eexists. split; [done|]. left. by apply length_slice_to.
    - apply bind_Ok in Hpre as (f0 & _ & Hpre).
      apply rows_to_sliced in Hpre as (xs & ->).
      eexists. split; [done|]. left. by apply length_slice_to. }
  destruct Hp as (f & -> & Hf).
  destruct (normalize_v self); [|injection H as <-; by exists f].
  apply Hshape in H. destruct a as [q|ys]; [discriminate H|].
  exists ys. split; [done|]. simpl in H. injection H as Hlen Hrow.
  destruct Hf as [Hf|(q & rest & ->)]; [left; lia|]. right.
  destruct ys as [|[q'|r] ys']; [discriminate Hlen| |discriminate Hrow].
  by eexists _, _.
Qed.

Lemma video_feat_rows_bounded (files : Loader.Files)
    (self : CGDETR_StartEndDataset) (vid : string) (t : Tensor) :
  keeps_shape files -> 0 <= max_v_l self ->
  Loader._get_video_feat_by_vid files self vid = Ok t ->
  exists n, nd_len (t_data t) = Ok n /\ (n <= Z.to_nat (max_v_l self))%nat /\
            t_device t = Cpu.
Proof.
  intros Hshape Hmax H.
  apply get_video_feat_inv in H
    as (feats & rows & Hload & -> & Hge & Hex & Hrows).
  exists (length rows). simpl. rewrite length_map. split; [done|].
  split; [|done].
  destruct feats as [|f feats]; [by apply Exists_nil in Hex|].
  inversion Hload as [|d a ds fs Hd _ Hdirs E]; subst.
  apply (load_dir_feat_rows _ _ _ _ _ Hshape Hmax) in Hd as (f' & Ef & Hf).
  injection Ef as <-. inversion Hge as [|? ? Hle _]; subst.
  destruct Hf as [Hf|(q & rest & ->)]; [lia|].
  destruct (length rows) as [|k] eqn:Ek; [lia|].
  destruct (Hrows 0%nat ltac:(lia)) as (ps & Hps & _).
  inversion Hps as [|? p ? ? Hp _]; subst. discriminate Hp.
Qed.

(** *** The path of a query feature *)

Lemma no_slash_app (s t : string) :
  String.prefix "/" s = false -> s <> "" -> String.prefix "/" (s +:+ t) = false.
Proof.
  destruct s as [|c s]; [done|]. intros H _.
  change (String c s +:+ t) with (String c (s +:+ t)).
  cbn -[Ascii.ascii_dec] in *.
  destruct (Ascii.ascii_dec _ c); [by destruct s|done].
Qed.

Lemma pretty_N_go_no_slash (x : N) (s : string) :
  String.prefix "/" s = false -> (s <> "" \/ x <> 0%N) ->
  String.prefix "/" (pretty_N_go x s) = false /\ pretty_N_go x s <> "".
Proof.
  revert s. induction (N.lt_wf_0 x) as [x _ IH]; intros s Hs Hne.
  assert (x = 0 \/ 0 < x)%N as [->|Hx] by lia.
  - rewrite pretty_N_go_0. by destruct Hne.
  - rewrite pretty_N_go_step by done. apply IH.
    + by apply N.div_lt.
    + unfold pretty_N_char. cbn -[Ascii.ascii_dec].
      by repeat case_match.
    + by left.
Qed.

Lemma pretty_Z_no_slash (z : Z) :
  String.prefix "/" (pretty z) = false /\ pretty z <> "".
Proof.
  assert (Hp : forall p : positive,
             String.prefix "/" (pretty p) = false /\ pretty p <> "").
  { intros p. unfold pretty, pretty_positive, pretty, pretty_N.
    destruct (decide (N.pos p = 0%N)) as [|_]; [done|].
    apply pretty_N_go_no_slash; [done|by right]. }
  destruct z as [|p|p]; [done|apply Hp|].
  unfold pretty, pretty_Z. split; [|done].
  reflexivity.
Qed.

Lemma string_length_app (s t : string) :
  String.length (s +:+ t) = (String.length s + String.length t)%nat.
Proof. induction s as [|c s IH]; simpl; [done|]. by rewrite IH. Qed.

Lemma app_inj_2 (s1 s2 t : string) : s1 +:+ t = s2 +:+ t -> s1 = s2.
Proof.
  assert (Hlen : forall s c u, s <> String c (u +:+ s)).
  { intros s c u E. apply (f_equal String.length) in E. simpl in E.
    rewrite string_length_app in E. lia. }
  revert s2. induction s1 as [|c s1 IH]; intros [|d s2] E; simpl in E.
  - done.
  - by apply Hlen in E.
  - symmetry in E. by apply Hlen in E.
  - injection E as -> E. f_equal. by apply IH.
Qed.

Lemma join_inj (a b1 b2 : string) :
  String.prefix "/" b1 = false -> String.prefix "/" b2 = false ->
  Loader.join a b1 = Loader.join a b2 -> b1 = b2.
Proof.
  unfold Loader.join. intros -> ->.
  destruct (String.eqb a "" || Loader.ends_with_slash a); intros E.
  - by apply (inj (String.app a)) in E.
  - apply (inj (String.app a)) in E. by apply (inj (String.app "/")) in E.
Qed.

(** X27. Two queries never share a feature file: the path that
    _get_query_feat_by_qid reads is different for different qids. *)
Theorem q_feat_path_distinct (self : CGDETR_StartEndDataset) (q1 q2 : Z) :
  q1 <> q2 -> Loader.q_feat_path self q1 <> Loader.q_feat_path self q2.
Proof.
  intros Hne E. apply Hne. unfold Loader.q_feat_path in E.
  destruct (pretty_Z_no_slash q1) as [H1 N1].
  destruct (pretty_Z_no_slash q2) as [H2 N2].
  destruct (is_highlight_set (dset_name self) || String.eqb (dset_name self) "tacos").
  - apply join_inj in E; [|by apply no_slash_app..].
    apply app_inj_2 in E. by apply (inj pretty) in E.
  - apply join_inj in E; [|done..].
    apply (inj (String.app "qid")) in E.
    apply app_inj_2 in E. by apply (inj pretty) in E.
Qed.

Lemma q_feat_path_distinct_witness :
  Loader.q_feat_path LoaderExample.dataset 7
    <> Loader.q_feat_path LoaderExample.dataset 8.
Proof. apply q_feat_path_distinct. lia. Defined.

(** *** The rows of the features of an item *)

Lemma shape_rows (a : ndarray) (xs : list ndarray) :
  shape a = shape (Arr xs) -> nd_len a = Ok (length xs).
Proof. destruct a as [q|ys]; [discriminate|]. simpl. by intros [= ->]. Qed.

Lemma query_feat_rows_bounded (files : Loader.Files)
    (self : CGDETR_StartEndDataset) (qid : Z) (t : Tensor) :
  keeps_shape files -> 0 <= max_q_l self ->
  is_highlight_set (dset_name self) = false ->
  q_feat_type self = "last_hidden_state" ->
  Loader._get_query_feat_by_qid files self qid = Ok t ->
  exists r, nd_len (t_data t) = Ok r /\ (r <= Z.to_nat (max_q_l self))%nat /\
            t_device t = Cpu.
Proof.
  intros Hshape Hmax Hset Htype. unfold Loader._get_query_feat_by_qid.
  rewrite Hset, Htype. intros H. apply bind_Ok in H as (f & _ & H).
  apply bind_Ok in H as (a & _ & H). apply bind_Ok in H as (b & Hb & H).
  apply bind_Ok in H as (c & Hc & H). injection H as <-.
  change (String.eqb "last_hidden_state" "last_hidden_state") with true in Hb.
  apply nd_slice_to_sliced in Hb as (xs & ->).
  pose proof (length_slice_to xs (max_q_l self) Hmax) as Hlen.
  destruct (normalize_t self).
  - apply Hshape, shape_rows in Hc. eexists. by split.
  - injection Hc as <-. eexists. by split.
Qed.

Lemma length_slice_to_le {A} (l : list A) (n : Z) :
  (length (Py.slice_to l n) <= length l)%nat.
Proof. unfold Py.slice_to. rewrite length_take. lia. Qed.

Lemma at_most_rows_insert (mi : gmap string value) (k : string) (t : Tensor)
    (r n : nat) :
  nd_len (t_data t) = Ok r -> (r <= n)%nat ->
  at_most_rows (<[k := VTensor t]> mi) k n.
Proof.
  intros Hr Hle v Hv. rewrite lookup_insert_eq in Hv. injection Hv as <-.
  by exists t, r.
Qed.

Lemma at_most_rows_frame (mi mi' : gmap string value) (k : string) (n : nat) :
  mi' !! k = mi !! k -> at_most_rows mi k n -> at_most_rows mi' k n.
Proof. intros E H v Hv. rewrite E in Hv. by apply H. Qed.

Lemma video_feat_not_label : "video_feat" ∉ label_keys.
Proof. apply (bool_decide_unpack _). by vm_compute. Qed.

Lemma query_feat_not_label : "query_feat" ∉ label_keys.
Proof. apply (bool_decide_unpack _). by vm_compute. Qed.

Lemma tvsum_labels_rows (meta : Meta.annotation) (mi out : gmap string value)
    (ctx_l : Z) (n : nat) :
  tvsum_labels meta mi ctx_l = Ok out ->
  at_most_rows mi "video_feat" n -> at_most_rows out "video_feat" n.
Proof.
  unfold tvsum_labels. intros H Hmi.
  apply bind_Ok in H as (labels & _ & H).
  apply bind_Ok in H as ([[pos neg] all] & _ & H).
  apply bind_Ok in H as (vf & Hvf & H). apply bind_Ok in H as (k & Hk & H).
  unfold tensor_at in Hvf. apply bind_Ok in Hvf as (v & Hv & Hvf).
  rewrite set_saliency_frame, lookup_insert_ne in Hv
    by (done || apply video_feat_not_label).
  destruct (mi !! "video_feat") as [v0|] eqn:E; [|discriminate Hv].
  injection Hv as ->. destruct (Hmi v E) as (t & r & -> & Hr & Hle).
  injection Hvf as <-. rewrite Hr in Hk. injection Hk as <-.
  destruct (negb _).
  - apply bind_Ok in H as (cut & Hcut & H). injection H as <-.
    destruct (t_data t) as [q|xs]; [discriminate|]. injection Hcut as <-.
    injection Hr as <-. eapply at_most_rows_insert; [reflexivity|].
    pose proof (length_slice_to_le xs (Z.of_nat (length all))). lia.
  - injection H as <-. intros v Hv.
    rewrite set_saliency_frame, lookup_insert_ne in Hv
      by (done || apply video_feat_not_label).
    rewrite E in Hv. injection Hv as <-. by exists t, r.
Qed.

Lemma label_stage_rows (self : CGDETR_StartEndDataset)
    (m m' : Meta.annotation) (mi mi' : gmap string value) (ctx_l : Z)
    (g g' : Random.rng) (n : nat) :
  label_stage self m mi ctx_l g = Ok (mi', m', g') ->
  at_most_rows mi "video_feat" n -> at_most_rows mi' "video_feat" n.
Proof.
  intros H Hmi.
  destruct (String.eqb_spec (dset_name self) "tvsum") as [Etv|Etv].
  - unfold label_stage in H. rewrite Etv in H.
    destruct (load_labels self); [|by injection H as <- _ _].
    change (String.eqb "tvsum" "tvsum") with true in H.
    apply bind_Ok in H as (out & Hout & H). injection H as <- _ _.
    by eapply tvsum_labels_rows.
  - eapply at_most_rows_frame; [|exact Hmi].
    eapply label_stage_frame; [exact H|apply video_feat_not_label|by right].
Qed.

Lemma tef_length (ctx_l : Z) (rows : list (Q * Q)) :
  tef ctx_l = Ok rows -> length rows = Z.to_nat ctx_l.
Proof.
  unfold tef. destruct (ctx_l <? 0); [discriminate|].
  destruct (ctx_l =? 0); [discriminate|]. intros H. injection H as <-.
  rewrite length_map, length_range. f_equal. lia.
Qed.

Lemma tef_stage_rows (self : CGDETR_StartEndDataset) (ctx_l : Z)
    (mi mi' : gmap string value) :
  tef_stage self ctx_l mi = Ok mi' ->
  at_most_rows mi "video_feat" (Z.to_nat ctx_l) ->
  at_most_rows mi' "video_feat" (Z.to_nat ctx_l).
Proof.
  unfold tef_stage. intros H Hmi.
  destruct (use_tef self); [|by injection H as <-].
  apply bind_Ok in H as (rows & Hrows & H). apply tef_length in Hrows.
  destruct (use_video self).
  - apply bind_Ok in H as (vf & Hvf & H). destruct (negb _); [discriminate|].
    apply bind_Ok in H as (c & Hc & H). injection H as <-.
    unfold tensor_at in Hvf. apply bind_Ok in Hvf as (v & Hv & Hvf).
    destruct (mi !! "video_feat") as [v0|] eqn:E; [|discriminate Hv].
    injection Hv as ->. destruct (Hmi v E) as (t & r & -> & Hr & Hle).
    injection Hvf as <-.
    eapply at_most_rows_insert; [|exact Hle].
    change (t_data (cpu c)) with c. by eapply cat_dim1_length.
  - injection H as <-. eapply at_most_rows_insert; [reflexivity|].
    unfold nd_of_rows. rewrite length_map. lia.
Qed.

Lemma video_stage_rows (files : Loader.Files)
    (load_jsonl : string -> result (list Meta.annotation))
    (get_query : CGDETR_StartEndDataset -> string -> result Tensor)
    (self : CGDETR_StartEndDataset) (m : Meta.annotation)
    (mi mi' : gmap string value) (ctx_l : Z) :
  keeps_shape files -> 0 <= max_v_l self ->
  mi !! "video_feat" = None ->
  video_stage (Loader.disk files load_jsonl get_query) self m mi
    = Ok (mi', ctx_l) ->
  0 <= ctx_l <= max_v_l self /\
  at_most_rows mi' "video_feat" (Z.to_nat ctx_l).
Proof.
  intros Hshape Hmax Hnone. unfold video_stage.
  destruct (use_video self).
  - intros H. apply bind_Ok in H as (vf & Hvf & H).
    apply bind_Ok in H as (n & Hn & H). injection H as <- <-.
    apply (video_feat_rows_bounded _ _ _ _ Hshape Hmax) in Hvf
      as (n' & Hn' & Hle & _).
    rewrite Hn in Hn'. injection Hn' as <-. split; [lia|].
    eapply at_most_rows_insert; [exact Hn|lia].
  - intros H. injection H as <- <-. split; [lia|].
    intros v Hv. rewrite Hnone in Hv. discriminate Hv.
Qed.

(** X28. The video feature of an item read through the loaders has at most
    max_v_l rows, for max_v_l >= 0 and a normaliser that keeps the shape of
    an array: with or without the temporal-endpoint columns, and also where
    only those columns make up the feature. *)
Theorem getitem_video_rows_bounded (files : Loader.Files)
    (load_jsonl : string -> result (list Meta.annotation))
    (get_query : CGDETR_StartEndDataset -> string -> result Tensor)
    (self self' : CGDETR_StartEndDataset) (index : Z) (g g' : Random.rng)
    (it : item) :
  keeps_shape files -> 0 <= max_v_l self ->
  getitem (Loader.disk files load_jsonl get_query) self index g
    = Ok (it, self', g') ->
  at_most_rows (model_inputs it) "video_feat" (Z.to_nat (max_v_l self)).
Proof.
  intros Hshape Hmax H.
  apply getitem_inv in H
    as (k & m & q & mi1 & ctx_l & mi2 & mi3 & _ & _ & _ & H1 & H2 & H3 & Hit & _).
  apply (video_stage_rows _ _ _ _ _ _ _ _ Hshape Hmax) in H1 as [Hctx H1];
    [|done].
  apply (tef_stage_rows _ _ _ _ H2) in H1.
  apply (label_stage_rows _ _ _ _ _ _ _ _ _ H3) in H1.
  intros v Hv. rewrite Hit, !lookup_insert_ne in Hv by done.
  destruct (H1 v Hv) as (t & r & -> & Hr & Hle).
  exists t, r. split; [done|]. split; [done|]. lia.
Qed.

(** X29. For the datasets other than tvsum and youtube_highlight, read with
    q_feat_type last_hidden_state and without the glove vocabulary, the
    query feature of an item read through the loaders is a cpu tensor of at
    most max_q_l tokens, for max_q_l >= 0 and a normaliser that keeps the
    shape of an array. *)
Theorem getitem_query_tokens_bounded (files : Loader.Files)
    (load_jsonl : string -> result (list Meta.annotation))
    (get_query : CGDETR_StartEndDataset -> string -> result Tensor)
    (self self' : CGDETR_StartEndDataset) (index : Z) (g g' : Random.rng)
    (it : item) :
  keeps_shape files -> 0 <= max_q_l self ->
  use_glove self = false ->
  is_highlight_set (dset_name self) = false ->
  q_feat_type self = "last_hidden_state" ->
  getitem (Loader.disk files load_jsonl get_query) self index g
    = Ok (it, self', g') ->
  exists t r,
    model_inputs it !! "query_feat" = Some (VTensor t) /\
    nd_len (t_data t) = Ok r /\ (r <= Z.to_nat (max_q_l self))%nat /\
    t_device t = Cpu.
Proof.
  intros Hshape Hmax Hglove Hset Htype H.
  apply getitem_inv in H
    as (k & m & q & mi1 & ctx_l & mi2 & mi3 & _ & _ & Hq & H1 & H2 & H3 & Hit & _).
  unfold query_stage in Hq. rewrite Hglove in Hq.
  apply (query_feat_rows_bounded _ _ _ _ Hshape Hmax Hset Htype) in Hq
    as (r & Hr & Hle & Hcpu).
  exists q, r. split; [|done].
  rewrite Hit, !lookup_insert_ne by done.
  erewrite label_stage_frame;
    [|exact H3|apply query_feat_not_label|by left].
  erewrite tef_stage_frame; [|exact H2|done].
  erewrite video_stage_frame; [|exact H1|done].
  apply lookup_singleton_eq.
Qed.

(** *** The loaders on example files *)

Lemma ndarray_nested_ind (P : ndarray -> Prop) :
  (forall q, P (Num q)) ->
  (forall xs, Forall P xs -> P (Arr xs)) ->
  forall a, P a.
Proof.
  intros Hnum Harr. fix IH 1. intros [q|xs]; [apply Hnum|].
  apply Harr. induction xs as [|x xs IHxs]; constructor; [apply IH|exact IHxs].
Qed.

Lemma normalize_shape (a : ndarray) :
  shape (LoaderExample.normalize a) = shape a.
Proof.
  induction a as [q|xs IH] using ndarray_nested_ind; [done|]. simpl.
  destruct (forallb Loader.is_num xs) eqn:E; simpl; rewrite length_map; f_equal.
  - destruct xs as [|[q|r] xs]; [done|done|discriminate E].
  - destruct xs as [|x xs]; [done|]. by inversion IH.
Qed.

Lemma example_keeps_shape : keeps_shape LoaderExample.files.
Proof.
  intros [q|xs] b H; [discriminate H|]. injection H as <-.
  exact (normalize_shape (Arr xs)).
Qed.

Lemma video_dir_feat_falls_back_witness :
  exists x,
    Loader.load_dir_feat LoaderExample.files LoaderExample.dataset "vid0" "clip"
      = Ok x /\
    nd_len x = Ok 3%nat /\
    npz_features LoaderExample.files "clip/vid0.npz" = None.
Proof.
  exists (LoaderExample.normalize (LoaderExample.matrix 3 4 2)).
  split; [|split; reflexivity].
  apply (video_dir_feat_falls_back LoaderExample.files LoaderExample.dataset
           "vid0" "clip"); [reflexivity|].
  exists (replicate 4 (Arr (replicate 4 (Num 2)))).
  split; [right; split; reflexivity|reflexivity].
Defined.

(** X30. The video feature that _get_video_feat_by_vid returns is a cpu
    tensor made of the features of the directories, in their order: each is
    cut to as many rows as the shortest of them has, and the rows of one
    index are joined into one row. *)
Theorem video_feat_trimmed_and_joined (files : Loader.Files)
    (self : CGDETR_StartEndDataset) (vid : string) (t : Tensor) :
  Loader._get_video_feat_by_vid files self vid = Ok t ->
  exists (feats : list (list ndarray)) (rows : list (list ndarray)),
    Forall2 (fun d f => Loader.load_dir_feat files self vid d = Ok (Arr f))
      (v_feat_dirs self) feats /\
    t = cpu (Arr (map Arr rows)) /\
    Forall (fun f => (length rows <= length f)%nat) feats /\
    Exists (fun f => length f = length rows) feats /\
    forall i, (i < length rows)%nat ->
      exists ps, Forall2 (fun f p => f !! i = Some (Arr p)) feats ps /\
                 rows !! i = Some (concat ps).
Proof.
  apply get_video_feat_inv.
Qed.

Lemma video_feat_trimmed_and_joined_witness :
  exists t feats rows,
    Loader._get_video_feat_by_vid LoaderExample.files LoaderExample.dataset
      "vid0" = Ok t /\
    Forall2 (fun d f => Loader.load_dir_feat LoaderExample.files
                          LoaderExample.dataset "vid0" d = Ok (Arr f))
      (v_feat_dirs LoaderExample.dataset) feats /\
    t = cpu (Arr (map Arr rows)) /\
    Forall (fun f => (length rows <= length f)%nat) feats /\
    Exists (fun f => length f = length rows) feats /\
    forall i, (i < length rows)%nat ->
      exists ps, Forall2 (fun f p => f !! i = Some (Arr p)) feats ps /\
                 rows !! i = Some (concat ps).
Proof.
  destruct (Loader._get_video_feat_by_vid LoaderExample.files
              LoaderExample.dataset "vid0") as [t|e] eqn:E.
  - destruct (video_feat_trimmed_and_joined LoaderExample.files
                LoaderExample.dataset "vid0" t E) as (feats & rows & H).
    exists t, feats, rows. split; [reflexivity|exact H].
  - assert (H : is_Ok (Loader._get_video_feat_by_vid LoaderExample.files
                         LoaderExample.dataset "vid0") = true)
      by (vm_compute; reflexivity).
    rewrite E in H. discriminate H.
Defined.

Lemma getitem_video_rows_bounded_witness :
  exists it self' g',
    getitem LoaderExample.disk LoaderExample.dataset 0 [] = Ok (it, self', g') /\
    at_most_rows (model_inputs it) "video_feat" 3.
Proof.
  destruct (getitem LoaderExample.disk LoaderExample.dataset 0 [])
    as [[[it self'] g']|e] eqn:E.
  - exists it, self', g'. split; [reflexivity|].
    apply (getitem_video_rows_bounded LoaderExample.files (fun _ => Ok [])
             (fun _ _ => Raise NotImplementedError) LoaderExample.dataset
             self' 0 [] g' it example_keeps_shape); [simpl; lia|exact E].
  - assert (H : is_Ok (getitem LoaderExample.disk LoaderExample.dataset 0 [])
                = true) by (vm_compute; reflexivity).
    rewrite E in H. discriminate H.
Defined.

Lemma getitem_query_tokens_bounded_witness :
  exists it self' g' t r,
    getitem LoaderExample.disk LoaderExample.dataset 0 [] = Ok (it, self', g') /\
    model_inputs it !! "query_feat" = Some (VTensor t) /\
    nd_len (t_data t) = Ok r /\ (r <= 2)%nat /\ t_device t = Cpu.
Proof.
  destruct (getitem LoaderExample.disk LoaderExample.dataset 0 [])
    as [[[it self'] g']|e] eqn:E.
  - destruct (getitem_query_tokens_bounded LoaderExample.files (fun _ => Ok [])
                (fun _ _ => Raise NotImplementedError) LoaderExample.dataset
                self' 0 [] g' it example_keeps_shape)
      as (t & r & H); [simpl; lia|reflexivity|reflexivity|reflexivity|exact E|].
    exists it, self', g', t, r. split; [reflexivity|exact H].
  - assert (H : is_Ok (getitem LoaderExample.disk LoaderExample.dataset 0 [])
                = true) by (vm_compute; reflexivity).
    rewrite E in H. discriminate H.
Defined.
